(** * Excel mock interviewer: interview state machine and scoring pipeline

    A shallow embedding of the TypeScript sources

      - [src/lib/spreadsheet-utils.ts]
          (FormulaParser, SpreadsheetAnalyzer, ActionTracker, TaskEvaluator,
           CellUtils),
      - [src/lib/excel-interview-state-manager.ts]
          (ExcelInterviewStateManagerImpl, createExcelInterviewStateManager),
      - [src/services/excel-skill-config.service.ts]
          (ExcelSkillConfigService.getRecommendedLevel),
      - [src/services/excel-analytics.service.ts]
          (ExcelAnalyticsService.getReadinessThreshold),
      - [src/services/excel-evaluation.service.ts]
          (ExcelEvaluationService.generateExcelAnalytics),

    followed by the properties of the specification that concern them.

    Conventions of the embedding.
      - A JavaScript string is a [string] of code units below 256.
      - Integer-valued numbers that are counted or read from a clock
        (indices, lengths, counters, epoch milliseconds, scores that are
        sums of integers) are [nat] or [Z]: they stay far below 2^53,
        where the doubles of the source are exact.
      - A number that the caller chooses (a column index, the column that
        a label denotes, the row of a reference) and the quotients of
        the grid differ and of the action tracker are doubles: module
        [Double] rounds the exact result to the nearest double.
      - The averages and weighted scores of the evaluation and analytics
        services are exact rationals [Q]: the rounding of their
        divisions is not represented.
      - [undefined] is [None]; an optional field [x?: T] is [option T].
      - [Date.now()] and [new Date()] read a clock.  An operation that
        reads it once has the reading as a parameter [now]; an operation
        that reads it several times has a [Clock], the sequence of its
        readings (epoch milliseconds). *)

From Stdlib Require Import ZArith QArith Qround String Ascii List Lia Bool Arith.
From Stdlib Require Import Qabs Qpower DecimalString DecimalNat Lqa.
From Equations Require Import Equations.
Import ListNotations.

Local Open Scope Z_scope.

(* ===================================================================== *)
(** * Part I: the program                                                 *)
(* ===================================================================== *)

(* --------------------------------------------------------------------- *)
(** ** JavaScript values and helpers                                      *)
(* --------------------------------------------------------------------- *)

(** The scalar values a cell or an action can hold ([v?: any],
    [old_value?: any]); [undefined] is the absence of the field. *)
Inductive jsval : Type :=
| VNull
| VBool (b : bool)
| VNum (n : Q)
| VStr (s : string).

(** [a === b] on scalars: same type and same value. *)
Definition strictEquals (a b : jsval) : bool :=
  match a, b with
  | VNull, VNull => true
  | VBool x, VBool y => Bool.eqb x y
  | VNum x, VNum y => Qeq_bool x y
  | VStr x, VStr y => String.eqb x y
  | _, _ => false
  end.

(** [a === b] where either side may be [undefined]. *)
Definition strictEqualsOpt (a b : option jsval) : bool :=
  match a, b with
  | None, None => true
  | Some x, Some y => strictEquals x y
  | _, _ => false
  end.

(** [a < b] on finite numbers. *)
Definition Qltb (a b : Q) : bool := negb (Qle_bool b a).

(** [for (let i = 0; i < n; i++) body], threading the variables the loop
    assigns. *)
Definition for_range {S : Type} (n : nat) (body : nat -> S -> S) (init : S) : S :=
  fold_left (fun st i => body i st) (seq 0 n) init.

(** [arr.includes(x)] on an array of strings. *)
Definition includes (arr : list string) (x : string) : bool :=
  existsb (String.eqb x) arr.

(** [arr.indexOf(x)]; the source only compares it with an index that is in
    range, so "not found" is [length arr] here where JavaScript has -1. *)
Fixpoint indexOf (arr : list string) (x : string) : nat :=
  match arr with
  | [] => O
  | y :: tl => if String.eqb y x then O else S (indexOf tl x)
  end.

(** [arr.filter((x, index) => f x index)]. *)
Fixpoint filter_indexed {A : Type} (f : A -> nat -> bool) (i : nat) (arr : list A)
  : list A :=
  match arr with
  | [] => []
  | x :: tl => if f x i then x :: filter_indexed f (S i) tl
               else filter_indexed f (S i) tl
  end.

(** [Array.from(new Set(arr))]: a [Set] keeps the insertion order of the
    first occurrence of each element. *)
Definition Set_add (seen : list string) (x : string) : list string :=
  if includes seen x then seen else seen ++ [x].

Definition Array_from_Set (arr : list string) : list string :=
  fold_left Set_add arr [].

(** [s.startsWith(p)] and [s.includes(p)] on strings. *)
Fixpoint startsWith (s p : string) : bool :=
  match p, s with
  | EmptyString, _ => true
  | String b p', String a s' => Ascii.eqb a b && startsWith s' p'
  | String _ _, EmptyString => false
  end.

Fixpoint str_includes (s p : string) : bool :=
  startsWith s p ||
  match s with
  | EmptyString => false
  | String _ s' => str_includes s' p
  end.

(** Decimal rendering of a non-negative integer, as in a template literal. *)
Definition nat_to_string (n : nat) : string :=
  NilEmpty.string_of_uint (Nat.to_uint n).

(* --------------------------------------------------------------------- *)
(** ** JavaScript numbers that need not be finite                         *)
(* --------------------------------------------------------------------- *)

(** The analytics report divides by counts that may be zero and takes the
    maximum of a list that may be empty, and a long column label decodes
    to a number beyond the doubles, so numbers range over the finite
    values and [NaN], [Infinity], [-Infinity].  Finite values are
    rationals and the sign of zero is not represented.  The operations
    of this module give the exact result; [Double] below rounds it. *)
Module Number.

Inductive number : Type :=
| Num (q : Q)
| NaN
| Infinity
| NegInfinity.

Definition isZero (q : Q) : bool := Qeq_bool q 0.
Definition isNeg (q : Q) : bool := Qltb q 0.

Definition neg (a : number) : number :=
  match a with
  | Num x => Num (- x)
  | NaN => NaN
  | Infinity => NegInfinity
  | NegInfinity => Infinity
  end.

Definition add (a b : number) : number :=
  match a, b with
  | NaN, _ | _, NaN => NaN
  | Num x, Num y => Num (x + y)
  | Infinity, NegInfinity | NegInfinity, Infinity => NaN
  | Infinity, _ | _, Infinity => Infinity
  | NegInfinity, _ | _, NegInfinity => NegInfinity
  end.

Definition sub (a b : number) : number := add a (neg b).

(** An infinity multiplied or divided by the finite [x]. *)
Definition scaleInf (inf : number) (x : Q) : number :=
  if isNeg x then neg inf else inf.

Definition mul (a b : number) : number :=
  match a, b with
  | NaN, _ | _, NaN => NaN
  | Num x, Num y => Num (x * y)
  | Num x, inf | inf, Num x => if isZero x then NaN else scaleInf inf x
  | Infinity, Infinity | NegInfinity, NegInfinity => Infinity
  | Infinity, NegInfinity | NegInfinity, Infinity => NegInfinity
  end.

Definition div (a b : number) : number :=
  match a, b with
  | NaN, _ | _, NaN => NaN
  | Num x, Num y =>
      if isZero y then
        if isZero x then NaN else if isNeg x then NegInfinity else Infinity
      else Num (x / y)
  | Num _, _ => Num 0
  | inf, Num y => scaleInf inf y
  | _, _ => NaN
  end.

Definition lt (a b : number) : bool :=
  match a, b with
  | NaN, _ | _, NaN => false
  | Num x, Num y => Qltb x y
  | _, NegInfinity => false
  | Infinity, _ => false
  | _, Infinity => true
  | NegInfinity, _ => true
  end.

Definition le (a b : number) : bool :=
  match a, b with
  | NaN, _ | _, NaN => false
  | Num x, Num y => Qle_bool x y
  | NegInfinity, _ => true
  | _, Infinity => true
  | _, _ => false
  end.

(** [a >= b] *)
Definition ge (a b : number) : bool := le b a.

(** [Math.min(a, b)] and [Math.max(a, b)] *)
Definition min (a b : number) : number :=
  match a, b with
  | NaN, _ | _, NaN => NaN
  | _, _ => if lt b a then b else a
  end.

Definition max (a b : number) : number :=
  match a, b with
  | NaN, _ | _, NaN => NaN
  | _, _ => if lt a b then b else a
  end.

(** [Math.max(...xs)]; it is [-Infinity] on the empty list. *)
Definition maxAll (xs : list number) : number :=
  fold_left max xs NegInfinity.

(** [Math.round] on a finite number: the nearest integer, ties upwards. *)
Definition roundQ (q : Q) : Z := Qfloor (q + (1 # 2)).

Definition round (a : number) : number :=
  match a with
  | Num x => Num (inject_Z (roundQ x))
  | other => other
  end.

Definition ofNat (n : nat) : number := Num (inject_Z (Z.of_nat n)).

(** [xs.reduce((a, b) => a + b, 0)] over finite numbers. *)
Definition sumQ (xs : list Q) : Q := fold_left Qplus xs 0%Q.

(** [sum / xs.length] *)
Definition average (xs : list Q) : number :=
  div (Num (sumQ xs)) (ofNat (length xs)).

End Number.

(* --------------------------------------------------------------------- *)
(** ** Double-precision arithmetic                                        *)
(* --------------------------------------------------------------------- *)

(** JavaScript numbers are IEEE 754 doubles: the finite ones are the
    integer multiples [m * 2^e] with [|m| < 2^53] and
    [-1074 <= e <= 971], and an arithmetic operation returns the double
    nearest to its exact result, a tie going to the double with the even
    [m] (integers up to [2^53] are doubles, [2^53 + 1] is not). *)
Module Double.

Import Number.

Definition pow2 (k : Z) : Q := (2 ^ k)%Q.

(** [floor (log2 x)] for [x > 0]. *)
Definition ilog2 (x : Q) : Z :=
  let k := Z.log2 (Qnum x) - Z.log2 (Zpos (Qden x)) in
  if Qle_bool (pow2 k) x then k else k - 1.

(** The exponent [e] of the doubles [m * 2^e] around [x]: 52 binary
    places below the leading one of [x], and -1074 at the least. *)
Definition ulpExponent (x : Q) : Z := Z.max (ilog2 (Qabs x) - 52) (-1074).

(** The integer nearest to [y], the even one in a tie. *)
Definition roundToEven (y : Q) : Z :=
  let below := Qfloor y in
  match (y - inject_Z below ?= 1 # 2)%Q with
  | Lt => below
  | Gt => below + 1
  | Eq => if Z.even below then below else below + 1
  end.

(** The double nearest to [x], for [x] within the range of the
    doubles. *)
Definition nearest (x : Q) : Q :=
  if Qeq_bool x 0 then 0%Q
  else
    let e := ulpExponent x in
    Qred (inject_Z (roundToEven (x / pow2 e)) * pow2 e).

(** Rounding: what reaches [2^1024] is an infinity. *)
Definition round (x : Q) : number :=
  let r := nearest x in
  if Qle_bool (pow2 1024) r then Infinity
  else if Qle_bool r (- pow2 1024) then NegInfinity
  else Num r.

Definition rounded (a : number) : number :=
  match a with
  | Num x => round x
  | other => other
  end.

(** [a + b], [a - b] and [a * b] on doubles. *)
Definition add (a b : number) : number := rounded (Number.add a b).
Definition sub (a b : number) : number := rounded (Number.sub a b).
Definition mul (a b : number) : number := rounded (Number.mul a b).

End Double.

(* --------------------------------------------------------------------- *)
(** ** FormulaParser                                                      *)
(* --------------------------------------------------------------------- *)

Module FormulaParser.

Record ParsedFormula : Type := mkParsed {
  functions : list string;
  references : list string;
  isValid : bool;
  complexity : Z
}.

(** Character classes of the two regular expressions. *)
Definition isUpper (c : ascii) : bool :=
  let n := nat_of_ascii c in (65 <=? n)%nat && (n <=? 90)%nat.

Definition isDigit (c : ascii) : bool :=
  let n := nat_of_ascii c in (48 <=? n)%nat && (n <=? 57)%nat.

(** [[A-Z0-9_]] *)
Definition isIdentChar (c : ascii) : bool :=
  isUpper c || isDigit c || Ascii.eqb c "_".

(** [\s] restricted to code units below 256: TAB, LF, VT, FF, CR, SPACE
    and NBSP. *)
Definition isSpace (c : ascii) : bool :=
  let n := nat_of_ascii c in
  ((9 <=? n)%nat && (n <=? 13)%nat) || (n =? 32)%nat || (n =? 160)%nat.

Fixpoint takeWhile (p : ascii -> bool) (s : string) : string :=
  match s with
  | EmptyString => EmptyString
  | String c tl => if p c then String c (takeWhile p tl) else EmptyString
  end.

Fixpoint dropWhile (p : ascii -> bool) (s : string) : string :=
  match s with
  | EmptyString => EmptyString
  | String c tl => if p c then dropWhile p tl else s
  end.

(** One attempt of the function pattern anchored at the head of [s]: an
    upper-case letter, then any number of characters of [A-Z0-9_] (these
    form the captured name), then any white space, then an opening
    parenthesis.  The result is the captured name and the length of the
    whole match.  The greedy choice is the only one that can succeed:
    after a shorter identifier the next character is an identifier
    character, which is neither white space nor an opening parenthesis,
    and likewise for a shorter run of white space. *)
Definition matchFunctionAt (s : string) : option (string * nat) :=
  match s with
  | String c tl =>
      if isUpper c then
        let ident := takeWhile isIdentChar tl in
        let rest := dropWhile isIdentChar tl in
        let spaces := takeWhile isSpace rest in
        match dropWhile isSpace rest with
        | String "("%char _ =>
            Some (String c ident,
                  (1 + String.length ident + String.length spaces + 1)%nat)
        | _ => None
        end
      else None
  | EmptyString => None
  end.

(** The reference pattern is one cell (one or more upper-case letters
    followed by one or more digits), optionally followed by a colon and a
    second cell.  [matchCellAt] matches one cell at the head of [s] and
    returns it with the rest of the input; [matchReferenceAt] is one
    attempt of the whole pattern: the matched text and its length. *)
Definition matchCellAt (s : string) : option (string * string) :=
  let letters := takeWhile isUpper s in
  let rest := dropWhile isUpper s in
  let digits := takeWhile isDigit rest in
  match letters, digits with
  | String _ _, String _ _ =>
      Some ((letters ++ digits)%string, dropWhile isDigit rest)
  | _, _ => None
  end.

Definition matchReferenceAt (s : string) : option (string * nat) :=
  match matchCellAt s with
  | Some (first, rest) =>
      match rest with
      | String ":"%char rest' =>
          match matchCellAt rest' with
          | Some (second, _) =>
              let m := (first ++ ":" ++ second)%string in
              Some (m, String.length m)
          | None => Some (first, String.length first)
          end
      | _ => Some (first, String.length first)
      end
  | None => None
  end.

(** [while ((match = regex.exec(formula)) !== null) out.push(match[1])]
    for a global regular expression: the search resumes at [lastIndex],
    the end of the previous match.  [skip] counts the characters of the
    previous match that are still ahead. *)
Fixpoint execAll (matchAt : string -> option (string * nat))
         (skip : nat) (s : string) : list string :=
  match s with
  | EmptyString => []
  | String _ tl =>
      match skip with
      | S k => execAll matchAt k tl
      | O =>
          match matchAt s with
          | Some (captured, len) => captured :: execAll matchAt (len - 1) tl
          | None => execAll matchAt 0 tl
          end
      end
  end.

(** [complexityMap[functionName] || 2] *)
Definition complexityMap : list (string * Z) :=
  [ ("SUM", 1); ("AVERAGE", 1); ("COUNT", 1); ("MAX", 1); ("MIN", 1);
    ("IF", 2); ("SUMIF", 2); ("COUNTIF", 2);
    ("VLOOKUP", 3); ("HLOOKUP", 3); ("INDEX", 3); ("MATCH", 3);
    ("INDIRECT", 4); ("OFFSET", 4); ("SUMPRODUCT", 4);
    ("ARRAY", 5) ]%string.

Definition getFunctionComplexity (functionName : string) : Z :=
  match find (fun kv => String.eqb (fst kv) functionName) complexityMap with
  | Some (_, w) => w
  | None => 2
  end.

(** The loop of [validateFormula]: [openParens] is the running count; the
    loop returns [false] as soon as it is negative. *)
Fixpoint validateFormula_loop (openParens : Z) (s : string) : bool :=
  match s with
  | EmptyString => openParens =? 0
  | String char tl =>
      let openParens := if Ascii.eqb char "(" then openParens + 1 else openParens in
      let openParens := if Ascii.eqb char ")" then openParens - 1 else openParens in
      if openParens <? 0 then false else validateFormula_loop openParens tl
  end.

Definition validateFormula (formula : string) : bool :=
  validateFormula_loop 0 formula.

(** [!formula || !formula.startsWith('=')]: the empty string is falsy and
    does not start with ['='] either. *)
Definition parseFormula (formula : string) : ParsedFormula :=
  if negb (startsWith formula "=") then
    mkParsed [] [] false 0
  else
    let functions := execAll matchFunctionAt 0 formula in
    let complexity :=
      fold_left (fun acc f => acc + getFunctionComplexity f) functions 0 in
    let references := execAll matchReferenceAt 0 formula in
    let isValid := validateFormula formula in
    mkParsed functions references isValid complexity.

End FormulaParser.


(* --------------------------------------------------------------------- *)
(** ** CellUtils                                                          *)
(* --------------------------------------------------------------------- *)

Module CellUtils.

(** [String.fromCharCode(65 + (col % 26))]; the remainder of a double is
    exact. *)
Definition columnDigit (col : Z) : ascii :=
  ascii_of_N (Z.to_N (65 + col mod 26)).

(** [Math.floor(col / 26) - 1] on a column that is an integer: the
    quotient is rounded to a double, its floor is an integer, and the
    difference is rounded again (to an integer, as every double from
    [2^52] on is one). *)
Definition nextColumn (col : Z) : Z :=
  Qfloor (Double.nearest
            (inject_Z (Qfloor (Double.nearest (inject_Z col / 26))) - 1)).

(** The loop of [columnToLetter]:
    [while (col >= 0) { result = letter + result; col = floor(col/26) - 1 }]
    on a column that is an integer.  It terminates because [col]
    decreases strictly while it is non-negative. *)
Equations? columnToLetter_loop (col : Z) (result : string) : string
  by wf (Z.to_nat (col + 1)) lt :=
  columnToLetter_loop col result with Z_ge_dec col 0 => {
    | left _ =>
        columnToLetter_loop (nextColumn col) (String (columnDigit col) result);
    | right _ => result }.
Proof.
  (* Rounding a non-negative number at most doubles it, so the next
     column is at most col/13. *)
  assert (Hround : forall y : Q,
             (0 <= y)%Q ->
             0 <= Double.roundToEven y /\
             (inject_Z (Double.roundToEven y) <= 2 * y)%Q).
  { intros y Hy. unfold Double.roundToEven.
    pose proof (Qfloor_le y) as Hlow.
    assert (Hf : 0 <= Qfloor y).
    { rewrite <- (Qfloor_Z 0). now apply Qfloor_resp_le. }
    assert (Hfq : (0 <= inject_Z (Qfloor y))%Q).
    { change 0%Q with (inject_Z 0). now rewrite <- Zle_Qle. }
    destruct (Qcompare_spec (y - inject_Z (Qfloor y)) (1 # 2)) as [H | H | H].
    - destruct (Z.even (Qfloor y)); (split; [lia |]);
        rewrite ?inject_Z_plus; change (inject_Z 1) with 1%Q; lra.
    - split; [lia | lra].
    - split; [lia |]. rewrite inject_Z_plus. change (inject_Z 1) with 1%Q. lra. }
  assert (Hnear : forall x : Q,
             (0 <= x)%Q -> (0 <= Double.nearest x)%Q /\ (Double.nearest x <= 2 * x)%Q).
  { intros x Hx. unfold Double.nearest.
    destruct (Qeq_bool x 0) eqn:Hz.
    - apply Qeq_bool_eq in Hz. rewrite Hz. split; discriminate.
    - rewrite Qred_correct.
      set (p := Double.pow2 (Double.ulpExponent x)).
      assert (Hp : (0 < p)%Q) by (apply Qpower_0_lt; reflexivity).
      assert (Hy : (0 <= x / p)%Q).
      { apply Qle_shift_div_l; [exact Hp | now rewrite Qmult_0_l]. }
      destruct (Hround _ Hy) as (H0 & H2).
      split.
      + apply Qmult_le_0_compat; [| now apply Qlt_le_weak].
        change 0%Q with (inject_Z 0). now rewrite <- Zle_Qle.
      + apply Qle_trans with (2 * (x / p) * p)%Q.
        * apply Qmult_le_compat_r; [exact H2 | now apply Qlt_le_weak].
        * assert (He : (2 * (x / p) * p == 2 * x)%Q).
          { field. intros H. rewrite H in Hp. discriminate Hp. }
          rewrite He. apply Qle_refl. }
  unfold nextColumn.
  assert (Hcol : (0 <= inject_Z col / 26)%Q).
  { apply Qle_shift_div_l; [reflexivity |]. rewrite Qmult_0_l.
    change 0%Q with (inject_Z 0). rewrite <- Zle_Qle. lia. }
  destruct (Hnear _ Hcol) as (Hk0 & Hk2).
  set (k := Qfloor (Double.nearest (inject_Z col / 26))) in *.
  assert (Hk : 0 <= k /\ 13 * k <= col).
  { split.
    - unfold k. rewrite <- (Qfloor_Z 0). now apply Qfloor_resp_le.
    - pose proof (Qfloor_le (Double.nearest (inject_Z col / 26))) as Hfl.
      fold k in Hfl.
      assert (H13 : (inject_Z (13 * k) <= inject_Z col)%Q).
      { rewrite inject_Z_mult. change (inject_Z 13) with 13%Q.
        assert (He : (2 * (inject_Z col / 26) == inject_Z col / 13)%Q) by field.
        rewrite He in Hk2.
        assert (Hle : (inject_Z k <= inject_Z col / 13)%Q) by lra.
        apply (Qmult_le_compat_r _ _ 13) in Hle; [| discriminate].
        assert (He' : (inject_Z col / 13 * 13 == inject_Z col)%Q) by field.
        rewrite He' in Hle. lra. }
      now rewrite <- Zle_Qle in H13. }
  destruct (Z.eq_dec k 0) as [-> | Hpos].
  - change (Qfloor (Double.nearest (inject_Z 0 - 1))) with (-1). lia.
  - assert (He1 : (inject_Z k - 1 == inject_Z (k - 1))%Q).
    { unfold Z.sub. rewrite inject_Z_plus. reflexivity. }
    assert (Hk1 : (0 <= inject_Z k - 1)%Q).
    { rewrite He1. change 0%Q with (inject_Z 0). rewrite <- Zle_Qle. lia. }
    destruct (Hnear _ Hk1) as (_ & Hn2).
    pose proof (Qfloor_le (Double.nearest (inject_Z k - 1))) as Hfl.
    set (next := Qfloor (Double.nearest (inject_Z k - 1))) in *.
    assert (Hnext : (inject_Z next <= inject_Z (2 * (k - 1)))%Q).
    { rewrite inject_Z_mult, <- He1. change (inject_Z 2) with 2%Q. lra. }
    rewrite <- Zle_Qle in Hnext. lia.
Qed.

(** [columnToLetter(col)] for a column that is an integer. *)
Definition columnToLetter (col : Z) : string :=
  columnToLetter_loop col "".

(** [letter.charCodeAt(i) - 64] *)
Definition letterValue (c : ascii) : Z :=
  Z.of_N (N_of_ascii c) - 64.

(** [result = result * 26 + (letter.charCodeAt(i) - 64)]: a product and
    a sum of doubles. *)
Fixpoint letterToColumn_loop (result : Number.number) (letter : string)
  : Number.number :=
  match letter with
  | EmptyString => result
  | String c tl =>
      letterToColumn_loop
        (Double.add (Double.mul result (Number.Num 26))
                    (Number.Num (inject_Z (letterValue c))))
        tl
  end.

Definition letterToColumn (letter : string) : Number.number :=
  Double.sub (letterToColumn_loop (Number.Num 0) letter) (Number.Num 1).

End CellUtils.

(* --------------------------------------------------------------------- *)
(** ** Spreadsheet data ([types/excel.ts])                                *)
(* --------------------------------------------------------------------- *)

Record CellType : Type := mkCellType {
  fa : string;
  t : string
}.

Record CellStyle : Type := mkCellStyle {
  bg : option string;
  fc : option string;
  ff : option string;
  fs : option Q;
  bl : option Q;
  it : option Q;
  cl : option Q;
  ul : option Q;
  ht : option Q;
  vt : option Q
}.

Record CellData : Type := mkCell {
  v : option jsval;
  f : option string;
  ct : option CellType;
  s : option CellStyle;
  m : option string
}.

(** A grid slot of [data: CellData[][]] holds a cell object or [null] (the
    spreadsheet widget stores [null] for a cell that was never filled);
    reading outside of a row or of the grid yields [undefined]. *)
Definition Row : Type := list (option CellData).
Definition Grid : Type := list Row.

Record SpreadsheetSheet : Type := mkSheet {
  name : string;
  data : Grid
}.

Record SpreadsheetData : Type := mkSpreadsheet {
  sheets : list SpreadsheetSheet
}.

(** The result of an indexing expression [data[r]?.[c]]. *)
Inductive slot : Type :=
| Undefined
| Null
| Obj (cell : CellData).

Definition cellAt (g : Grid) (r c : nat) : slot :=
  match nth_error g r with
  | None => Undefined
  | Some row =>
      match nth_error row c with
      | None => Undefined
      | Some None => Null
      | Some (Some cell) => Obj cell
      end
  end.

(** [cell?.v] and [cell?.f] *)
Definition slot_v (x : slot) : option jsval :=
  match x with Obj cell => v cell | _ => None end.

Definition slot_f (x : slot) : option string :=
  match x with Obj cell => f cell | _ => None end.

(** ** JSON.stringify

    The text that [JSON.stringify] produces is represented by the tree it
    prints: two trees are equal exactly when their texts are.  Object keys
    are printed in insertion order; the embedding fixes the order of the
    fields of a cell as [v, f, ct, s, m], and a field that is [undefined] is
    left out, as in JavaScript. *)
#[warnings="-register-all"]
Inductive json : Type :=
| JNull
| JBool (b : bool)
| JNum (n : Q)
| JStr (s : string)
| JObj (fields : list (string * json)).

Definition json_of_jsval (x : jsval) : json :=
  match x with
  | VNull => JNull
  | VBool b => JBool b
  | VNum n => JNum (Qred n)
  | VStr s => JStr s
  end.

Definition field {A : Type} (key : string) (to_json : A -> json) (x : option A)
  : list (string * json) :=
  match x with
  | Some a => [(key, to_json a)]
  | None => []
  end.

Definition json_of_num (n : Q) : json := JNum (Qred n).

Definition json_of_CellType (x : CellType) : json :=
  JObj [("fa"%string, JStr (fa x)); ("t"%string, JStr (t x))].

Definition json_of_CellStyle (x : CellStyle) : json :=
  JObj (field "bg" JStr (bg x) ++ field "fc" JStr (fc x) ++
        field "ff" JStr (ff x) ++ field "fs" json_of_num (fs x) ++
        field "bl" json_of_num (bl x) ++ field "it" json_of_num (it x) ++
        field "cl" json_of_num (cl x) ++ field "ul" json_of_num (ul x) ++
        field "ht" json_of_num (ht x) ++ field "vt" json_of_num (vt x)).

Definition json_of_CellData (x : CellData) : json :=
  JObj (field "v" json_of_jsval (v x) ++ field "f" JStr (f x) ++
        field "ct" json_of_CellType (ct x) ++
        field "s" json_of_CellStyle (s x) ++ field "m" JStr (m x)).

(** [JSON.stringify(undefined)] is [undefined], [JSON.stringify(null)] is
    the text [null]. *)
Definition JSON_stringify (x : slot) : option json :=
  match x with
  | Undefined => None
  | Null => Some JNull
  | Obj cell => Some (json_of_CellData cell)
  end.

Fixpoint json_eqb (a b : json) {struct a} : bool :=
  match a, b with
  | JNull, JNull => true
  | JBool x, JBool y => Bool.eqb x y
  | JNum x, JNum y => Z.eqb (Qnum x) (Qnum y) && Pos.eqb (Qden x) (Qden y)
  | JStr x, JStr y => String.eqb x y
  | JObj xs, JObj ys =>
      (fix fields_eqb (xs ys : list (string * json)) {struct xs} : bool :=
         match xs, ys with
         | [], [] => true
         | (k, x) :: xs', (k', y) :: ys' =>
             String.eqb k k' && json_eqb x y && fields_eqb xs' ys'
         | _, _ => false
         end) xs ys
  | _, _ => false
  end.

(** [JSON.stringify(a) !== JSON.stringify(b)] *)
Definition serialized_differ (a b : slot) : bool :=
  match JSON_stringify a, JSON_stringify b with
  | None, None => false
  | Some x, Some y => negb (json_eqb x y)
  | _, _ => true
  end.

(* --------------------------------------------------------------------- *)
(** ** SpreadsheetAnalyzer                                                *)
(* --------------------------------------------------------------------- *)

Module SpreadsheetAnalyzer.

Record CellChange : Type := mkChange {
  cell : string;
  oldValue : option jsval;
  newValue : option jsval;
  formula : option string
}.

Record Comparison : Type := mkComparison {
  changedCells : list CellChange;
  addedFormulas : list string;
  accuracy : Q;
  efficiency : Z
}.

(** The private [getCellReference] repeats the loop of
    [CellUtils.columnToLetter].  Its arguments are indices of arrays,
    which are below [2^32]: [row + 1] is exact and is printed in decimal
    digits. *)
Definition getCellReference (row col : nat) : string :=
  (CellUtils.columnToLetter_loop (Z.of_nat col) "" ++ nat_to_string (row + 1))%string.

(** [row?.length || 0] for the first row of a grid. *)
Definition firstRowLength (g : Grid) : nat :=
  match nth_error g 0 with
  | Some row => length row
  | None => O
  end.

(** The body of the inner loop of [compareSpreadsheets]: the two arrays it
    pushes to are the loop state. *)
Definition compareCell (initialSheet finalSheet : SpreadsheetSheet) (r c : nat)
           (st : list CellChange * list string) : list CellChange * list string :=
  let '(changedCells, addedFormulas) := st in
  let initialCell := cellAt (data initialSheet) r c in
  let finalCell := cellAt (data finalSheet) r c in
  if serialized_differ initialCell finalCell then
    let cellRef := getCellReference r c in
    let changedCells :=
      changedCells ++ [mkChange cellRef (slot_v initialCell) (slot_v finalCell)
                                (slot_f finalCell)] in
    match slot_f finalCell with
    | Some (String ch tl) => (changedCells, addedFormulas ++ [String ch tl])
    | _ => (changedCells, addedFormulas)
    end
  else st.

Definition compareSheet (initialSheet finalSheet : SpreadsheetSheet)
           (st : list CellChange * list string) : list CellChange * list string :=
  let maxRows := Nat.max (length (data initialSheet)) (length (data finalSheet)) in
  let maxCols := Nat.max (firstRowLength (data initialSheet))
                         (firstRowLength (data finalSheet)) in
  for_range maxRows (fun r st =>
    for_range maxCols (fun c st => compareCell initialSheet finalSheet r c st) st) st.

Definition compareSheets (initial final : SpreadsheetData)
  : list CellChange * list string :=
  for_range (Nat.max (length (sheets initial)) (length (sheets final)))
    (fun sheetIndex st =>
       match nth_error (sheets initial) sheetIndex,
             nth_error (sheets final) sheetIndex with
       | Some initialSheet, Some finalSheet => compareSheet initialSheet finalSheet st
       | _, _ => st
       end) ([], []).

(** The body of the inner loop of [calculateAccuracy]; the state is
    [(totalCells, correctCells)]. *)
Definition gradeCell (actualSheet : SpreadsheetSheet) (expectedRow : Row) (r c : nat)
           (st : nat * nat) : nat * nat :=
  let '(totalCells, correctCells) := st in
  match nth_error expectedRow c with
  | Some (Some expectedCell) =>
      match v expectedCell with
      | Some expected_v =>
          let totalCells := S totalCells in
          match cellAt (data actualSheet) r c with
          | Obj actualCell =>
              if strictEqualsOpt (v actualCell) (Some expected_v)
              then (totalCells, S correctCells)
              else (totalCells, correctCells)
          | _ => (totalCells, correctCells)
          end
      | None => st
      end
  | _ => st
  end.

Definition gradeSheet (actualSheet expectedSheet : SpreadsheetSheet)
           (st : nat * nat) : nat * nat :=
  for_range (length (data expectedSheet)) (fun r st =>
    match nth_error (data expectedSheet) r with
    | Some expectedRow =>
        for_range (length expectedRow)
                  (fun c st => gradeCell actualSheet expectedRow r c st) st
    | None => st
    end) st.

Definition countCells (actual expected : SpreadsheetData) : nat * nat :=
  for_range (length (sheets expected)) (fun sheetIndex st =>
    match nth_error (sheets expected) sheetIndex,
          nth_error (sheets actual) sheetIndex with
    | Some expectedSheet, Some actualSheet => gradeSheet actualSheet expectedSheet st
    | _, _ => st
    end) (O, O).

(** [totalCells > 0 ? (correctCells / totalCells) * 100 : 0]: the
    quotient is rounded to a double and so is the product.  The two
    counters count cells that are held in memory, far fewer than [2^53],
    so the increments are exact; the results lie between 0 and 100,
    within the range of the doubles. *)
Definition calculateAccuracy (actual expected : SpreadsheetData) : Q :=
  let '(totalCells, correctCells) := countCells actual expected in
  if (0 <? totalCells)%nat
  then Double.nearest
         (Double.nearest (inject_Z (Z.of_nat correctCells) /
                          inject_Z (Z.of_nat totalCells)) * 100)
  else 0%Q.

Definition efficientFunctions : list string :=
  ["SUMPRODUCT"; "INDEX"; "MATCH"; "VLOOKUP"]%string.

Definition calculateEfficiency (changedCells : list CellChange)
           (formulas : list string) : Z :=
  let baseScore := 100 in
  let penaltyPerExtraOperation := 2 in
  let bonusForOptimalFormulas := 10 in
  let score := baseScore in
  let n := Z.of_nat (length changedCells) in
  let score := if 10 <? n then score - (n - 10) * penaltyPerExtraOperation else score in
  let usedEfficientFunctions :=
    existsb (fun formula =>
               existsb (fun func => str_includes formula func) efficientFunctions)
            formulas in
  let score := if usedEfficientFunctions then score + bonusForOptimalFormulas else score in
  Z.max 0 (Z.min 100 score).

Definition compareSpreadsheets (initial final : SpreadsheetData)
           (expected : option SpreadsheetData) : Comparison :=
  let '(changedCells, addedFormulas) := compareSheets initial final in
  match expected with
  | Some expected =>
      mkComparison changedCells addedFormulas
                   (calculateAccuracy final expected)
                   (calculateEfficiency changedCells addedFormulas)
  | None => mkComparison changedCells addedFormulas 0%Q 0
  end.

End SpreadsheetAnalyzer.

(* --------------------------------------------------------------------- *)
(** ** ActionTracker                                                      *)
(* --------------------------------------------------------------------- *)

Inductive ActionType : Type :=
| cell_edit | formula_input | format_change
| insert_row | insert_column | delete_row | delete_column
| merge_cells | unmerge_cells | create_chart | modify_chart
| sort_data | filter_data | pivot_table
| copy | paste | cut | undo | redo.

Definition ActionType_eqb (a b : ActionType) : bool :=
  match a, b with
  | cell_edit, cell_edit | formula_input, formula_input
  | format_change, format_change | insert_row, insert_row
  | insert_column, insert_column | delete_row, delete_row
  | delete_column, delete_column | merge_cells, merge_cells
  | unmerge_cells, unmerge_cells | create_chart, create_chart
  | modify_chart, modify_chart | sort_data, sort_data
  | filter_data, filter_data | pivot_table, pivot_table
  | copy, copy | paste, paste | cut, cut | undo, undo | redo, redo => true
  | _, _ => false
  end.

Record UserAction : Type := mkAction {
  timestamp : Z;
  type : ActionType;
  cell_reference : option string;
  old_value : option jsval;
  new_value : option jsval;
  action_formula : option string;   (* the field [formula] *)
  range : option string;
  action_data : option jsval
}.

Module ActionTracker.

(** The tracker is its private array [actions]. *)
Definition tracker : Type := list UserAction.

Definition empty : tracker := [].

Definition addAction (this : tracker) (action : UserAction) : tracker :=
  this ++ [action].

Definition getActions (this : tracker) : list UserAction := this.

Definition getActionsByType (this : tracker) (ty : ActionType) : list UserAction :=
  filter (fun action => ActionType_eqb (type action) ty) this.

(** [action.type === 'formula_input' && action.formula]: the empty string
    is falsy. *)
Definition isFormulaAction (action : UserAction) : bool :=
  ActionType_eqb (type action) formula_input &&
  match action_formula action with
  | Some (String _ _) => true
  | _ => false
  end.

Definition formulaOf (action : UserAction) : string :=
  match action_formula action with
  | Some formula => formula
  | None => EmptyString
  end.

Definition getFormulasUsed (this : tracker) : list string :=
  let arr := map formulaOf (filter isFormulaAction this) in
  filter_indexed (fun formula index => Nat.eqb (indexOf arr formula) index) O arr.

Definition getFunctionsUsed (this : tracker) : list string :=
  let formulas := getFormulasUsed this in
  let functions :=
    fold_left (fun functions formula =>
                 functions ++ FormulaParser.functions (FormulaParser.parseFormula formula))
              formulas [] in
  Array_from_Set functions.

Definition getTimeSpent (this : tracker) : Z :=
  match this with
  | [] => 0
  | firstAction :: _ =>
      let lastAction := last this firstAction in
      timestamp lastAction - timestamp firstAction
  end.

Record EfficiencyMetrics : Type := mkMetrics {
  totalActions : nat;
  formulaActions : nat;
  editActions : nat;
  averageTimeBetweenActions : Q
}.

(** [averageTimeBetweenActions] is [getTimeSpent() / (length - 1)], a
    quotient of integers rounded to a double, or 0 for fewer than two
    actions. *)
Definition getEfficiencyMetrics (this : tracker) : EfficiencyMetrics :=
  let totalActions := length this in
  let formulaActions := length (getActionsByType this formula_input) in
  let editActions := length (getActionsByType this cell_edit) in
  let averageTimeBetweenActions :=
    if (1 <? length this)%nat then
      let totalTime := getTimeSpent this in
      Double.nearest (inject_Z totalTime / inject_Z (Z.of_nat (length this) - 1))
    else 0%Q in
  mkMetrics totalActions formulaActions editActions averageTimeBetweenActions.

Definition clear (this : tracker) : tracker := [].

(** The public interface as data: a call and what it returns. *)
Inductive call : Type :=
| AddAction (action : UserAction)
| GetActions
| GetActionsByType (ty : ActionType)
| GetFormulasUsed
| GetFunctionsUsed
| GetTimeSpent
| GetEfficiencyMetrics
| Clear.

Inductive result : Type :=
| RVoid
| RActions (actions : list UserAction)
| RStrings (strings : list string)
| RNumber (n : Z)
| RMetrics (metrics : EfficiencyMetrics).

Definition perform (this : tracker) (c : call) : tracker * result :=
  match c with
  | AddAction action => (addAction this action, RVoid)
  | GetActions => (this, RActions (getActions this))
  | GetActionsByType ty => (this, RActions (getActionsByType this ty))
  | GetFormulasUsed => (this, RStrings (getFormulasUsed this))
  | GetFunctionsUsed => (this, RStrings (getFunctionsUsed this))
  | GetTimeSpent => (this, RNumber (getTimeSpent this))
  | GetEfficiencyMetrics => (this, RMetrics (getEfficiencyMetrics this))
  | Clear => (clear this, RVoid)
  end.

Definition performAll (this : tracker) (calls : list call) : tracker :=
  fold_left (fun this c => fst (perform this c)) calls this.

(** The calls that assign to the private array. *)
Definition writes (c : call) : bool :=
  match c with
  | AddAction _ | Clear => true
  | _ => false
  end.

Definition isClear (c : call) : bool :=
  match c with
  | Clear => true
  | _ => false
  end.

End ActionTracker.

(* --------------------------------------------------------------------- *)
(** ** TaskEvaluator                                                      *)
(* --------------------------------------------------------------------- *)

Record ChartRequirement : Type := mkChart {
  chart_type : string;
  data_range : string;
  required : bool
}.

(** The two formula lists are read as [criteria.required_formulas || []]:
    the source allows them to be missing. *)
Record TaskEvaluationCriteria : Type := mkCriteria {
  formula_accuracy_weight : Q;
  efficiency_weight : Q;
  presentation_weight : Q;
  best_practices_weight : Q;
  required_formulas : option (list string);
  optional_formulas : option (list string);
  expected_charts : option (list ChartRequirement)
}.

Module TaskEvaluator.

Definition orEmpty (x : option (list string)) : list string :=
  match x with
  | Some l => l
  | None => []
  end.

Definition calculateBestPracticesScore (tracker : ActionTracker.tracker)
           (criteria : TaskEvaluationCriteria) : Z :=
  let score := 100 in
  let functions := ActionTracker.getFunctionsUsed tracker in
  let requiredFunctions := orEmpty (required_formulas criteria) in
  let missingRequired :=
    filter (fun func => negb (includes functions func)) requiredFunctions in
  let score := score - Z.of_nat (length missingRequired) * 20 in
  let optionalFunctions := orEmpty (optional_formulas criteria) in
  let usedOptional :=
    filter (fun func => includes functions func) optionalFunctions in
  let score := score + Z.of_nat (length usedOptional) * 10 in
  let metrics := ActionTracker.getEfficiencyMetrics tracker in
  let score :=
    if Qltb (ActionTracker.averageTimeBetweenActions metrics) 1000
    then score - 10 else score in
  Z.max 0 (Z.min 100 score).

End TaskEvaluator.

(* --------------------------------------------------------------------- *)
(** ** The interview state machine                                        *)
(* --------------------------------------------------------------------- *)

Inductive ExcelInterviewState : Type :=
| introduction
| conceptual_questions
| practical_tasks
| feedback_generation
| conclusion.

Definition state_eqb (a b : ExcelInterviewState) : bool :=
  match a, b with
  | introduction, introduction
  | conceptual_questions, conceptual_questions
  | practical_tasks, practical_tasks
  | feedback_generation, feedback_generation
  | conclusion, conclusion => true
  | _, _ => false
  end.

(** [trigger_key] is the key [trigger] that the spread of the transition
    data copies into [state_data] (see [updateStateData]). *)
Record StateData : Type := mkStateData {
  current_question_index : option Z;
  current_task_index : option Z;
  questions_completed : Z;
  tasks_completed : Z;
  total_questions : Z;
  total_tasks : Z;
  feedback_generated : option bool;
  trigger_key : option string
}.

(** The optional argument [data] of [transition_to]: an object that may
    carry a [trigger] and any of the keys of [StateData]. *)
Record TransitionData : Type := mkTransitionData {
  td_trigger : option string;
  td_current_question_index : option Z;
  td_current_task_index : option Z;
  td_questions_completed : option Z;
  td_tasks_completed : option Z;
  td_total_questions : option Z;
  td_total_tasks : option Z;
  td_feedback_generated : option bool
}.

Record StateTransition : Type := mkTransition {
  from_state : ExcelInterviewState;
  to_state : ExcelInterviewState;
  transition_timestamp : Z;
  trigger : string;
  transition_data : option TransitionData
}.

Record ConceptualProgress : Type := mkConceptual {
  questions_answered : Z;
  correct_answers : Z;
  total_score : Q;
  category_scores : list (string * Q);
  conceptual_time_spent : Q
}.

Record PracticalProgress : Type := mkPractical {
  practical_tasks_completed : Z;
  total_accuracy_score : Q;
  total_efficiency_score : Q;
  total_best_practices_score : Q;
  practical_time_spent : Q;
  functions_demonstrated : list string
}.

Record ExcelInterviewSession : Type := mkSession {
  id : Z;
  response_id : Z;
  current_state : ExcelInterviewState;
  state_data : StateData;
  conceptual_progress : ConceptualProgress;
  practical_progress : PracticalProgress;
  start_time : Z;
  end_time : option Z;
  total_duration : option Z;
  state_history : list StateTransition
}.

Module StateManager.

(** The clock as one call sees it: [now k] is what the clock shows the
    [k]-th time the call reads it (by [new Date()] or [Date.now()]),
    counting from 0.  Two readings of one call need not be equal. *)
Definition Clock : Type := nat -> Z.

(** The clock of a call once it has been read [n] times. *)
Definition later (n : nat) (now : Clock) : Clock := fun k => now (n + k)%nat.

(** A registered callback [() => Promise<void>] is a closure: it may reach
    the session through references it captured and it may throw.  It is a
    function from the session to the session it leaves and to whether it
    returned normally. *)
Definition callback : Type := ExcelInterviewSession -> ExcelInterviewSession * bool.

(** The manager object: the session it owns and the callback table. *)
Record manager : Type := mkManager {
  session : ExcelInterviewSession;
  stateTransitionCallbacks : ExcelInterviewState -> list callback
}.

Definition stateFlow : list ExcelInterviewState :=
  [introduction; conceptual_questions; practical_tasks; feedback_generation;
   conclusion].

Definition getValidTransitions (from : ExcelInterviewState)
  : list ExcelInterviewState :=
  match from with
  | introduction => [conceptual_questions]
  | conceptual_questions => [practical_tasks]
  | practical_tasks => [feedback_generation]
  | feedback_generation => [conclusion]
  | conclusion => []
  end.

Definition can_transition (this : manager) (to : ExcelInterviewState) : bool :=
  let currentState := current_state (session this) in
  let validTransitions := getValidTransitions currentState in
  existsb (state_eqb to) validTransitions.

(** Each callback is awaited inside its own [try/catch]: a failure is
    logged and the next callback runs. *)
Definition executeStateCallbacks (this : manager) (state : ExcelInterviewState)
           (s : ExcelInterviewSession) : ExcelInterviewSession :=
  fold_left (fun s (cb : callback) => fst (cb s))
            (stateTransitionCallbacks this state) s.

Definition set_state_data (s : ExcelInterviewSession) (sd : StateData)
  : ExcelInterviewSession :=
  mkSession (id s) (response_id s) (current_state s) sd
            (conceptual_progress s) (practical_progress s)
            (start_time s) (end_time s) (total_duration s) (state_history s).

Definition override {A : Type} (old : A) (new : option A) : A :=
  match new with
  | Some x => x
  | None => old
  end.

Definition override_opt {A : Type} (old new : option A) : option A :=
  match new with
  | Some x => Some x
  | None => old
  end.

(** [{ ...state_data, ...data }] *)
Definition spread (sd : StateData) (d : TransitionData) : StateData :=
  mkStateData
    (override_opt (current_question_index sd) (td_current_question_index d))
    (override_opt (current_task_index sd) (td_current_task_index d))
    (override (questions_completed sd) (td_questions_completed d))
    (override (tasks_completed sd) (td_tasks_completed d))
    (override (total_questions sd) (td_total_questions d))
    (override (total_tasks sd) (td_total_tasks d))
    (override_opt (feedback_generated sd) (td_feedback_generated d))
    (override_opt (trigger_key sd) (td_trigger d)).

(** Entering [conclusion] reads the clock twice: [new Date()] for
    [end_time], then [Date.now()] for [total_duration]. *)
Definition updateStateData (s : ExcelInterviewSession)
           (new_state : ExcelInterviewState) (d : option TransitionData) (now : Clock)
  : ExcelInterviewSession :=
  let sd := state_data s in
  let s :=
    match new_state with
    | conceptual_questions =>
        set_state_data s
          (mkStateData (Some 0) (current_task_index sd) 0 (tasks_completed sd)
                       (total_questions sd) (total_tasks sd)
                       (feedback_generated sd) (trigger_key sd))
    | practical_tasks =>
        set_state_data s
          (mkStateData (current_question_index sd) (Some 0)
                       (questions_completed sd) 0
                       (total_questions sd) (total_tasks sd)
                       (feedback_generated sd) (trigger_key sd))
    | conclusion =>
        mkSession (id s) (response_id s) (current_state s) (state_data s)
                  (conceptual_progress s) (practical_progress s)
                  (start_time s) (Some (now 0%nat))
                  (Some (now 1%nat - start_time s))
                  (state_history s)
    | _ => s
    end in
  match d with
  | Some d => set_state_data s (spread (state_data s) d)
  | None => s
  end.

(** [data?.trigger || 'automatic'] *)
Definition triggerOf (d : option TransitionData) : string :=
  match d with
  | Some d =>
      match td_trigger d with
      | Some (String c tl) => String c tl
      | _ => "automatic"%string
      end
  | None => "automatic"%string
  end.

(** [transition_to]: the value the promise resolves to and the manager
    after the call.  Nothing in the [try] block of the source throws (the
    callbacks are guarded one by one), so its [catch] branch is not
    reachable and has no counterpart here.  The first reading of the
    clock is the [new Date()] of the history entry; [updateStateData]
    reads the clock after it. *)
Definition transition_to (this : manager) (new_state : ExcelInterviewState)
           (d : option TransitionData) (now : Clock) : bool * manager :=
  let currentState := current_state (session this) in
  if negb (can_transition this new_state) then (false, this)
  else
    let s := executeStateCallbacks this currentState (session this) in
    let transition :=
      mkTransition currentState new_state (now 0%nat) (triggerOf d) d in
    let s :=
      mkSession (id s) (response_id s) new_state (state_data s)
                (conceptual_progress s) (practical_progress s)
                (start_time s) (end_time s) (total_duration s)
                (state_history s ++ [transition]) in
    let s := updateStateData s new_state d (later 1 now) in
    let s := executeStateCallbacks this new_state s in
    (true, mkManager s (stateTransitionCallbacks this)).

Definition isIntroductionComplete (s : ExcelInterviewSession) (now : Z) : bool :=
  let minIntroTime := 30 * 1000 in
  let elapsedTime := now - start_time s in
  minIntroTime <=? elapsedTime.

Definition isConceptualQuestionsComplete (s : ExcelInterviewSession) : bool :=
  let completed := questions_completed (state_data s) in
  let total := total_questions (state_data s) in
  (total <=? completed) && (0 <? total).

Definition isPracticalTasksComplete (s : ExcelInterviewSession) : bool :=
  let completed := tasks_completed (state_data s) in
  let total := total_tasks (state_data s) in
  (total <=? completed) && (0 <? total).

Definition isFeedbackGenerationComplete (s : ExcelInterviewSession) : bool :=
  match feedback_generated (state_data s) with
  | Some true => true
  | _ => false
  end.

Definition isCurrentStateComplete (this : manager) (now : Z) : bool :=
  match current_state (session this) with
  | introduction => isIntroductionComplete (session this) now
  | conceptual_questions => isConceptualQuestionsComplete (session this)
  | practical_tasks => isPracticalTasksComplete (session this)
  | feedback_generation => isFeedbackGenerationComplete (session this)
  | conclusion => true
  end.

(** [stateFlow.indexOf(current_state)] *)
Definition stateIndex (st : ExcelInterviewState) : nat :=
  match st with
  | introduction => 0
  | conceptual_questions => 1
  | practical_tasks => 2
  | feedback_generation => 3
  | conclusion => 4
  end.

Definition getNextState (this : manager) : option ExcelInterviewState :=
  let currentIndex := stateIndex (current_state (session this)) in
  if (currentIndex <? length stateFlow - 1)%nat
  then nth_error stateFlow (currentIndex + 1)
  else None.

Definition auto_progress_data : TransitionData :=
  mkTransitionData (Some "auto_progress"%string) None None None None None None None.

(** How often [isCurrentStateComplete] reads the clock: once in
    [introduction] ([isIntroductionComplete]), not at all otherwise. *)
Definition completionReads (this : manager) : nat :=
  match current_state (session this) with
  | introduction => 1
  | _ => 0
  end.

Definition autoProgress (this : manager) (now : Clock) : bool * manager :=
  if negb (isCurrentStateComplete this (now 0%nat)) then (false, this)
  else
    match getNextState this with
    | None => (false, this)
    | Some nextState =>
        transition_to this nextState (Some auto_progress_data)
                      (later (completionReads this) now)
    end.

(** [createExcelInterviewStateManager(responseId, totalQuestions = 5,
    totalTasks = 3)], called at time [now]. *)
Definition createExcelInterviewStateManager (responseId : Z)
           (totalQuestions totalTasks : option Z) (now : Z) : manager :=
  let session :=
    mkSession 0 responseId introduction
      (mkStateData (Some 0) (Some 0) 0 0
                   (override 5 totalQuestions) (override 3 totalTasks) None None)
      (mkConceptual 0 0 0%Q [] 0%Q)
      (mkPractical 0 0%Q 0%Q 0%Q 0%Q [])
      now None None [] in
  mkManager session (fun _ => []).

(** The calls that move a session: [transition_to] and [autoProgress],
    each with the clock as the call sees it. *)
Inductive call : Type :=
| TransitionTo (new_state : ExcelInterviewState) (d : option TransitionData)
               (now : Clock)
| AutoProgress (now : Clock).

Definition perform (this : manager) (c : call) : bool * manager :=
  match c with
  | TransitionTo new_state d now => transition_to this new_state d now
  | AutoProgress now => autoProgress this now
  end.

Definition performAll (this : manager) (calls : list call) : manager :=
  fold_left (fun this c => snd (perform this c)) calls this.

End StateManager.

(* --------------------------------------------------------------------- *)
(** ** Skill levels and the recommendation                                *)
(* --------------------------------------------------------------------- *)

Inductive ExcelSkillLevel : Type :=
| basic
| intermediate
| advanced.

Definition level_eqb (a b : ExcelSkillLevel) : bool :=
  match a, b with
  | basic, basic | intermediate, intermediate | advanced, advanced => true
  | _, _ => false
  end.

Record EvaluationCriteria : Type := mkEvaluationCriteria {
  ec_formula_accuracy : Q;
  ec_efficiency : Q;
  ec_best_practices : Q
}.

Record TimeAllocation : Type := mkTimeAllocation {
  ta_conceptual : Q;
  ta_practical : Q;
  ta_total : Q
}.

(** A row of the table [excel_skill_config] after [mapDatabaseToConfig]
    (the two dates are left out). *)
Record ExcelSkillConfig : Type := mkConfig {
  config_id : Z;
  skill_level : ExcelSkillLevel;
  conceptual_topics : list string;
  practical_skills : list string;
  evaluation_criteria : EvaluationCriteria;
  function_requirements : list string;
  complexity_level : Q;
  time_allocation : TimeAllocation
}.

Module ExcelSkillLevelUtils.

Definition getAllLevels : list ExcelSkillLevel := [basic; intermediate; advanced].

(** [getAllLevels().indexOf(level)] *)
Definition levelIndex (level : ExcelSkillLevel) : nat :=
  match level with
  | basic => 0
  | intermediate => 1
  | advanced => 2
  end.

Definition getNextLevel (currentLevel : ExcelSkillLevel) : option ExcelSkillLevel :=
  let currentIndex := levelIndex currentLevel in
  if (currentIndex <? length getAllLevels - 1)%nat
  then nth_error getAllLevels (currentIndex + 1)
  else None.

Definition getPreviousLevel (currentLevel : ExcelSkillLevel) : option ExcelSkillLevel :=
  let currentIndex := levelIndex currentLevel in
  if (0 <? currentIndex)%nat
  then nth_error getAllLevels (currentIndex - 1)
  else None.

End ExcelSkillLevelUtils.

Module ExcelSkillConfigService.

Definition advancedFunctionNames : list string :=
  ["VLOOKUP"; "INDEX"; "MATCH"; "INDIRECT"; "OFFSET"; "SUMPRODUCT"]%string.

(** [getRecommendedLevel] after [getAllConfigs] has answered with
    [configs] (the empty list when the query failed: [getAllConfigs]
    catches its own errors).  Nothing else in the [try] block can throw.
    Each [option] below is an [if] block of the source: [Some] is its
    [return], [None] falls through to the next statement. *)
Definition getRecommendedLevel (configs : list ExcelSkillConfig)
           (currentLevel : ExcelSkillLevel) (performanceScore : Q)
           (functionsUsed : list string) : ExcelSkillLevel :=
  match find (fun c => level_eqb (skill_level c) currentLevel) configs with
  | None => currentLevel
  | Some currentConfig =>
      let excellent : option ExcelSkillLevel :=
        if Qltb 85 performanceScore then
          let advancedFunctions :=
            filter (fun func => includes advancedFunctionNames func) functionsUsed in
          if level_eqb currentLevel basic && (0 <? length advancedFunctions)%nat
          then Some intermediate
          else if level_eqb currentLevel intermediate &&
                  (2 <? length advancedFunctions)%nat
          then Some advanced
          else None
        else None in
      match excellent with
      | Some level => level
      | None =>
          let poor : option ExcelSkillLevel :=
            if Qltb performanceScore 60 then
              if level_eqb currentLevel advanced then Some intermediate
              else if level_eqb currentLevel intermediate then Some basic
              else None
            else None in
          match poor with
          | Some level => level
          | None => currentLevel
          end
      end
  end.

End ExcelSkillConfigService.

Module ExcelAnalyticsService.

Definition getReadinessThreshold (skillLevel : ExcelSkillLevel) : Q :=
  match skillLevel with
  | basic => 75
  | intermediate => 80
  | advanced => 85
  end.

(** The two lines of [analyzeSkillProgression] that use the table. *)
Definition readinessForNextLevel (currentSkillLevel : ExcelSkillLevel)
           (progressionScore : Q) : bool :=
  let readinessThreshold := getReadinessThreshold currentSkillLevel in
  Qle_bool readinessThreshold progressionScore.

End ExcelAnalyticsService.


(* --------------------------------------------------------------------- *)
(** ** The analytics report ([types/excel.ts])                            *)
(* --------------------------------------------------------------------- *)

Import Number.

Record SpreadsheetResult : Type := mkResult {
  result_id : Z;
  result_response_id : Z;
  task_id : string;
  task_name : string;
  initial_state : SpreadsheetData;
  final_state : SpreadsheetData;
  user_actions : list UserAction;
  formulas_used : list string;
  functions_used : list string;
  completion_time : Q;
  accuracy_score : Q;
  efficiency_score : Q;
  best_practices_score : Q;
  task_feedback : string;
  expected_solution : SpreadsheetData
}.

Record SkillLevelAssessment : Type := mkAssessment {
  current_level : ExcelSkillLevel;
  recommended_level : ExcelSkillLevel;
  readiness_score : number;
  confidence_interval : number
}.

Record CategoryScore : Type := mkCategoryScore {
  cs_score : number;
  cs_max_score : number;
  cs_percentage : number;
  cs_feedback : string
}.

Record ConceptualAnalysis : Type := mkConceptualAnalysis {
  ca_total_score : number;
  category_breakdown : list (string * CategoryScore);
  knowledge_gaps : list string;
  ca_strengths : list string
}.

Record TaskBreakdown : Type := mkTaskBreakdown {
  tb_task_id : string;
  tb_task_name : string;
  tb_accuracy_score : number;
  tb_efficiency_score : number;
  tb_best_practices_score : number;
  tb_completion_time : number;
  tb_feedback : string
}.

Record FormulaProficiency : Type := mkFormulaProficiency {
  fp_functions_used : list string;
  functions_mastered : list string;
  functions_struggled : list string;
  complexity_level_achieved : number;
  formula_accuracy_rate : number
}.

Record EfficiencyMetrics : Type := mkEfficiencyMetrics {
  average_task_completion_time : number;
  optimal_solution_rate : number;
  unnecessary_steps_count : number;
  keyboard_shortcuts_used : number
}.

Record BestPracticesAdherence : Type := mkAdherence {
  bp_score : number;
  practices_followed : list string;
  practices_violated : list string;
  bp_recommendations : list string
}.

Record PracticalAnalysis : Type := mkPracticalAnalysis {
  pa_total_score : number;
  task_breakdown : list TaskBreakdown;
  formula_proficiency : FormulaProficiency;
  efficiency_metrics : EfficiencyMetrics;
  best_practices_adherence : BestPracticesAdherence
}.

Record SkillScore : Type := mkSkillScore {
  sk_score : number;
  sk_feedback : string;
  sk_examples : list string;
  improvement_areas : list string
}.

Record ExcelSkillBreakdown : Type := mkBreakdown {
  sb_formula_accuracy : SkillScore;
  sb_data_analysis : SkillScore;
  sb_efficiency : SkillScore;
  sb_best_practices : SkillScore;
  sb_presentation : SkillScore;
  sb_problem_solving : SkillScore
}.

Inductive Priority : Type := high | medium | low.

Record Resource : Type := mkResource {
  resource_type : string;
  resource_title : string;
  resource_description : string
}.

Record ImprovementPlan : Type := mkPlan {
  priority : Priority;
  skill : string;
  plan_current_level : number;
  target_level : number;
  recommendation : string;
  resources : list Resource;
  estimated_time : string
}.

Record CompetencyLevel : Type := mkCompetency {
  competency_level : string;
  competency_score : number;
  evidence : list string
}.

Record CompetencyMatrix : Type := mkMatrix {
  cm_basic_functions : CompetencyLevel;
  cm_intermediate_functions : CompetencyLevel;
  cm_advanced_functions : CompetencyLevel;
  cm_data_analysis : CompetencyLevel;
  cm_visualization : CompetencyLevel;
  cm_automation : CompetencyLevel
}.

Record ExcelAnalytics : Type := mkAnalytics {
  overall_score : number;
  overall_feedback : string;
  skill_level_assessment : SkillLevelAssessment;
  conceptual_analysis : ConceptualAnalysis;
  practical_analysis : PracticalAnalysis;
  excel_skill_breakdown : ExcelSkillBreakdown;
  improvement_plan : list ImprovementPlan;
  competency_matrix : CompetencyMatrix
}.

(* --------------------------------------------------------------------- *)
(** ** ExcelEvaluationService.generateExcelAnalytics                      *)
(* --------------------------------------------------------------------- *)

Module ExcelEvaluationService.

(** *** The world outside of the function

    The five arguments are objects of the caller, received by reference:
    [caller] is the store that holds them.  The function talks to two
    external services: the skill-configuration table (one query per call
    of [getRecommendedLevel]) and the chat-completion endpoint (one
    request per call of [generateOverallFeedback]).  Their successive
    answers are part of the world; an answer is consumed when the call is
    made. *)

Record Inputs : Type := mkInputs {
  skillLevel : ExcelSkillLevel;
  conceptualProgress : ConceptualProgress;
  practicalProgress : PracticalProgress;
  spreadsheetResults : list SpreadsheetResult;
  totalDuration : Q
}.

(** What [openai.chat.completions.create] does: it throws, or it returns
    a completion whose [choices[0]?.message?.content] may be missing. *)
Inductive Completion : Type :=
| ApiError
| Content (text : option string).

Record World : Type := mkWorld {
  caller : Inputs;
  config_answers : list (list ExcelSkillConfig);
  completions : list Completion
}.

Definition IO (A : Type) : Type := World -> A * World.

Definition ret {A : Type} (x : A) : IO A := fun w => (x, w).

Definition bind {A B : Type} (c : IO A) (k : A -> IO B) : IO B :=
  fun w => let '(x, w') := c w in k x w'.

Notation "x <- c ;; k" := (bind c (fun x => k))
  (at level 61, c at next level, right associativity).

(** Reading the arguments of the call. *)
Definition inputs : IO Inputs := fun w => (caller w, w).

(** [ExcelSkillConfigService.getAllConfigs()]: the rows, or the empty
    list when the query fails. *)
Definition getAllConfigs : IO (list ExcelSkillConfig) :=
  fun w =>
    match config_answers w with
    | [] => ([], w)
    | answer :: later => (answer, mkWorld (caller w) later (completions w))
    end.

(** [this.openai.chat.completions.create(...)].  The prompt is not an
    argument: the answer is whatever the world holds next. *)
Definition chat_completions_create : IO Completion :=
  fun w =>
    match completions w with
    | [] => (ApiError, w)
    | answer :: later => (answer, mkWorld (caller w) (config_answers w) later)
    end.

(** *** String helpers *)

Definition levelName (level : ExcelSkillLevel) : string :=
  match level with
  | basic => "basic"
  | intermediate => "intermediate"
  | advanced => "advanced"
  end.

(** The text of an integer in a template literal (plain digits, as
    JavaScript prints integers of magnitude below 10^21). *)
Definition Z_to_string (z : Z) : string :=
  NilZero.string_of_int (Z.to_int z).

(** [s.replace('_', ' ')]: the first occurrence only. *)
Fixpoint replaceFirst (from to : ascii) (s : string) : string :=
  match s with
  | EmptyString => EmptyString
  | String c tl =>
      if Ascii.eqb c from then String to tl else String c (replaceFirst from to tl)
  end.

Fixpoint rev_string (s acc : string) : string :=
  match s with
  | EmptyString => acc
  | String c tl => rev_string tl (String c acc)
  end.

(** [s.trim()] *)
Definition trim (s : string) : string :=
  let s := FormulaParser.dropWhile FormulaParser.isSpace s in
  let r := FormulaParser.dropWhile FormulaParser.isSpace (rev_string s "") in
  rev_string r "".

(** *** Plain objects used as dictionaries

    A key that [Object.prototype] already defines reads as a truthy value
    on an empty object literal. *)
Definition prototypeKeys : list string :=
  ["constructor"; "hasOwnProperty"; "isPrototypeOf"; "propertyIsEnumerable";
   "toLocaleString"; "toString"; "valueOf"; "__proto__";
   "__defineGetter__"; "__defineSetter__"; "__lookupGetter__";
   "__lookupSetter__"]%string.

Fixpoint lookup {A : Type} (dict : list (string * A)) (key : string) : option A :=
  match dict with
  | [] => None
  | (k, x) :: tl => if String.eqb k key then Some x else lookup tl key
  end.

(** *** Helper methods *)

Definition evaluationComplexityMap : list (string * Q) :=
  [ ("SUM", 1); ("AVERAGE", 1); ("COUNT", 1);
    ("IF", 2); ("VLOOKUP", 2); ("SUMIF", 2);
    ("INDEX", 3); ("MATCH", 3); ("INDIRECT", 4) ]%string%Q.

(** [complexityMap[func] || 1]; an inherited key yields a function or an
    object, which [Math.max] converts to [NaN]. *)
Definition complexityOf (func : string) : number :=
  match lookup evaluationComplexityMap func with
  | Some w => Num w
  | None => if includes prototypeKeys func then NaN else Num 1
  end.

Definition calculateComplexityLevel (functionsUsed : list string) : number :=
  maxAll (map complexityOf functionsUsed).

Definition calculateFormulaAccuracyRate (results : list SpreadsheetResult) : number :=
  match results with
  | [] => Num 0
  | _ => average (map accuracy_score results)
  end.

Definition calculateOptimalSolutionRate (results : list SpreadsheetResult) : number :=
  match results with
  | [] => Num 0
  | _ => average (map efficiency_score results)
  end.

Definition countUnnecessarySteps (results : list SpreadsheetResult) : number := Num 0.

Section WithSquareRoot.

(** [Math.sqrt] on the non-negative finite numbers. *)
Variable sqrtQ : Q -> Q.

Definition sqrt (a : number) : number :=
  match a with
  | Num x => if isNeg x then NaN else Num (sqrtQ x)
  | NaN => NaN
  | Infinity => Infinity
  | NegInfinity => NaN
  end.

Definition calculateConfidenceInterval (score : Q) (sampleSize : nat) : number :=
  let margin :=
    mul (sqrt (div (Num (score * (100 - score))) (ofNat sampleSize)))
        (Num (196 # 100)) in
  min margin (Num 20).

Definition identifyKnowledgeGaps (progress : ConceptualProgress) : list string :=
  map fst (filter (fun entry => Qltb (snd entry) 60) (category_scores progress)).

Definition identifyStrengths (progress : ConceptualProgress) : list string :=
  map fst (filter (fun entry => Qle_bool 80 (snd entry)) (category_scores progress)).

(** [functionScores[func].push(score)] after
    [if (!functionScores[func]) functionScores[func] = []]. *)
Fixpoint pushScore (dict : list (string * list Q)) (func : string) (score : Q)
  : list (string * list Q) :=
  match dict with
  | [] => [(func, [score])]
  | (k, scores) :: tl =>
      if String.eqb k func then (k, scores ++ [score]) :: tl
      else (k, scores) :: pushScore tl func score
  end.

(** The two nested [forEach] loops that fill [functionScores].  [None] is
    the [TypeError] raised when a function name is an inherited key: the
    value found there has no [push]. *)
Definition collectFunctionScores (results : list SpreadsheetResult)
  : option (list (string * list Q)) :=
  fold_left
    (fun dict result =>
       fold_left
         (fun dict func =>
            match dict with
            | None => None
            | Some d =>
                if includes prototypeKeys func then None
                else Some (pushScore d func (accuracy_score result))
            end)
         (functions_used result) dict)
    results (Some []).

Definition identifyMasteredFunctions (results : list SpreadsheetResult)
  : option (list string) :=
  match collectFunctionScores results with
  | None => None
  | Some functionScores =>
      Some (map fst (filter (fun entry => ge (average (snd entry)) (Num 80))
                            functionScores))
  end.

Definition identifyStruggledFunctions (results : list SpreadsheetResult)
  : option (list string) :=
  match collectFunctionScores results with
  | None => None
  | Some functionScores =>
      Some (map fst (filter (fun entry => lt (average (snd entry)) (Num 60))
                            functionScores))
  end.

Definition identifyFollowedPractices (results : list SpreadsheetResult) : list string :=
  ["Proper cell referencing"; "Clear formula structure"]%string.

Definition identifyViolatedPractices (results : list SpreadsheetResult) : list string :=
  [].

Definition generateBestPracticeRecommendations (results : list SpreadsheetResult)
  : list string :=
  ["Use absolute references when appropriate";
   "Add comments to complex formulas"]%string.

Definition generateCompetencyMatrix (skillLevel : ExcelSkillLevel)
           (functionsUsed : list string) (results : list SpreadsheetResult)
  : CompetencyMatrix :=
  mkMatrix (mkCompetency "intermediate" (Num 75) [])
           (mkCompetency "beginner" (Num 60) [])
           (mkCompetency "novice" (Num 40) [])
           (mkCompetency "intermediate" (Num 70) [])
           (mkCompetency "beginner" (Num 50) [])
           (mkCompetency "novice" (Num 30) []).

(** The entries of [converted], in the order of [Object.entries].  An
    entry under the key [__proto__] is not kept: the assignment
    [converted[category] = ...] sets the prototype of [converted] there
    and adds no property. *)
Definition convertCategoryScores (categoryScores : list (string * Q))
  : list (string * CategoryScore) :=
  map (fun entry =>
         let '(category, score) := entry in
         (category,
          mkCategoryScore (Num score) (Num 100) (Num score)
            (if Qle_bool 80 score then ("Excellent " ++ category ++ " skills")%string
             else if Qle_bool 60 score then ("Good " ++ category ++ " skills")%string
             else ("Needs improvement in " ++ category)%string)))
      (filter (fun entry => negb (String.eqb (fst entry) "__proto__")) categoryScores).

(** [categoryScores['Data Analysis'] || 0] *)
Definition dataAnalysisScore (categoryScores : list (string * Q)) : number :=
  match lookup categoryScores "Data Analysis" with
  | Some score => Num score
  | None => Num 0
  end.

Definition analyzeSkillBreakdown (spreadsheetResults : list SpreadsheetResult)
           (functionsUsed : list string) (categoryScores : list (string * Q))
  : ExcelSkillBreakdown :=
  let avgAccuracy := average (map accuracy_score spreadsheetResults) in
  let avgEfficiency := average (map efficiency_score spreadsheetResults) in
  let avgBestPractices := average (map best_practices_score spreadsheetResults) in
  mkBreakdown
    (mkSkillScore avgAccuracy
       (if ge avgAccuracy (Num 80) then "Excellent formula accuracy"
        else "Room for improvement in formula accuracy")
       []
       (if lt avgAccuracy (Num 80) then ["Formula construction"; "Function usage"]%string
        else []))
    (mkSkillScore (dataAnalysisScore categoryScores)
       "Data analysis skills assessment" [] [])
    (mkSkillScore avgEfficiency
       (if ge avgEfficiency (Num 80) then "Efficient problem-solving approach"
        else "Could improve efficiency")
       []
       (if lt avgEfficiency (Num 80)
        then ["Solution optimization"; "Function selection"]%string else []))
    (mkSkillScore avgBestPractices
       (if ge avgBestPractices (Num 80) then "Good adherence to best practices"
        else "Need to improve best practices")
       []
       (if lt avgBestPractices (Num 80)
        then ["Formatting"; "Documentation"; "Structure"]%string else []))
    (mkSkillScore (Num 75) "Presentation skills assessment" [] [])
    (mkSkillScore (div (add avgAccuracy avgEfficiency) (Num 2))
       "Problem-solving approach evaluation" [] []).

(** [Object.entries(skillBreakdown)] *)
Definition breakdownEntries (b : ExcelSkillBreakdown) : list (string * SkillScore) :=
  [ ("formula_accuracy", sb_formula_accuracy b);
    ("data_analysis", sb_data_analysis b);
    ("efficiency", sb_efficiency b);
    ("best_practices", sb_best_practices b);
    ("presentation", sb_presentation b);
    ("problem_solving", sb_problem_solving b) ]%string.

Definition generateImprovementPlan (skillLevel : ExcelSkillLevel)
           (skillBreakdown : ExcelSkillBreakdown)
           (conceptualProgress : ConceptualProgress)
           (practicalProgress : PracticalProgress) : list ImprovementPlan :=
  fold_left
    (fun plan entry =>
       let '(skill, breakdown) := entry in
       if lt (sk_score breakdown) (Num 70) then
         let spaced := replaceFirst "_" " " skill in
         plan ++
         [mkPlan (if lt (sk_score breakdown) (Num 50) then high else medium)
                 spaced
                 (sk_score breakdown)
                 (Num 80)
                 ("Focus on improving " ++ spaced ++ " through targeted practice")
                 [mkResource "tutorial" (spaced ++ " Tutorial")
                    ("Comprehensive guide to improve " ++ spaced ++ " skills")]
                 "2-3 weeks"]%string
       else plan)
    (breakdownEntries skillBreakdown) [].

(** *** The methods that reach the outside *)

Definition getRecommendedLevel (currentLevel : ExcelSkillLevel)
           (performanceScore : Q) (functionsUsed : list string)
  : IO ExcelSkillLevel :=
  configs <- getAllConfigs ;;
  ret (ExcelSkillConfigService.getRecommendedLevel
         configs currentLevel performanceScore functionsUsed).

Definition assessSkillLevel (currentLevel : ExcelSkillLevel) (overallScore : Q)
           (functionsUsed : list string) (spreadsheetResults : list SpreadsheetResult)
  : IO SkillLevelAssessment :=
  recommendedLevel <- getRecommendedLevel currentLevel overallScore functionsUsed ;;
  ret (mkAssessment currentLevel recommendedLevel (Num overallScore)
         (calculateConfidenceInterval overallScore (length spreadsheetResults))).

Definition generateOverallFeedback (skillLevel : ExcelSkillLevel) (overallScore : Q)
           (conceptualProgress : ConceptualProgress)
           (practicalProgress : PracticalProgress) (totalDuration : Q)
  : IO string :=
  completion <- chat_completions_create ;;
  ret (match completion with
       | Content (Some text) =>
           match trim text with
           | EmptyString => "Overall performance evaluation completed."
           | trimmed => trimmed
           end
       | Content None => "Overall performance evaluation completed."
       | ApiError =>
           "You demonstrated " ++ levelName skillLevel ++
           " level Excel skills with an overall score of " ++
           Z_to_string (roundQ overallScore) ++
           "%. Continue practicing to improve your proficiency."
       end)%string.

Definition generateBasicAnalytics (skillLevel : ExcelSkillLevel)
           (conceptualProgress : ConceptualProgress)
           (practicalProgress : PracticalProgress)
           (spreadsheetResults : list SpreadsheetResult) : ExcelAnalytics :=
  let overallScore :=
    ((total_score conceptualProgress + total_accuracy_score practicalProgress) / 2)%Q in
  let empty := @nil string in
  mkAnalytics
    (Num (inject_Z (roundQ overallScore)))
    ("You demonstrated " ++ levelName skillLevel ++
     " level Excel skills with an overall score of " ++
     Z_to_string (roundQ overallScore) ++ "%.")%string
    (mkAssessment skillLevel skillLevel (Num overallScore) (Num 15))
    (mkConceptualAnalysis (Num (total_score conceptualProgress))
       (convertCategoryScores (category_scores conceptualProgress)) [] [])
    (mkPracticalAnalysis (Num (total_accuracy_score practicalProgress)) []
       (mkFormulaProficiency (functions_demonstrated practicalProgress) [] []
          (Num 1) (Num (total_accuracy_score practicalProgress)))
       (mkEfficiencyMetrics
          (div (Num (practical_time_spent practicalProgress))
               (max (Num (inject_Z (practical_tasks_completed practicalProgress)))
                    (Num 1)))
          (Num (total_efficiency_score practicalProgress)) (Num 0) (Num 0))
       (mkAdherence (Num (total_best_practices_score practicalProgress)) [] [] []))
    (mkBreakdown
       (mkSkillScore (Num (total_accuracy_score practicalProgress)) "" empty empty)
       (mkSkillScore (Num 70) "" empty empty)
       (mkSkillScore (Num (total_efficiency_score practicalProgress)) "" empty empty)
       (mkSkillScore (Num (total_best_practices_score practicalProgress)) "" empty empty)
       (mkSkillScore (Num 70) "" empty empty)
       (mkSkillScore (Num overallScore) "" empty empty))
    []
    (mkMatrix (mkCompetency "intermediate" (Num 70) [])
              (mkCompetency "beginner" (Num 50) [])
              (mkCompetency "novice" (Num 30) [])
              (mkCompetency "intermediate" (Num 60) [])
              (mkCompetency "beginner" (Num 40) [])
              (mkCompetency "novice" (Num 20) [])).

Definition taskBreakdownOf (result : SpreadsheetResult) : TaskBreakdown :=
  mkTaskBreakdown (task_id result) (task_name result)
    (Num (accuracy_score result)) (Num (efficiency_score result))
    (Num (best_practices_score result)) (Num (completion_time result))
    (task_feedback result).

(** [generateExcelAnalytics]: the [try] block in source order; the only
    statement of it that can throw is [identifyMasteredFunctions] (and
    [identifyStruggledFunctions] after it, for the same reason), which
    sends the call to the [catch] branch after the two services were
    consulted. *)
Definition generateExcelAnalytics : IO ExcelAnalytics :=
  args <- inputs ;;
  let skillLevel := skillLevel args in
  let conceptualProgress := conceptualProgress args in
  let practicalProgress := practicalProgress args in
  let spreadsheetResults := spreadsheetResults args in
  let totalDuration := totalDuration args in
  let conceptualScore := total_score conceptualProgress in
  let practicalScore :=
    ((total_accuracy_score practicalProgress +
      total_efficiency_score practicalProgress +
      total_best_practices_score practicalProgress) / 3)%Q in
  let overallScore := ((conceptualScore + practicalScore) / 2)%Q in
  let skillBreakdown :=
    analyzeSkillBreakdown spreadsheetResults
      (functions_demonstrated practicalProgress)
      (category_scores conceptualProgress) in
  skillLevelAssessment <-
    assessSkillLevel skillLevel overallScore
      (functions_demonstrated practicalProgress) spreadsheetResults ;;
  let improvementPlan :=
    generateImprovementPlan skillLevel skillBreakdown conceptualProgress
      practicalProgress in
  overallFeedback <-
    generateOverallFeedback skillLevel overallScore conceptualProgress
      practicalProgress totalDuration ;;
  ret
    match identifyMasteredFunctions spreadsheetResults,
          identifyStruggledFunctions spreadsheetResults with
    | Some mastered, Some struggled =>
        mkAnalytics
          (Num (inject_Z (roundQ overallScore)))
          overallFeedback
          skillLevelAssessment
          (mkConceptualAnalysis (Num conceptualScore)
             (convertCategoryScores (category_scores conceptualProgress))
             (identifyKnowledgeGaps conceptualProgress)
             (identifyStrengths conceptualProgress))
          (mkPracticalAnalysis (Num practicalScore)
             (map taskBreakdownOf spreadsheetResults)
             (mkFormulaProficiency
                (functions_demonstrated practicalProgress)
                mastered struggled
                (calculateComplexityLevel (functions_demonstrated practicalProgress))
                (calculateFormulaAccuracyRate spreadsheetResults))
             (mkEfficiencyMetrics
                (div (Num (practical_time_spent practicalProgress))
                     (Num (inject_Z (practical_tasks_completed practicalProgress))))
                (calculateOptimalSolutionRate spreadsheetResults)
                (countUnnecessarySteps spreadsheetResults)
                (Num 0))
             (mkAdherence
                (Num (total_best_practices_score practicalProgress))
                (identifyFollowedPractices spreadsheetResults)
                (identifyViolatedPractices spreadsheetResults)
                (generateBestPracticeRecommendations spreadsheetResults)))
          skillBreakdown
          improvementPlan
          (generateCompetencyMatrix skillLevel
             (functions_demonstrated practicalProgress) spreadsheetResults)
    | _, _ =>
        generateBasicAnalytics skillLevel conceptualProgress practicalProgress
          spreadsheetResults
    end.

(** Two calls in a row, as a caller that compares the two reports makes
    them. *)
Definition twice : IO (ExcelAnalytics * ExcelAnalytics) :=
  first <- generateExcelAnalytics ;;
  second <- generateExcelAnalytics ;;
  ret (first, second).

End WithSquareRoot.

End ExcelEvaluationService.

(* --------------------------------------------------------------------- *)
(** ** Notions of the specification                                       *)
(* --------------------------------------------------------------------- *)

(** The definitions of this section follow the wording of the
    specification; the properties of Part II compare them with the
    program. *)
Module Spec.

(** *** Balanced parentheses *)

(** What a character adds to the count of open parentheses. *)
Definition delta (c : ascii) : Z :=
  (if Ascii.eqb c "(" then 1 else 0) - (if Ascii.eqb c ")" then 1 else 0).

(** Opening minus closing parentheses of a text. *)
Fixpoint depth (s : string) : Z :=
  match s with
  | EmptyString => 0
  | String c tl => delta c + depth tl
  end.

(** The first [n] characters of a text. *)
Fixpoint prefix (n : nat) (s : string) : string :=
  match n, s with
  | S k, String c tl => String c (prefix k tl)
  | _, _ => EmptyString
  end.

(** "Never goes negative, ends at zero." *)
Definition balanced (s : string) : Prop :=
  (forall n, 0 <= depth (prefix n s)) /\ depth s = 0.

(** *** Accuracy of the grid differ *)

(** A cell position: sheet index, row, column. *)
Definition position : Type := (nat * nat * nat)%type.

(** The value of the cell at a position of a snapshot; it is undefined
    when the snapshot has no cell there. *)
Definition valueAt (d : SpreadsheetData) (p : position) : option jsval :=
  let '(i, r, c) := p in
  match nth_error (sheets d) i with
  | Some sheet => slot_v (cellAt (data sheet) r c)
  | None => None
  end.

Definition sheetPositions (i : nat) (sheet : SpreadsheetSheet) : list position :=
  flat_map (fun r =>
              match nth_error (data sheet) r with
              | Some row => map (fun c => (i, r, c)) (seq 0 (length row))
              | None => []
              end)
           (seq 0 (length (data sheet))).

(** Every cell position of a snapshot, in reading order. *)
Definition positions (d : SpreadsheetData) : list position :=
  flat_map (fun i =>
              match nth_error (sheets d) i with
              | Some sheet => sheetPositions i sheet
              | None => []
              end)
           (seq 0 (length (sheets d))).

Definition isDefined (x : option jsval) : bool :=
  match x with
  | Some _ => true
  | None => false
  end.

(** "Every cell in expected that has a defined value is graded." *)
Definition gradedCells (expected : SpreadsheetData) : list position :=
  filter (fun p => isDefined (valueAt expected p)) (positions expected).

(** "It is correct if the corresponding cell in final has an exactly
    equal value." *)
Definition isCorrect (final expected : SpreadsheetData) (p : position) : bool :=
  strictEqualsOpt (valueAt final p) (valueAt expected p).

(** "accuracy = correct/graded * 100; if no graded cells exist, accuracy
    is 0." *)
Definition percentage (correct graded : nat) : Q :=
  if (graded =? 0)%nat then 0%Q
  else (100 * inject_Z (Z.of_nat correct) / inject_Z (Z.of_nat graded))%Q.

Definition accuracy_as_stated (final expected : SpreadsheetData) : Q :=
  let graded := gradedCells expected in
  percentage (length (filter (isCorrect final expected) graded)) (length graded).

(** The graded cells that lie in a sheet that [final] has too. *)
Definition hasSheet (d : SpreadsheetData) (p : position) : bool :=
  match nth_error (sheets d) (fst (fst p)) with
  | Some _ => true
  | None => false
  end.

Definition gradedCellsIn (final expected : SpreadsheetData) : list position :=
  filter (hasSheet final) (gradedCells expected).

(** What grading one position does to the pair of counters (graded,
    correct). *)
Definition grade (final expected : SpreadsheetData) (st : nat * nat) (p : position)
  : nat * nat :=
  if hasSheet final p && isDefined (valueAt expected p) then
    (S (fst st), if isCorrect final expected p then S (snd st) else snd st)
  else st.

Definition accuracy_of_shared_sheets (final expected : SpreadsheetData) : Q :=
  let graded := gradedCellsIn final expected in
  percentage (length (filter (isCorrect final expected) graded)) (length graded).

(** The percentage as the program computes it in doubles: the quotient
    is rounded to a double, and so is its product with 100. *)
Definition percentage_in_doubles (correct graded : nat) : Q :=
  if (graded =? 0)%nat then 0%Q
  else Double.nearest
         (Double.nearest (inject_Z (Z.of_nat correct) / inject_Z (Z.of_nat graded))
          * 100).

Definition accuracy_in_doubles (final expected : SpreadsheetData) : Q :=
  let graded := gradedCellsIn final expected in
  percentage_in_doubles (length (filter (isCorrect final expected) graded))
                        (length graded).

(** *** Changed cells of the grid differ *)

(** The number of columns of a grid: the length of its longest row. *)
Definition widest (g : Grid) : nat :=
  fold_right Nat.max O (map (@length (option CellData)) g).

Definition rectangle (rows cols : nat) : list (nat * nat) :=
  flat_map (fun r => map (fun c => (r, c)) (seq 0 cols)) (seq 0 rows).

(** "The bounding rectangle max(rows) by max(cols) of the two grids." *)
Definition boundingRectangle (a b : Grid) : list (nat * nat) :=
  rectangle (Nat.max (length a) (length b)) (Nat.max (widest a) (widest b)).

(** The positions whose serialized values differ, missing cells being
    read as [undefined]. *)
Definition differs (a b : Grid) (rc : nat * nat) : bool :=
  serialized_differ (cellAt a (fst rc) (snd rc)) (cellAt b (fst rc) (snd rc)).

(** The references of the cells that the comparison of two sheets is to
    record, in row-major order. *)
Definition changed_as_stated (a b : Grid) : list string :=
  map (fun rc => SpreadsheetAnalyzer.getCellReference (fst rc) (snd rc))
      (filter (differs a b) (boundingRectangle a b)).

(** The references of the recorded changes. *)
Definition refs (changes : list SpreadsheetAnalyzer.CellChange) : list string :=
  map SpreadsheetAnalyzer.cell changes.

(** The rectangle the program walks: as many columns as the first rows
    have. *)
Definition walked (a b : Grid) : list (nat * nat) :=
  rectangle (Nat.max (length a) (length b))
            (Nat.max (SpreadsheetAnalyzer.firstRowLength a)
                     (SpreadsheetAnalyzer.firstRowLength b)).

(** *** Best-practices score *)

Definition used (functionsUsed : list string) (name : string) : bool :=
  if in_dec string_dec name functionsUsed then true else false.

(** "Required rubric formulas absent from the functions-used set" and
    "optional formulas present". *)
Definition absentRequired (functionsUsed required : list string) : nat :=
  length (filter (fun name => negb (used functionsUsed name)) required).

Definition presentOptional (functionsUsed optional : list string) : nat :=
  length (filter (used functionsUsed) optional).

(** "The time between actions": the gaps between consecutive actions.
    Fewer than two actions have none. *)
Fixpoint gaps (actions : list UserAction) : list Z :=
  match actions with
  | earlier :: ((later :: _) as rest) =>
      (timestamp later - timestamp earlier) :: gaps rest
  | _ => []
  end.

(** "The average time between actions is under 1 second" (timestamps are
    in milliseconds); without a gap there is no average and nothing is
    under it. *)
Definition rushing (actions : list UserAction) : bool :=
  match gaps actions with
  | [] => false
  | between =>
      Qltb (inject_Z (fold_right Z.add 0 between) /
            inject_Z (Z.of_nat (length between))) 1000
  end.

Definition clamp (x : Z) : Z := Z.max 0 (Z.min 100 x).


(** The score with the 10 points also taken off a log of fewer than two
    actions. *)
Definition bestPractices (functionsUsed required optional : list string)
           (actions : list UserAction) : Z :=
  clamp (100 - 20 * Z.of_nat (absentRequired functionsUsed required)
             + 10 * Z.of_nat (presentOptional functionsUsed optional)
             - (if (length actions <? 2)%nat || rushing actions then 10 else 0)).

(** *** Skill-level recommendation *)

(** One level up, or the level itself at the top. *)
Definition advance (level : ExcelSkillLevel) : ExcelSkillLevel :=
  match ExcelSkillLevelUtils.getNextLevel level with
  | Some next => next
  | None => level
  end.

(** "Recommend advancing one level if the readiness threshold is met,
    otherwise hold at current level." *)
Definition recommended_as_stated (level : ExcelSkillLevel) (overallScore : Q)
  : ExcelSkillLevel :=
  if Qle_bool (ExcelAnalyticsService.getReadinessThreshold level) overallScore
  then advance level
  else level.

(** The configuration table has a row for the level. *)
Definition hasConfig (configs : list ExcelSkillConfig) (level : ExcelSkillLevel)
  : bool :=
  existsb (fun c => level_eqb (skill_level c) level) configs.

(** How many of the functions used are advanced ones (with repetitions). *)
Definition advancedCount (functionsUsed : list string) : nat :=
  length (filter (fun func => includes ExcelSkillConfigService.advancedFunctionNames func)
                 functionsUsed).

(** *** The answers of the outside world *)

(** What the next query of the configuration table returns, and what the
    next chat-completion request returns. *)
Definition configAnswer (w : ExcelEvaluationService.World) : list ExcelSkillConfig :=
  match ExcelEvaluationService.config_answers w with
  | [] => []
  | answer :: _ => answer
  end.

Definition completionAnswer (w : ExcelEvaluationService.World)
  : ExcelEvaluationService.Completion :=
  match ExcelEvaluationService.completions w with
  | [] => ExcelEvaluationService.ApiError
  | answer :: _ => answer
  end.

(** *** The phase order *)

(** "The single allowed successor" of a phase. *)
Definition successor (st : ExcelInterviewState) : option ExcelInterviewState :=
  match st with
  | introduction => Some conceptual_questions
  | conceptual_questions => Some practical_tasks
  | practical_tasks => Some feedback_generation
  | feedback_generation => Some conclusion
  | conclusion => None
  end.

Definition phases : list ExcelInterviewState :=
  [introduction; conceptual_questions; practical_tasks; feedback_generation;
   conclusion].

(** "The sequence of toState values in stateHistory." *)
Definition toStates (s : ExcelInterviewSession) : list ExcelInterviewState :=
  map to_state (state_history s).

Definition isPrefixOf {A : Type} (l full : list A) : Prop :=
  exists rest, l ++ rest = full.

(** "Each entry's fromState equals the prior entry's toState (or the
    session's initial state for the first entry)." *)
Fixpoint chained (previous : ExcelInterviewState) (history : list StateTransition)
  : Prop :=
  match history with
  | [] => True
  | entry :: later => from_state entry = previous /\ chained (to_state entry) later
  end.

(** The state the history ends in, [initial] when it is empty. *)
Definition lastState (initial : ExcelInterviewState)
           (history : list StateTransition) : ExcelInterviewState :=
  last (map to_state history) initial.

(** What holds of every manager that the factory and the two moving
    calls can produce. *)
Definition wellFormed (m : StateManager.manager) : Prop :=
  let s := StateManager.session m in
  (forall st, StateManager.stateTransitionCallbacks m st = []) /\
  current_state s = lastState introduction (state_history s) /\
  toStates s = firstn (StateManager.stateIndex (current_state s)) (tl phases) /\
  chained introduction (state_history s).

End Spec.

(* --------------------------------------------------------------------- *)
(** ** Sample inputs                                                      *)
(* --------------------------------------------------------------------- *)

Module Samples.

(** A [formula_input] action on cell B4. *)
Definition sample_action (ts : Z) (formula : string) : UserAction :=
  mkAction ts formula_input (Some "B4"%string) None None (Some formula) None None.

Definition value_cell (x : Q) : option CellData :=
  Some (mkCell (Some (VNum x)) None None None None).

Definition one_sheet (g : Grid) : SpreadsheetSheet := mkSheet "Sheet1" g.

(** [expected] has a second sheet that [final] lacks. *)
Definition final_one_sheet : SpreadsheetData :=
  mkSpreadsheet [one_sheet [[value_cell 1]]].

Definition expected_two_sheets : SpreadsheetData :=
  mkSpreadsheet [one_sheet [[value_cell 1]]; mkSheet "Sheet2" [[value_cell 2]]].

(** One hundred expected cells, of which [final] has 57 right. *)
Definition expected_hundred : SpreadsheetData :=
  mkSpreadsheet [one_sheet [repeat (value_cell 1) 100]].

Definition final_57_right : SpreadsheetData :=
  mkSpreadsheet [one_sheet [repeat (value_cell 1) 57 ++ repeat (value_cell 0) 43]].

(** Two [SUM] formulas entered two seconds apart, and a rubric that
    requires [VLOOKUP] and lists [SUM] as optional. *)
Definition unhurried_sums : ActionTracker.tracker :=
  [sample_action 0 "=SUM(A1:A3)"; sample_action 2000 "=SUM(B1:B3)"].


Definition rubric (required optional : list string) : TaskEvaluationCriteria :=
  mkCriteria 40 30 15 15 (Some required) (Some optional) None.

(** Two grids whose second row is longer than the first; they differ in
    cell B2 only. *)
Definition jagged_initial : SpreadsheetData :=
  mkSpreadsheet [one_sheet [[value_cell 1]; [value_cell 1; value_cell 2]]].

Definition jagged_final : SpreadsheetData :=
  mkSpreadsheet [one_sheet [[value_cell 1]; [value_cell 1; value_cell 3]]].

(** A fresh manager, and the same manager walked through all phases. *)
Definition fresh_manager : StateManager.manager :=
  StateManager.createExcelInterviewStateManager 7 None None 1000.

(** A clock that shows [t] at the first reading of a call and advances by
    one millisecond with every further reading. *)
Definition ticking (t : Z) : StateManager.Clock := fun k => t + Z.of_nat k.

Definition concluded_manager : StateManager.manager :=
  StateManager.performAll fresh_manager
    [StateManager.TransitionTo conceptual_questions None (ticking 2000);
     StateManager.TransitionTo practical_tasks None (ticking 3000);
     StateManager.TransitionTo feedback_generation None (ticking 4000);
     StateManager.TransitionTo conclusion None (ticking 5000)].

Definition config_for (n : Z) (level : ExcelSkillLevel) : ExcelSkillConfig :=
  mkConfig n level [] [] (mkEvaluationCriteria 70 60 50) [] (inject_Z n)
           (mkTimeAllocation 10 15 25).

Definition all_configs : list ExcelSkillConfig :=
  [config_for 1 basic; config_for 2 intermediate; config_for 3 advanced].

(** A rational approximation of the square root: the root of [n/d] is
    the root of [n*d] over [d]. *)
Definition approx_sqrt (q : Q) : Q :=
  Qmake (Z.sqrt (Qnum q * Zpos (Qden q))) (Qden q).

Definition sample_result : SpreadsheetResult :=
  mkResult 0 0 "task-1" "Task task-1" final_one_sheet final_one_sheet
           unhurried_sums ["=SUM(A1:A3)"; "=SUM(B1:B3)"]%string ["SUM"%string]
           2000 90 80 85 "Excellent accuracy in your solution!" final_one_sheet.

Definition sample_inputs : ExcelEvaluationService.Inputs :=
  ExcelEvaluationService.mkInputs intermediate
    (mkConceptual 2 2 80 [("Formulas"%string, 80%Q)] 10)
    (mkPractical 1 90 80 85 12 ["SUM"%string])
    [sample_result] 1500000.

(** The text evaluator answers the same request with two different
    texts. *)
Definition varying_world : ExcelEvaluationService.World :=
  ExcelEvaluationService.mkWorld sample_inputs
    [all_configs; all_configs]
    [ExcelEvaluationService.Content (Some "Solid work overall."%string);
     ExcelEvaluationService.Content (Some "A good effort."%string)].

(** The text evaluator answers twice with the same text. *)
Definition steady_world : ExcelEvaluationService.World :=
  ExcelEvaluationService.mkWorld sample_inputs
    [all_configs; all_configs]
    [ExcelEvaluationService.Content (Some "Solid work overall."%string);
     ExcelEvaluationService.Content (Some "Solid work overall."%string)].

End Samples.

(* ===================================================================== *)
(** * Part I, continued: the rest of the cited files                      *)
(* ===================================================================== *)

(* --------------------------------------------------------------------- *)
(** ** CellUtils: parsing references                                      *)
(* --------------------------------------------------------------------- *)

Module CellReferences.

Import FormulaParser.

(** Every character of [s] satisfies [p]. *)
Fixpoint allChars (p : ascii -> bool) (s : string) : bool :=
  match s with
  | EmptyString => true
  | String c tl => p c && allChars p tl
  end.

(** The first character of [b], if any, fails [p]. *)
Definition stopsAt (p : ascii -> bool) (b : string) : Prop :=
  match b with
  | EmptyString => True
  | String c _ => p c = false
  end.

(** A cell is a text of letters followed by a text of digits, neither
    empty. *)
Definition cellShape (letters digits : string) : Prop :=
  allChars isUpper letters = true /\ allChars isDigit digits = true /\
  letters <> EmptyString /\ digits <> EmptyString.

(** [parseInt] on a text of decimal digits: the double nearest to the
    integer that the digits write.  (From the 21st significant digit on
    an engine may read the digits as zeros; the text is read in full
    here.) *)
Definition digitValue (c : ascii) : Z := Z.of_N (N_of_ascii c) - 48.

Fixpoint parseInt_loop (acc : Z) (digits : string) : Z :=
  match digits with
  | EmptyString => acc
  | String c tl => parseInt_loop (acc * 10 + digitValue c) tl
  end.

Definition parseInt (digits : string) : Number.number :=
  Double.round (inject_Z (parseInt_loop 0 digits)).

(** [ref.match] with the anchored pattern "one or more upper-case letters,
    then one or more digits, then the end": the two groups.  The letters
    group is the longest run of letters, since a digit has to follow it. *)
Definition matchCellReference (ref : string) : option (string * string) :=
  let letters := takeWhile isUpper ref in
  let digits := dropWhile isUpper ref in
  match letters, digits with
  | String _ _, String _ _ =>
      if allChars isDigit digits then Some (letters, digits) else None
  | _, _ => None
  end.

Record CellPosition : Type := mkPosition {
  position_row : Number.number;
  position_col : Number.number
}.

Definition parseCellReference (ref : string) : option CellPosition :=
  match matchCellReference ref with
  | None => None
  | Some (letters, digits) =>
      Some (mkPosition (Double.sub (parseInt digits) (Number.Num 1))
                       (CellUtils.letterToColumn letters))
  end.

(** [rangePattern.test(range)]: a cell, a colon, a cell, and nothing else. *)
Definition isValidRange (range : string) : bool :=
  let letters1 := takeWhile isUpper range in
  let rest1 := dropWhile isUpper range in
  let digits1 := takeWhile isDigit rest1 in
  match letters1, digits1, dropWhile isDigit rest1 with
  | String _ _, String _ _, String ":"%char rest2 =>
      match matchCellReference rest2 with
      | Some _ => true
      | None => false
      end
  | _, _, _ => false
  end.

End CellReferences.

(* --------------------------------------------------------------------- *)
(** ** Grid differ: notions for its properties                            *)
(* --------------------------------------------------------------------- *)

Module DifferNotions.

(** The non-empty formulas of a list of recorded changes, in order. *)
Definition formulasOf (changes : list SpreadsheetAnalyzer.CellChange) : list string :=
  flat_map (fun change =>
              match SpreadsheetAnalyzer.formula change with
              | Some (String c tl) => [String c tl]
              | _ => []
              end) changes.

End DifferNotions.

(* --------------------------------------------------------------------- *)
(** ** TaskEvaluator: feedback and the task result                        *)
(* --------------------------------------------------------------------- *)

Module TaskEvaluation.

Import TaskEvaluator.

(** [arr.join(sep)] *)
Fixpoint join (sep : string) (arr : list string) : string :=
  match arr with
  | [] => EmptyString
  | [x] => x
  | x :: tl => (x ++ sep ++ join sep tl)%string
  end.

(** The required functions that were not used, as both
    [calculateBestPracticesScore] and [generateTaskFeedback] compute them. *)
Definition missingFunctions (tracker : ActionTracker.tracker)
           (criteria : TaskEvaluationCriteria) : list string :=
  let functions := ActionTracker.getFunctionsUsed tracker in
  let requiredFunctions := orEmpty (required_formulas criteria) in
  filter (fun func => negb (includes functions func)) requiredFunctions.

Definition generateTaskFeedback (analysis : SpreadsheetAnalyzer.Comparison)
           (tracker : ActionTracker.tracker) (criteria : TaskEvaluationCriteria)
  : string :=
  let feedback : list string := [] in
  let feedback :=
    if Qle_bool 90 (SpreadsheetAnalyzer.accuracy analysis) then
      feedback ++ ["Excellent accuracy in your solution!"%string]
    else if Qle_bool 70 (SpreadsheetAnalyzer.accuracy analysis) then
      feedback ++ ["Good accuracy, but there's room for improvement."%string]
    else
      feedback ++ ["Your solution needs significant improvement in accuracy."%string] in
  let missingFunctions := missingFunctions tracker criteria in
  let feedback :=
    if (0 <? length missingFunctions)%nat then
      feedback ++ [("Consider using these functions: " ++ join ", " missingFunctions)%string]
    else feedback in
  let feedback :=
    if 80 <=? SpreadsheetAnalyzer.efficiency analysis then
      feedback ++ ["Your approach was efficient and well-structured."%string]
    else
      feedback ++ ["Try to find more efficient ways to solve similar problems."%string] in
  join " " feedback.

(** [userActions.forEach(action => tracker.addAction(action))] on a new
    tracker. *)
Definition trackerOf (userActions : list UserAction) : ActionTracker.tracker :=
  fold_left ActionTracker.addAction userActions ActionTracker.empty.

(** [evaluateTask]; the field [created_at] is left out of the result. *)
Definition evaluateTask (taskId : string) (initialState finalState : SpreadsheetData)
           (expectedSolution : SpreadsheetData) (userActions : list UserAction)
           (criteria : TaskEvaluationCriteria) : SpreadsheetResult :=
  let analysis :=
    SpreadsheetAnalyzer.compareSpreadsheets initialState finalState
      (Some expectedSolution) in
  let tracker := trackerOf userActions in
  let accuracyScore := SpreadsheetAnalyzer.accuracy analysis in
  let efficiencyScore := SpreadsheetAnalyzer.efficiency analysis in
  let bestPracticesScore := calculateBestPracticesScore tracker criteria in
  let feedback := generateTaskFeedback analysis tracker criteria in
  mkResult 0 0 taskId ("Task " ++ taskId) initialState finalState userActions
           (ActionTracker.getFormulasUsed tracker)
           (ActionTracker.getFunctionsUsed tracker)
           (inject_Z (ActionTracker.getTimeSpent tracker))
           accuracyScore
           (inject_Z efficiencyScore)
           (inject_Z bestPracticesScore)
           feedback
           expectedSolution.

End TaskEvaluation.

(* --------------------------------------------------------------------- *)
(** ** State manager: progress and validation utilities                   *)
(* --------------------------------------------------------------------- *)

Module StateQueries.

Import StateManager.

Definition stateWeights (st : ExcelInterviewState) : Q :=
  match st with
  | introduction => 5%Q
  | conceptual_questions => 30%Q
  | practical_tasks => 50%Q
  | feedback_generation => 10%Q
  | conclusion => 5%Q
  end.

(** [x || 1] on a count. *)
Definition orOne (x : Z) : Z := if x =? 0 then 1 else x.

(** [Math.min(100, x)] *)
Definition atMost100 (x : Q) : Q := if Qle_bool 100 x then 100%Q else x.

(** The loop that adds the weights of the states before the current one. *)
Definition completedWeight (st : ExcelInterviewState) : Q :=
  fold_left (fun acc earlier => (acc + stateWeights earlier)%Q)
            (firstn (stateIndex st) stateFlow) 0%Q.

(** [getProgressPercentage()], called at time [now].  On a count
    [x || 0] is [x] itself. *)
Definition getProgressPercentage (this : manager) (now : Z) : Q :=
  let currentState := current_state (session this) in
  let currentStateWeight := stateWeights currentState in
  let sd := state_data (session this) in
  let currentStateProgress :=
    match currentState with
    | conceptual_questions =>
        let conceptualTotal := orOne (total_questions sd) in
        let conceptualCompleted := questions_completed sd in
        (inject_Z conceptualCompleted / inject_Z conceptualTotal * currentStateWeight)%Q
    | practical_tasks =>
        let practicalTotal := orOne (total_tasks sd) in
        let practicalCompleted := tasks_completed sd in
        (inject_Z practicalCompleted / inject_Z practicalTotal * currentStateWeight)%Q
    | _ => if isCurrentStateComplete this now then currentStateWeight else 0%Q
    end in
  atMost100 (completedWeight currentState + currentStateProgress)%Q.

(** The counters of the current phase: completed and total. *)
Definition phaseCounters (this : manager) : Z * Z :=
  let sd := state_data (session this) in
  match current_state (session this) with
  | conceptual_questions => (questions_completed sd, total_questions sd)
  | practical_tasks => (tasks_completed sd, total_tasks sd)
  | _ => (0, 0)
  end.

(** The timestamps of the recorded transitions, oldest first. *)
Definition timestamps (this : manager) : list Z :=
  map transition_timestamp (state_history (session this)).

(** [exportSession()]: in [conclusion] it reads the clock twice, by
    [new Date()] for [end_time] and by [Date.now()] for
    [total_duration]. *)
Definition exportSession (this : manager) (now : Clock) : ExcelInterviewSession :=
  let s := session this in
  mkSession (id s) (response_id s) (current_state s) (state_data s)
            (conceptual_progress s) (practical_progress s) (start_time s)
            (if state_eqb (current_state s) conclusion
             then Some (now 0%nat) else None)
            (if state_eqb (current_state s) conclusion
             then Some (now 1%nat - start_time s) else None)
            (state_history s).

(** The readings of the clock that a call can make, in order: at most
    four (one of [isCurrentStateComplete], three of [transition_to]). *)
Definition readings (c : call) : list Z :=
  match c with
  | TransitionTo _ _ now | AutoProgress now =>
      [now 0%nat; now 1%nat; now 2%nat; now 3%nat]
  end.

(** A list of clock readings that never goes back. *)
Fixpoint nonDecreasing (previous : Z) (readings : list Z) : Prop :=
  match readings with
  | [] => True
  | reading :: later => previous <= reading /\ nonDecreasing reading later
  end.

End StateQueries.

Module StateValidationUtils.

(** [validTransitions[from]?.includes(to) || false] over the second copy
    of the transition table. *)
Definition validTransitions (from : ExcelInterviewState) : list ExcelInterviewState :=
  match from with
  | introduction => [conceptual_questions]
  | conceptual_questions => [practical_tasks]
  | practical_tasks => [feedback_generation]
  | feedback_generation => [conclusion]
  | conclusion => []
  end.

Definition validateTransition (from to : ExcelInterviewState) : bool :=
  existsb (state_eqb to) (validTransitions from).

End StateValidationUtils.

(* --------------------------------------------------------------------- *)
(** ** Skill levels: order, level from metrics, level requirements        *)
(* --------------------------------------------------------------------- *)

Module SkillLevelOrder.

Import ExcelSkillLevelUtils.

Definition compareSkillLevels (level1 level2 : ExcelSkillLevel) : Z :=
  let index1 := Z.of_nat (levelIndex level1) in
  let index2 := Z.of_nat (levelIndex level2) in
  index1 - index2.

Definition isHigherLevel (level1 level2 : ExcelSkillLevel) : bool :=
  0 <? compareSkillLevels level1 level2.

Definition getRecommendedFunctions (level : ExcelSkillLevel) : list string :=
  match level with
  | basic => ["SUM"; "AVERAGE"; "COUNT"; "MAX"; "MIN"; "IF"]
  | intermediate =>
      ["VLOOKUP"; "HLOOKUP"; "SUMIF"; "COUNTIF"; "CONCATENATE"; "LEFT"; "RIGHT"; "MID"]
  | advanced => ["INDEX"; "MATCH"; "INDIRECT"; "OFFSET"; "SUMPRODUCT"; "ARRAY_FORMULAS"]
  end%string.

Definition getComplexityScore (level : ExcelSkillLevel) : Z :=
  match level with
  | basic => 1
  | intermediate => 2
  | advanced => 3
  end.

(** [determineSkillLevel] on finite scores. *)
Definition determineSkillLevel (functionsUsed : list string)
           (accuracyScore complexityScore : Q) : ExcelSkillLevel :=
  let basicFunctions := getRecommendedFunctions basic in
  let intermediateFunctions := getRecommendedFunctions intermediate in
  let advancedFunctions := getRecommendedFunctions advanced in
  let hasBasicFunctions := existsb (fun func => includes functionsUsed func) basicFunctions in
  let hasIntermediateFunctions :=
    existsb (fun func => includes functionsUsed func) intermediateFunctions in
  let hasAdvancedFunctions :=
    existsb (fun func => includes functionsUsed func) advancedFunctions in
  if hasAdvancedFunctions && Qle_bool 80 accuracyScore && Qle_bool 3 complexityScore
  then advanced
  else if hasIntermediateFunctions && Qle_bool 70 accuracyScore && Qle_bool 2 complexityScore
  then intermediate
  else basic.

End SkillLevelOrder.

Module SkillRequirements.

Record RequirementsCheck : Type := mkCheck {
  meets : bool;
  missingFunctions : list string;
  scoreRequirement : Q;
  actualScore : Q
}.

(** [checkSkillLevelRequirements] after [getConfigByLevel] has answered
    with [config] ([None] when there is no row or the query failed:
    [getConfigByLevel] catches its own errors). *)
Definition checkSkillLevelRequirements (config : option ExcelSkillConfig)
           (userFunctions : list string) (performanceScore : Q) : RequirementsCheck :=
  match config with
  | None => mkCheck false [] 0 performanceScore
  | Some config =>
      let requiredFunctions := function_requirements config in
      let missingFunctions :=
        filter (fun func => negb (includes userFunctions func)) requiredFunctions in
      let scoreRequirement := ec_formula_accuracy (evaluation_criteria config) in
      let meets :=
        (length missingFunctions =? 0)%nat && Qle_bool scoreRequirement performanceScore in
      mkCheck meets missingFunctions scoreRequirement performanceScore
  end.

End SkillRequirements.

(* --------------------------------------------------------------------- *)
(** ** Analytics service: benchmarks and skill progression                *)
(* --------------------------------------------------------------------- *)

Module BenchmarkAnalysis.

Import Number ExcelEvaluationService.

Record Benchmark : Type := mkBenchmark {
  averageScore : Q;
  averageCompletionTime : Q;
  scoreDistribution : list Q
}.

Definition getBenchmarkData (skillLevel : ExcelSkillLevel) : Benchmark :=
  match skillLevel with
  | basic => mkBenchmark 65 (25 * 60 * 1000) [45; 55; 65; 75; 85]
  | intermediate => mkBenchmark 72 (35 * 60 * 1000) [52; 62; 72; 82; 92]
  | advanced => mkBenchmark 78 (45 * 60 * 1000) [58; 68; 78; 88; 95]
  end%Q.

(** [distribution.filter(s => s < score).length] *)
Definition belowScore (score : Q) (distribution : list Q) : nat :=
  length (filter (fun s => Qltb s score) distribution).

Definition calculatePercentileRank (score : Q) (distribution : list Q) : number :=
  round (mul (div (ofNat (belowScore score distribution)) (ofNat (length distribution)))
             (Num 100)).

(** The five positions; ['average'] is [average_position] here. *)
Inductive CompetitivePosition : Type :=
| top | above_average | average_position | below_average | bottom.

Record BenchmarkAnalysis : Type := mkBenchmarkAnalysis {
  percentileRank : number;
  comparisonToAverage : string;
  timeEfficiency : string;
  competitivePosition : CompetitivePosition
}.

(** [generateBenchmarkAnalysis] on finite scores and times. *)
Definition generateBenchmarkAnalysis (skillLevel : ExcelSkillLevel)
           (overallScore conceptualScore practicalScore completionTime : Q)
  : BenchmarkAnalysis :=
  let benchmarks := getBenchmarkData skillLevel in
  let percentileRank :=
    calculatePercentileRank overallScore (scoreDistribution benchmarks) in
  let avgScore := averageScore benchmarks in
  let scoreDiff := (overallScore - avgScore)%Q in
  let comparisonToAverage :=
    (if Qltb 10 scoreDiff
     then Z_to_string (roundQ scoreDiff) ++ " points above average"
     else if Qltb scoreDiff (-10)
     then Z_to_string (Z.abs (roundQ scoreDiff)) ++ " points below average"
     else "Close to average")%string in
  let avgTime := averageCompletionTime benchmarks in
  let timeDiff := (completionTime - avgTime)%Q in
  let timeEfficiency :=
    (if Qltb timeDiff (-300000) then "Significantly faster than average"
     else if Qltb 300000 timeDiff then "Slower than average"
     else "Average completion time")%string in
  let competitivePosition :=
    if ge percentileRank (Num 90) then top
    else if ge percentileRank (Num 70) then above_average
    else if ge percentileRank (Num 30) then average_position
    else if ge percentileRank (Num 10) then below_average
    else bottom in
  mkBenchmarkAnalysis percentileRank comparisonToAverage timeEfficiency
                      competitivePosition.

End BenchmarkAnalysis.

Module SkillProgression.

Import Number ExcelAnalyticsService.

Record PracticalScores : Type := mkPracticalScores {
  accuracy : Q;
  efficiency : Q;
  bestPractices : Q
}.

(** The first three statements of [analyzeSkillProgression]. *)
Definition progressionScore (conceptualScores : list (string * Q))
           (practicalScores : PracticalScores) : number :=
  let conceptualAvg := average (map snd conceptualScores) in
  let practicalAvg :=
    div (Num (accuracy practicalScores + efficiency practicalScores +
              bestPractices practicalScores)) (Num 3) in
  div (add conceptualAvg practicalAvg) (Num 2).

(** Its next two statements. *)
Definition readinessForNextLevel (currentSkillLevel : ExcelSkillLevel)
           (conceptualScores : list (string * Q)) (practicalScores : PracticalScores)
  : bool :=
  let readinessThreshold := getReadinessThreshold currentSkillLevel in
  ge (progressionScore conceptualScores practicalScores) (Num readinessThreshold).

Definition identifySkillGaps (skillLevel : ExcelSkillLevel)
           (conceptualScores : list (string * Q)) (practicalScores : PracticalScores)
  : list string :=
  let gaps :=
    map (fun entry => (fst entry ++ " knowledge")%string)
        (filter (fun entry => Qltb (snd entry) 60) conceptualScores) in
  let gaps :=
    if Qltb (accuracy practicalScores) 70 then gaps ++ ["Formula accuracy"%string]
    else gaps in
  let gaps :=
    if Qltb (efficiency practicalScores) 70
    then gaps ++ ["Problem-solving efficiency"%string] else gaps in
  let gaps :=
    if Qltb (bestPractices practicalScores) 70
    then gaps ++ ["Excel best practices"%string] else gaps in
  gaps.

Definition identifyStrengths (conceptualScores : list (string * Q))
           (practicalScores : PracticalScores) (functionsUsed : list string)
  : list string :=
  let strengths :=
    map (fun entry => ("Strong " ++ fst entry ++ " knowledge")%string)
        (filter (fun entry => Qle_bool 80 (snd entry)) conceptualScores) in
  let strengths :=
    if Qle_bool 80 (accuracy practicalScores)
    then strengths ++ ["Excellent formula accuracy"%string] else strengths in
  let strengths :=
    if Qle_bool 80 (efficiency practicalScores)
    then strengths ++ ["Efficient problem solving"%string] else strengths in
  let strengths :=
    if Qle_bool 80 (bestPractices practicalScores)
    then strengths ++ ["Good Excel practices"%string] else strengths in
  let strengths :=
    if (5 <=? length functionsUsed)%nat
    then strengths ++ ["Diverse function knowledge"%string] else strengths in
  strengths.

End SkillProgression.
(* ===================================================================== *)
(** * Part II: properties                                                 *)
(* ===================================================================== *)

(* --------------------------------------------------------------------- *)
(** ** Formula parser                                                     *)
(* --------------------------------------------------------------------- *)

Example parse_sum :
  FormulaParser.parseFormula "=SUM(A1,B1)" =
  FormulaParser.mkParsed ["SUM"%string] ["A1"%string; "B1"%string] true 1.
Proof. reflexivity. Qed.

Example parse_unbalanced :
  FormulaParser.isValid (FormulaParser.parseFormula "=SUM(A1,B1") = false.
Proof. reflexivity. Qed.

Example parse_nested :
  FormulaParser.parseFormula "=INDEX(A1:A10,MATCH(1,B1:B10,0))" =
  FormulaParser.mkParsed ["INDEX"%string; "MATCH"%string]
    ["A1:A10"%string; "B1:B10"%string] true 6.
Proof. reflexivity. Qed.

Section FormulaParserFacts.

Import FormulaParser Spec.

Lemma step_is_delta (openParens : Z) (c : ascii) :
  (if Ascii.eqb c ")"
   then (if Ascii.eqb c "(" then openParens + 1 else openParens) - 1
   else (if Ascii.eqb c "(" then openParens + 1 else openParens))
  = openParens + delta c.
Proof.
  unfold delta.
  destruct (Ascii.eqb_spec c "(") as [-> | _]; simpl.
  - lia.
  - destruct (Ascii.eqb c ")"); lia.
Qed.

Lemma validateFormula_loop_step (openParens : Z) (c : ascii) (tl : string) :
  validateFormula_loop openParens (String c tl) =
  if openParens + delta c <? 0 then false
  else validateFormula_loop (openParens + delta c) tl.
Proof.
  cbn [validateFormula_loop]. cbv zeta.
  rewrite step_is_delta. reflexivity.
Qed.

(** The loop started with a non-negative count accepts exactly the texts
    that keep the count non-negative and bring it to zero. *)
Lemma validateFormula_loop_spec (s : string) :
  forall openParens,
    0 <= openParens ->
    (validateFormula_loop openParens s = true <->
     (forall n, 0 <= openParens + depth (prefix n s)) /\
     openParens + depth s = 0).
Proof.
  induction s as [| c tl IH]; intros o Ho.
  - cbn [validateFormula_loop depth]. rewrite Z.eqb_eq. split.
    + intros ->. split; [intros [| n]; cbn; lia | lia].
    + intros [_ H]. lia.
  - rewrite validateFormula_loop_step. cbn [depth].
    destruct (Z.ltb_spec (o + delta c) 0) as [Hneg | Hpos].
    + split; [discriminate |]. intros [H _].
      specialize (H 1%nat). cbn in H. lia.
    + rewrite (IH _ Hpos). split.
      * intros [H1 H2]. split; [| lia].
        intros [| n]; cbn [prefix depth]; [lia |].
        specialize (H1 n). lia.
      * intros [H1 H2]. split; [| lia].
        intros n. specialize (H1 (S n)). cbn [prefix depth] in H1. lia.
Qed.

Lemma validateFormula_balanced (formula : string) :
  validateFormula formula = true <-> balanced formula.
Proof.
  unfold validateFormula, balanced.
  rewrite (validateFormula_loop_spec formula 0) by lia.
  reflexivity.
Qed.

(** C8.  The formula parser is a total function (it returns for every
    input and has no failure value).  An input that does not start with
    ['='] yields no functions, no references, [isValid = false] and
    complexity 0; for an input that starts with ['='], [isValid] is true
    exactly when the parentheses are balanced: the running count of open
    parentheses never goes negative and ends at zero. *)
Theorem parseFormula_validity (formula : string) :
  (startsWith formula "=" = false ->
   parseFormula formula = mkParsed [] [] false 0) /\
  (startsWith formula "=" = true ->
   (isValid (parseFormula formula) = true <-> balanced formula)).
Proof.
  unfold parseFormula. split; intros H; rewrite H; cbn [negb].
  - reflexivity.
  - cbn [isValid]. apply validateFormula_balanced.
Qed.

Lemma parseFormula_validity_witness :
  parseFormula "SUM(A1)" = mkParsed [] [] false 0 /\
  (isValid (parseFormula "=SUM(A1,B1)") = true <-> balanced "=SUM(A1,B1)").
Proof.
  split.
  - apply (proj1 (parseFormula_validity "SUM(A1)")). reflexivity.
  - apply (proj2 (parseFormula_validity "=SUM(A1,B1)")). reflexivity.
Defined.

End FormulaParserFacts.

(* --------------------------------------------------------------------- *)
(** ** Double-precision arithmetic                                        *)
(* --------------------------------------------------------------------- *)

Section DoubleFacts.

Import Double.

Lemma Qltb_true (a b : Q) : Qltb a b = true <-> (a < b)%Q.
Proof.
  unfold Qltb. rewrite negb_true_iff. split.
  - intros H. apply Qnot_le_lt. intros Hle.
    apply Qle_bool_iff in Hle. congruence.
  - intros H. destruct (Qle_bool b a) eqn:Hb; [| reflexivity].
    apply Qle_bool_iff in Hb. exfalso. exact (Qlt_not_le _ _ H Hb).
Qed.

Lemma Qltb_false (a b : Q) : Qltb a b = false <-> ~ (a < b)%Q.
Proof.
  rewrite <- Qltb_true. destruct (Qltb a b); split; congruence.
Qed.

Lemma pow2_pos (k : Z) : (0 < pow2 k)%Q.
Proof. apply Qpower_0_lt. reflexivity. Qed.

Lemma pow2_add (a b : Z) : (pow2 (a + b) == pow2 a * pow2 b)%Q.
Proof. apply Qpower_plus. discriminate. Qed.

Lemma pow2_le (a b : Z) : a <= b -> (pow2 a <= pow2 b)%Q.
Proof. intros H. apply Qpower_le_compat_l; [exact H | discriminate]. Qed.

Lemma pow2_lt_inv (a b : Z) : (pow2 a < pow2 b)%Q -> a < b.
Proof. intros H. apply (Qpower_lt_compat_l_inv 2); [exact H | reflexivity]. Qed.

Lemma pow2_Z (k : Z) : 0 <= k -> (pow2 k == inject_Z (2 ^ k))%Q.
Proof. intros H. unfold pow2. now rewrite (Zpower_Qpower 2 k H). Qed.

(** [x * 2^(-e)] for [e <= 0] is the product with an integer. *)
Lemma div_pow2 (x : Q) (e : Z) :
  e <= 0 -> (x / pow2 e == x * inject_Z (2 ^ (- e)))%Q.
Proof.
  intros He. rewrite <- (pow2_Z (- e)) by lia.
  unfold Qdiv. apply Qmult_comp; [reflexivity |].
  unfold pow2. rewrite Qpower_opp. reflexivity.
Qed.

Lemma ilog2_spec (x : Q) :
  (0 < x)%Q -> (pow2 (ilog2 x) <= x)%Q /\ (x < pow2 (ilog2 x + 1))%Q.
Proof.
  intros Hx. destruct x as [n d]. unfold ilog2. cbn [Qnum Qden].
  assert (Hn : 0 < n) by (unfold Qlt in Hx; cbn in Hx; lia).
  destruct (Z.log2_spec n Hn) as (Hn1 & Hn2).
  destruct (Z.log2_spec (Zpos d) (Pos2Z.is_pos d)) as (Hd1 & Hd2).
  pose proof (Z.log2_nonneg n) as Hln. pose proof (Z.log2_nonneg (Zpos d)) as Hld.
  set (ln := Z.log2 n) in *. set (ld := Z.log2 (Zpos d)) in *.
  assert (Hq : (n # d == inject_Z n / inject_Z (Zpos d))%Q) by apply Qmake_Qdiv.
  assert (Hdpos : (0 < inject_Z (Zpos d))%Q) by reflexivity.
  assert (Hup : forall k, k + ld = ln + 1 -> (n # d < pow2 k)%Q).
  { intros k Hk. rewrite Hq. apply Qlt_shift_div_r; [exact Hdpos |].
    apply Qlt_le_trans with (inject_Z (2 ^ (ln + 1))).
    - rewrite <- Zlt_Qlt. unfold Z.succ in Hn2. exact Hn2.
    - rewrite <- (pow2_Z (ln + 1)) by lia. rewrite <- Hk, pow2_add.
      apply Qmult_le_l; [apply pow2_pos |].
      rewrite (pow2_Z ld) by lia. rewrite <- Zle_Qle. exact Hd1. }
  assert (Hlow : forall k, k + ld + 1 = ln -> (pow2 k <= n # d)%Q).
  { intros k Hk. rewrite Hq. apply Qle_shift_div_l; [exact Hdpos |].
    apply Qle_trans with (inject_Z (2 ^ ln)).
    - rewrite <- (pow2_Z ln) by lia. rewrite <- Hk.
      replace (k + ld + 1) with (k + (ld + 1)) by lia. rewrite pow2_add.
      apply Qmult_le_l; [apply pow2_pos |].
      rewrite (pow2_Z (ld + 1)) by lia. rewrite <- Zle_Qle.
      unfold Z.succ in Hd2. lia.
    - rewrite <- Zle_Qle. exact Hn1. }
  destruct (Qle_bool (pow2 (ln - ld)) (n # d)) eqn:Hle.
  - apply Qle_bool_iff in Hle. split; [exact Hle |]. apply Hup. lia.
  - split.
    + apply Hlow. lia.
    + replace (ln - ld - 1 + 1) with (ln - ld) by lia.
      apply Qnot_le_lt. intros H. apply Qle_bool_iff in H. congruence.
Qed.

Lemma ilog2_lt (x : Q) (k : Z) : (0 < x)%Q -> (x < pow2 k)%Q -> ilog2 x < k.
Proof.
  intros Hx Hk. destruct (ilog2_spec x Hx) as (Hlow & _).
  apply pow2_lt_inv. now apply Qle_lt_trans with x.
Qed.

Lemma ilog2_ge (x : Q) (k : Z) : (0 < x)%Q -> (pow2 k <= x)%Q -> k <= ilog2 x.
Proof.
  intros Hx Hk. destruct (ilog2_spec x Hx) as (_ & Hup).
  assert (H : k < ilog2 x + 1); [| lia].
  apply pow2_lt_inv. now apply Qle_lt_trans with x.
Qed.

(** *** Rounding to an integer *)

Lemma roundToEven_floor (y : Q) :
  Qfloor y <= roundToEven y <= Qfloor y + 1.
Proof.
  unfold roundToEven.
  destruct (y - inject_Z (Qfloor y) ?= 1 # 2)%Q; [destruct (Z.even _) | |]; lia.
Qed.

Lemma roundToEven_le (y : Q) (N : Z) : (y <= inject_Z N)%Q -> roundToEven y <= N.
Proof.
  intros Hy. pose proof (roundToEven_floor y) as Hr.
  pose proof (Qfloor_resp_le _ _ Hy) as Hf. rewrite Qfloor_Z in Hf.
  destruct (Z.eq_dec (Qfloor y) N) as [He | Hne]; [| lia].
  assert (Hz : (y - inject_Z (Qfloor y) <= 0)%Q).
  { rewrite He. lra. }
  unfold roundToEven.
  destruct (Qcompare_spec (y - inject_Z (Qfloor y)) (1 # 2)) as [H | H | H].
  - exfalso. lra.
  - lia.
  - exfalso. lra.
Qed.

Lemma roundToEven_ge (y : Q) (N : Z) : (inject_Z N <= y)%Q -> N <= roundToEven y.
Proof.
  intros Hy. pose proof (roundToEven_floor y) as Hr.
  pose proof (Qfloor_resp_le _ _ Hy) as Hf. rewrite Qfloor_Z in Hf. lia.
Qed.

Lemma roundToEven_error (y : Q) :
  (Qabs (inject_Z (roundToEven y) - y) <= 1 # 2)%Q.
Proof.
  pose proof (Qfloor_le y) as Hlow. pose proof (Qlt_floor y) as Hup.
  rewrite inject_Z_plus in Hup. change (inject_Z 1) with 1%Q in Hup.
  apply Qabs_Qle_condition. unfold roundToEven.
  destruct (Qcompare_spec (y - inject_Z (Qfloor y)) (1 # 2)) as [H | H | H].
  - destruct (Z.even (Qfloor y));
      [| rewrite inject_Z_plus; change (inject_Z 1) with 1%Q]; lra.
  - lra.
  - rewrite inject_Z_plus. change (inject_Z 1) with 1%Q. lra.
Qed.

(** *** The nearest double *)

Lemma nearest_zero (x : Q) : (x == 0)%Q -> nearest x = 0%Q.
Proof. intros H. unfold nearest. now rewrite (Qeq_eq_bool _ _ H). Qed.

Lemma nearest_scaled (x : Q) :
  ~ (x == 0)%Q ->
  (nearest x ==
   inject_Z (roundToEven (x / pow2 (ulpExponent x))) * pow2 (ulpExponent x))%Q.
Proof.
  intros H. unfold nearest.
  destruct (Qeq_bool x 0) eqn:Hz; [apply Qeq_bool_eq in Hz; contradiction |].
  apply Qred_correct.
Qed.

(** The rounding of [x] stays between the multiples of [2^g] around [x],
    when the last place of [x] is at [g] or below. *)
Lemma nearest_between (x : Q) (g A B : Z) :
  ~ (x == 0)%Q -> ulpExponent x <= g ->
  (inject_Z A * pow2 g <= x)%Q -> (x <= inject_Z B * pow2 g)%Q ->
  (inject_Z A * pow2 g <= nearest x)%Q /\ (nearest x <= inject_Z B * pow2 g)%Q.
Proof.
  intros Hx Hg HA HB. rewrite (nearest_scaled x Hx).
  set (e := ulpExponent x) in *.
  pose proof (pow2_pos e) as Hp.
  assert (Hs : (pow2 g == inject_Z (2 ^ (g - e)) * pow2 e)%Q).
  { rewrite <- (pow2_Z (g - e)) by lia. rewrite <- pow2_add.
    replace (g - e + e) with g by lia. reflexivity. }
  assert (HmA : (inject_Z A * pow2 g == inject_Z (A * 2 ^ (g - e)) * pow2 e)%Q)
    by (rewrite Hs, inject_Z_mult; ring).
  assert (HmB : (inject_Z B * pow2 g == inject_Z (B * 2 ^ (g - e)) * pow2 e)%Q)
    by (rewrite Hs, inject_Z_mult; ring).
  rewrite HmA in HA |- *. rewrite HmB in HB |- *.
  split.
  - apply (Qmult_le_compat_r (inject_Z (A * 2 ^ (g - e)))
                             (inject_Z (roundToEven (x / pow2 e))) (pow2 e));
      [| now apply Qlt_le_weak].
    rewrite <- Zle_Qle. apply roundToEven_ge.
    apply Qle_shift_div_l; assumption.
  - apply (Qmult_le_compat_r (inject_Z (roundToEven (x / pow2 e)))
                             (inject_Z (B * 2 ^ (g - e))) (pow2 e));
      [| now apply Qlt_le_weak].
    rewrite <- Zle_Qle. apply roundToEven_le.
    apply Qle_shift_div_r; assumption.
Qed.



Lemma ulpExponent_below (x : Q) (k : Z) :
  ~ (x == 0)%Q -> (Qabs x < pow2 k)%Q -> -1021 <= k -> ulpExponent x <= k - 53.
Proof.
  intros Hx Hk Hmin. unfold ulpExponent.
  assert (Hpos : (0 < Qabs x)%Q).
  { destruct (Qlt_le_dec 0 (Qabs x)) as [H | H]; [exact H |].
    exfalso. apply Hx. pose proof (Qabs_nonneg x) as Hn.
    assert (Hz : (Qabs x == 0)%Q) by (apply Qle_antisym; assumption).
    destruct (Qlt_le_dec x 0) as [Hneg | Hnn].
    - rewrite Qabs_neg in Hz by (now apply Qlt_le_weak).
      rewrite <- (Qopp_involutive x), Hz. reflexivity.
    - rewrite Qabs_pos in Hz by assumption. exact Hz. }
  pose proof (ilog2_lt _ _ Hpos Hk). lia.
Qed.

Lemma Qred_inject_Z (n : Z) : Qred (inject_Z n) = inject_Z n.
Proof.
  unfold Qred, inject_Z.
  pose proof (Z.ggcd_gcd n 1) as Hg.
  pose proof (Z.ggcd_correct_divisors n 1) as Hd.
  destruct (Z.ggcd n 1) as (g, (aa, bb)). cbn [fst snd] in *.
  rewrite Z.gcd_1_r in Hg. subst g. destruct Hd as (Ha & Hb).
  replace aa with n by lia. replace bb with 1 by lia. reflexivity.
Qed.

(** An integer of magnitude up to [2^53] is a double. *)
Lemma nearest_integer (x : Q) (n : Z) :
  (x == inject_Z n)%Q -> Z.abs n <= 2 ^ 53 -> nearest x = inject_Z n.
Proof.
  intros Hx Hn.
  destruct (Z.eq_dec n 0) as [-> | Hn0]; [now apply nearest_zero |].
  assert (Hx0 : ~ (x == 0)%Q).
  { rewrite Hx. intros H. apply Hn0. unfold Qeq in H. cbn in H. lia. }
  assert (Habs : (Qabs x == inject_Z (Z.abs n))%Q).
  { rewrite (Qabs_wd _ _ Hx). unfold inject_Z. now rewrite Zabs_Qabs. }
  assert (He : ulpExponent x <= 1).
  { replace 1 with (54 - 53) by lia. apply ulpExponent_below; [exact Hx0 | | lia].
    rewrite Habs, (pow2_Z 54) by lia. rewrite <- Zlt_Qlt. lia. }
  assert (Heq : (nearest x == inject_Z n)%Q).
  { destruct (Z.eq_dec (Z.abs n) (2 ^ 53)) as [Htop | Hlow].
    - (* the two integers of magnitude 2^53 are multiples of 2 *)
      assert (Hm : (inject_Z n == inject_Z (n / 2) * pow2 1)%Q).
      { change (pow2 1) with (inject_Z 2). rewrite <- inject_Z_mult.
        apply inject_Z_injective.
        assert (Hcase : n = 2 ^ 53 \/ n = - 2 ^ 53) by lia.
        destruct Hcase as [-> | ->]; reflexivity. }
      destruct (nearest_between x 1 (n / 2) (n / 2) Hx0 He) as (H1 & H2).
      + rewrite <- Hm, Hx. apply Qle_refl.
      + rewrite <- Hm, Hx. apply Qle_refl.
      + rewrite <- Hm in H1, H2. now apply Qle_antisym.
    - assert (He0 : ulpExponent x <= 0).
      { replace 0 with (53 - 53) by lia.
        apply ulpExponent_below; [exact Hx0 | | lia].
        rewrite Habs, (pow2_Z 53) by lia. rewrite <- Zlt_Qlt. lia. }
      destruct (nearest_between x 0 n n Hx0 He0) as (H1 & H2).
      + change (pow2 0) with 1%Q. rewrite Qmult_1_r, Hx. apply Qle_refl.
      + change (pow2 0) with 1%Q. rewrite Qmult_1_r, Hx. apply Qle_refl.
      + change (pow2 0) with 1%Q in H1, H2. rewrite Qmult_1_r in H1, H2.
        now apply Qle_antisym. }
  unfold nearest in *.
  destruct (Qeq_bool x 0) eqn:Hz; [apply Qeq_bool_eq in Hz; contradiction |].
  rewrite Qred_correct in Heq. apply Qred_complete in Heq. rewrite Heq.
  apply Qred_inject_Z.
Qed.


(** The rounding error is at most half a unit in the last place. *)
Lemma nearest_error (x : Q) :
  (Qabs (nearest x - x) <= pow2 (ulpExponent x) * (1 # 2))%Q.
Proof.
  destruct (Qeq_bool x 0) eqn:Hz.
  - apply Qeq_bool_eq in Hz. rewrite (nearest_zero x Hz).
    assert (H0 : (0 - x == 0)%Q) by (rewrite Hz; reflexivity).
    rewrite H0. apply Qmult_le_0_compat; [apply Qlt_le_weak, pow2_pos | discriminate].
  - apply Qeq_bool_neq in Hz. rewrite (nearest_scaled x Hz).
    set (p := pow2 (ulpExponent x)).
    pose proof (pow2_pos (ulpExponent x)) as Hp. fold p in Hp.
    pose proof (roundToEven_error (x / p)) as He.
    assert (Hx : (x == x / p * p)%Q).
    { field. intros H. rewrite H in Hp. discriminate Hp. }
    rewrite Hx at 2.
    assert (Hd : (inject_Z (roundToEven (x / p)) * p - x / p * p ==
                  (inject_Z (roundToEven (x / p)) - x / p) * p)%Q) by ring.
    rewrite Hd, Qabs_Qmult, (Qabs_pos p) by (now apply Qlt_le_weak).
    rewrite (Qmult_comm p). apply Qmult_le_compat_r; [exact He |].
    now apply Qlt_le_weak.
Qed.

(** Rounding keeps a number below [2^53] between the integers around
    it. *)
Lemma nearest_between_integers (x : Q) (a b : Z) :
  (Qabs x < pow2 53)%Q -> (inject_Z a <= x)%Q -> (x <= inject_Z b)%Q ->
  (inject_Z a <= nearest x)%Q /\ (nearest x <= inject_Z b)%Q.
Proof.
  intros Hx Ha Hb. destruct (Qeq_bool x 0) eqn:Hz.
  - apply Qeq_bool_eq in Hz. rewrite (nearest_zero x Hz). rewrite Hz in Ha, Hb.
    split; assumption.
  - apply Qeq_bool_neq in Hz.
    assert (He : ulpExponent x <= 0).
    { replace 0 with (53 - 53) by lia. apply ulpExponent_below; [exact Hz | exact Hx | lia]. }
    destruct (nearest_between x 0 a b Hz He) as (H1 & H2).
    + change (pow2 0) with 1%Q. now rewrite Qmult_1_r.
    + change (pow2 0) with 1%Q. now rewrite Qmult_1_r.
    + change (pow2 0) with 1%Q in H1, H2. rewrite Qmult_1_r in H1, H2.
      split; assumption.
Qed.

(** An integer of magnitude up to [2^53] is not rounded and is not an
    infinity. *)
Lemma round_integer (x : Q) (n : Z) :
  (x == inject_Z n)%Q -> Z.abs n <= 2 ^ 53 -> round x = Number.Num (inject_Z n).
Proof.
  intros Hx Hn. unfold round. rewrite (nearest_integer x n Hx Hn).
  assert (Hbig : (inject_Z (2 ^ 53) < pow2 1024)%Q).
  { rewrite <- (pow2_Z 53) by lia. apply Qpower_lt_compat_l; [lia | reflexivity]. }
  assert (Hup : Qle_bool (pow2 1024) (inject_Z n) = false).
  { destruct (Qle_bool (pow2 1024) (inject_Z n)) eqn:H; [| reflexivity].
    apply Qle_bool_iff in H. exfalso.
    assert (Hle : (inject_Z n <= inject_Z (2 ^ 53))%Q) by (rewrite <- Zle_Qle; lia).
    lra. }
  assert (Hdown : Qle_bool (inject_Z n) (- pow2 1024) = false).
  { destruct (Qle_bool (inject_Z n) (- pow2 1024)) eqn:H; [| reflexivity].
    apply Qle_bool_iff in H. exfalso.
    assert (Hle : (inject_Z (- 2 ^ 53) <= inject_Z n)%Q) by (rewrite <- Zle_Qle; lia).
    rewrite inject_Z_opp in Hle. lra. }
  now rewrite Hup, Hdown.
Qed.

(** The error of rounding a number below [2^k]. *)
Lemma nearest_error_below (x : Q) (k : Z) :
  (Qabs x < pow2 k)%Q -> -1021 <= k ->
  (Qabs (nearest x - x) <= pow2 (k - 54))%Q.
Proof.
  intros Hx Hk. destruct (Qeq_bool x 0) eqn:Hz.
  - apply Qeq_bool_eq in Hz. rewrite (nearest_zero x Hz).
    assert (H0 : (0 - x == 0)%Q) by (rewrite Hz; reflexivity).
    rewrite H0. apply Qlt_le_weak, pow2_pos.
  - apply Qeq_bool_neq in Hz.
    pose proof (ulpExponent_below x k Hz Hx Hk) as Hulp.
    apply Qle_trans with (pow2 (ulpExponent x) * (1 # 2))%Q; [apply nearest_error |].
    apply Qle_trans with (pow2 (k - 53) * (1 # 2))%Q.
    + apply Qmult_le_compat_r; [now apply pow2_le | discriminate].
    + replace (k - 53) with (k - 54 + 1) by lia. rewrite pow2_add.
      change (pow2 1) with 2%Q. apply Qle_lteq. right. ring.
Qed.


End DoubleFacts.

(* --------------------------------------------------------------------- *)
(** ** Column letters                                                     *)
(* --------------------------------------------------------------------- *)

Section CellUtilsFacts.

Import CellUtils.

Example columnToLetter_samples :
  map columnToLetter [0; 25; 26; 27; 701; 702; 18277] =
  ["A"; "Z"; "AA"; "AB"; "ZZ"; "AAA"; "ZZZ"]%string.
Proof. reflexivity. Qed.

Example letterToColumn_samples :
  map letterToColumn ["A"; "Z"; "AA"; "AB"; "ZZ"; "AAA"; "ZZZ"]%string =
  map (fun c => Number.Num (inject_Z c)) [0; 25; 26; 27; 701; 702; 18277].
Proof. vm_compute. reflexivity. Qed.

(** Below [2^53] the doubles of the loop carry the integer quotient:
    [Math.floor(col / 26) - 1] is [col / 26 - 1]. *)
Lemma nextColumn_exact (col : Z) :
  0 <= col < 2 ^ 53 -> nextColumn col = col / 26 - 1.
Proof.
  intros Hcol. unfold nextColumn.
  set (q := (inject_Z col / 26)%Q).
  pose proof (Z.div_mod col 26 ltac:(lia)) as Hdm.
  pose proof (Z.mod_pos_bound col 26 ltac:(lia)) as Hm.
  assert (Hdiv : 0 <= col / 26) by (apply Z.div_pos; lia).
  assert (Hq : (q * 26 == inject_Z col)%Q) by (unfold q; field).
  assert (Hlow : (inject_Z (col / 26) <= q)%Q).
  { apply (Qmult_le_r _ _ 26); [reflexivity |]. rewrite Hq.
    change 26%Q with (inject_Z 26). rewrite <- inject_Z_mult, <- Zle_Qle. lia. }
  assert (Hup : (q * 26 <= inject_Z (col / 26) * 26 + 25)%Q).
  { rewrite Hq. change 26%Q with (inject_Z 26). change 25%Q with (inject_Z 25).
    rewrite <- inject_Z_mult, <- inject_Z_plus, <- Zle_Qle. lia. }
  assert (Hq0 : (0 <= q)%Q).
  { apply Qle_trans with (inject_Z (col / 26)); [| exact Hlow].
    change 0%Q with (inject_Z 0). now rewrite <- Zle_Qle. }
  assert (Hq49 : (q < Double.pow2 49)%Q).
  { apply (Qmult_lt_r _ _ 26); [reflexivity |]. rewrite Hq.
    apply Qlt_le_trans with (inject_Z (2 ^ 53)); [rewrite <- Zlt_Qlt; lia |].
    rewrite (pow2_Z 49) by lia. change 26%Q with (inject_Z 26).
    rewrite <- inject_Z_mult, <- Zle_Qle. lia. }
  assert (Hfloor : Qfloor (Double.nearest q) = col / 26).
  { destruct (Qeq_bool q 0) eqn:Hz.
    - apply Qeq_bool_eq in Hz. rewrite (nearest_zero q Hz).
      assert (H0 : col / 26 <= 0).
      { rewrite Hz in Hlow. change 0%Q with (inject_Z 0) in Hlow.
        now rewrite <- Zle_Qle in Hlow. }
      change (Qfloor 0) with 0. lia.
    - apply Qeq_bool_neq in Hz.
      assert (Habs : (Qabs q < Double.pow2 49)%Q) by (now rewrite Qabs_pos).
      assert (Hulp : Double.ulpExponent q <= -4).
      { replace (-4) with (49 - 53) by lia.
        apply ulpExponent_below; [exact Hz | exact Habs | lia]. }
      pose proof (nearest_error q) as Herr.
      assert (Hp : (Double.pow2 (Double.ulpExponent q) <= 1 # 16)%Q).
      { apply Qle_trans with (Double.pow2 (-4)); [now apply pow2_le | discriminate]. }
      assert (Habs53 : (Qabs q < Double.pow2 53)%Q).
      { apply Qlt_le_trans with (Double.pow2 49); [exact Habs | apply pow2_le; lia]. }
      destruct (nearest_between_integers q (col / 26) (col / 26 + 1) Habs53 Hlow)
        as (Hn1 & _).
      { rewrite inject_Z_plus. change (inject_Z 1) with 1%Q. lra. }
      apply Qabs_Qle_condition in Herr. destruct Herr as (_ & Herr).
      assert (Hn2 : (Double.nearest q < inject_Z (col / 26 + 1))%Q).
      { rewrite inject_Z_plus. change (inject_Z 1) with 1%Q. lra. }
      apply Qfloor_resp_le in Hn1. rewrite Qfloor_Z in Hn1.
      pose proof (Qlt_floor (Double.nearest q)) as Hlt.
      assert (Hlt' : Qfloor (Double.nearest q) < col / 26 + 1).
      { rewrite Zlt_Qlt. apply Qle_lt_trans with (Double.nearest q);
          [apply Qfloor_le | exact Hn2]. }
      lia. }
  rewrite Hfloor.
  assert (He : (inject_Z (col / 26) - 1 == inject_Z (col / 26 - 1))%Q).
  { unfold Z.sub. rewrite inject_Z_plus. reflexivity. }
  rewrite (nearest_integer _ (col / 26 - 1) He) by lia.
  apply Qfloor_Z.
Qed.

(** One turn of the loop. *)
Lemma columnToLetter_loop_nonneg (col : Z) (result : string) :
  0 <= col ->
  columnToLetter_loop col result =
  columnToLetter_loop (nextColumn col) (String (columnDigit col) result).
Proof.
  intros H. rewrite columnToLetter_loop_equation_1.
  destruct (Z_ge_dec col 0); [reflexivity | lia].
Qed.

Lemma columnToLetter_loop_neg (col : Z) (result : string) :
  col < 0 -> columnToLetter_loop col result = result.
Proof.
  intros H. rewrite columnToLetter_loop_equation_1.
  destruct (Z_ge_dec col 0); [lia | reflexivity].
Qed.

(** The letter written for [col] reads back as [col mod 26 + 1]. *)
Lemma letterValue_columnDigit (col : Z) :
  letterValue (columnDigit col) = col mod 26 + 1.
Proof.
  unfold letterValue, columnDigit.
  pose proof (Z.mod_pos_bound col 26 ltac:(lia)) as Hm.
  rewrite N_ascii_embedding by lia.
  rewrite Z2N.id by lia. lia.
Qed.

(** One turn of the decoder, [result * 26 + value], on integers whose
    result does not exceed [2^53]: neither the product nor the sum is
    rounded. *)
Lemma letterToColumn_step (a d : Z) :
  0 <= a -> 0 <= d -> a * 26 + d <= 2 ^ 53 ->
  Double.add (Double.mul (Number.Num (inject_Z a)) (Number.Num 26))
             (Number.Num (inject_Z d)) =
  Number.Num (inject_Z (a * 26 + d)).
Proof.
  intros Ha Hd Hsum. unfold Double.mul. cbn [Number.mul Double.rounded].
  rewrite (round_integer _ (a * 26)).
  - unfold Double.add. cbn [Number.add Double.rounded].
    apply round_integer; [now rewrite inject_Z_plus | lia].
  - change 26%Q with (inject_Z 26). now rewrite inject_Z_mult.
  - lia.
Qed.

(** Reading what the loop wrote in front of [result]: the decoder reaches
    [result] with [col + 1] accumulated. *)
Lemma letterToColumn_columnToLetter_loop (n : nat) :
  forall col result,
    -1 <= col < 2 ^ 53 -> Z.to_nat (col + 1) = n ->
    letterToColumn_loop (Number.Num 0) (columnToLetter_loop col result) =
    letterToColumn_loop (Number.Num (inject_Z (col + 1))) result.
Proof.
  induction n as [n IH] using lt_wf_ind. intros col result Hlo Hn.
  destruct (Z_lt_dec col 0) as [Hneg | Hpos].
  - rewrite columnToLetter_loop_neg by assumption.
    replace (col + 1) with 0 by lia. reflexivity.
  - rewrite columnToLetter_loop_nonneg, nextColumn_exact by lia.
    assert (Hdiv : 0 <= col / 26 <= col).
    { split; [apply Z.div_pos; lia | apply Z.div_le_upper_bound; lia]. }
    rewrite (IH (Z.to_nat (col / 26 - 1 + 1))) by lia.
    cbn [letterToColumn_loop]. rewrite letterValue_columnDigit.
    pose proof (Z.div_mod col 26 ltac:(lia)) as Hdm.
    pose proof (Z.mod_pos_bound col 26 ltac:(lia)) as Hm.
    replace (col / 26 - 1 + 1) with (col / 26) by lia.
    rewrite letterToColumn_step by lia.
    do 3 f_equal. lia.
Qed.

(** The round trip stops at [2^53]: the label of column [2^53] is decoded
    through [2^53 + 1], which is not a double, and reads back as
    [2^53 - 1]. *)
Lemma letterToColumn_columnToLetter_not_beyond :
  columnToLetter (2 ^ 53) = "BKTXHSOGHKKG"%string /\
  letterToColumn (columnToLetter (2 ^ 53)) = Number.Num (inject_Z (2 ^ 53 - 1)) /\
  ~ (forall c : Z,
        0 <= c -> letterToColumn (columnToLetter c) = Number.Num (inject_Z c)).
Proof.
  assert (Hlabel : columnToLetter (2 ^ 53) = "BKTXHSOGHKKG"%string).
  { unfold columnToLetter. change (2 ^ 53) with 9007199254740992.
    repeat
      match goal with
      | |- context [columnToLetter_loop ?c ?r] =>
          rewrite (columnToLetter_loop_nonneg c r) by lia;
          replace (nextColumn c) with (c / 26 - 1) by (vm_compute; reflexivity);
          let next := eval vm_compute in (c / 26 - 1) in
          change (c / 26 - 1) with next;
          let digit := eval vm_compute in (columnDigit c) in
          change (columnDigit c) with digit
      end.
    now rewrite columnToLetter_loop_neg by lia. }
  assert (H : letterToColumn (columnToLetter (2 ^ 53)) =
              Number.Num (inject_Z (2 ^ 53 - 1))).
  { rewrite Hlabel. vm_compute. reflexivity. }
  split; [exact Hlabel |]. split; [exact H |].
  intros Hall. specialize (Hall (2 ^ 53) ltac:(lia)).
  rewrite H in Hall. discriminate Hall.
Qed.

(** C10.  Decoding the label of a zero-based column index below [2^53]
    returns the index: [letterToColumn (columnToLetter c) = c] for every
    integer [0 <= c < 2^53], the range in which the doubles of the two
    loops are exact. *)
Theorem letterToColumn_columnToLetter (c : Z) :
  0 <= c < 2 ^ 53 ->
  letterToColumn (columnToLetter c) = Number.Num (inject_Z c).
Proof.
  intros H. unfold letterToColumn, columnToLetter.
  rewrite (letterToColumn_columnToLetter_loop (Z.to_nat (c + 1))) by lia.
  cbn [letterToColumn_loop]. unfold Double.sub. cbn [Number.sub Number.neg Number.add Double.rounded].
  apply round_integer; [| lia].
  rewrite inject_Z_plus. change (inject_Z 1) with 1%Q. ring.
Qed.

Lemma letterToColumn_columnToLetter_witness :
  0 <= 701 < 2 ^ 53 /\
  letterToColumn (columnToLetter 701) = Number.Num (inject_Z 701).
Proof.
  split; [lia | apply (letterToColumn_columnToLetter 701); lia].
Defined.

End CellUtilsFacts.

(* --------------------------------------------------------------------- *)
(** ** Action tracker                                                     *)
(* --------------------------------------------------------------------- *)

Section ActionTrackerFacts.

Import ActionTracker Samples.

Example tracker_functions :
  getFunctionsUsed
    [sample_action 0 "=SUM(A1:A3)"; sample_action 1500 "=SUM(A1:A3)";
     sample_action 4000 "=IF(SUM(B1:B3)>0,VLOOKUP(A1,C1:D9,2),0)"] =
  ["SUM"; "IF"; "VLOOKUP"]%string.
Proof. reflexivity. Qed.

Lemma perform_query (this : tracker) (c : call) :
  writes c = false -> fst (perform this c) = this.
Proof. destruct c; cbn; congruence. Qed.

(** Without [clear], a run of calls only extends the log. *)
Lemma performAll_extends (calls : list call) :
  forall this,
    forallb (fun c => negb (isClear c)) calls = true ->
    exists added, performAll this calls = this ++ added.
Proof.
  induction calls as [| c calls IH]; intros this Hc.
  - exists []. cbn. now rewrite app_nil_r.
  - cbn [forallb] in Hc. apply andb_prop in Hc as [Hc1 Hc2].
    unfold performAll in *. cbn [fold_left].
    destruct (IH (fst (perform this c)) Hc2) as [added Hadded].
    rewrite Hadded.
    destruct c; cbn in Hc1 |- *; try discriminate; try (now exists added).
    exists (action :: added). unfold addAction.
    now rewrite <- app_assoc.
Qed.

(** C9, as stated, fails: [clear] is a public operation other than
    [addAction] and it removes every recorded action. *)
Lemma tracker_clear_removes :
  ~ (forall (this : tracker) (c : call),
        (forall action, c <> AddAction action) -> fst (perform this c) = this).
Proof.
  intros H.
  specialize (H [sample_action 0 "=SUM(A1:A3)"] Clear).
  cbn in H. discriminate H. intros action. discriminate.
Qed.

(** C9, amended.  Every public operation of the tracker other than
    [addAction] and [clear] leaves the action log unchanged; [addAction]
    appends its argument at the end and keeps the log before it, [clear]
    empties the log; in a run of calls without [clear] no recorded action
    is removed or changed (the log before the run is a prefix of the log
    after it); every operation is total, so none can fail. *)
Theorem tracker_append_only :
  (forall this c, writes c = false -> fst (perform this c) = this) /\
  (forall this action,
      fst (perform this (AddAction action)) = this ++ [action]) /\
  (forall this, fst (perform this Clear) = []) /\
  (forall this calls,
      forallb (fun c => negb (isClear c)) calls = true ->
      exists added, performAll this calls = this ++ added).
Proof.
  repeat split.
  - apply perform_query.
  - intros this calls. apply performAll_extends.
Qed.

Lemma tracker_append_only_witness :
  fst (perform [sample_action 0 "=SUM(A1:A3)"] GetFunctionsUsed) =
    [sample_action 0 "=SUM(A1:A3)"] /\
  exists added,
    performAll [sample_action 0 "=SUM(A1:A3)"]
               [GetTimeSpent; AddAction (sample_action 7 "=MAX(A1:A3)");
                GetFormulasUsed] =
    [sample_action 0 "=SUM(A1:A3)"] ++ added.
Proof.
  destruct tracker_append_only as (Hquery & _ & _ & Hrun).
  split.
  - apply Hquery. reflexivity.
  - apply Hrun. reflexivity.
Defined.

End ActionTrackerFacts.

(* --------------------------------------------------------------------- *)
(** ** Session state machine                                              *)
(* --------------------------------------------------------------------- *)

Section StateManagerFacts.

Import StateManager Spec Samples.

Lemma can_transition_successor (this : manager) (to : ExcelInterviewState) :
  can_transition this to = true <->
  successor (current_state (session this)) = Some to.
Proof.
  unfold can_transition.
  destruct (current_state (session this)), to; cbn; split; congruence.
Qed.

(** C6.  A call of [transition_to] whose target is not the single allowed
    successor of the current state (in particular every call made in the
    terminal state [conclusion]) resolves to [false] and leaves the
    manager as it was: [current_state], [state_history], [state_data],
    [end_time] and [total_duration] keep their values.  The call is a
    total function: it does not throw. *)
Theorem invalid_transition_rejected
        (this : manager) (new_state : ExcelInterviewState)
        (d : option TransitionData) (now : Clock) :
  (successor (current_state (session this)) <> Some new_state ->
   transition_to this new_state d now = (false, this)) /\
  (current_state (session this) = conclusion ->
   transition_to this new_state d now = (false, this)).
Proof.
  assert (H : successor (current_state (session this)) <> Some new_state ->
              transition_to this new_state d now = (false, this)).
  { intros Hs. unfold transition_to.
    destruct (can_transition this new_state) eqn:Hc; [| reflexivity].
    apply can_transition_successor in Hc. contradiction. }
  split; [exact H |].
  intros Hc. apply H. rewrite Hc. discriminate.
Qed.

Lemma invalid_transition_rejected_witness :
  transition_to fresh_manager practical_tasks None (ticking 2000)
  = (false, fresh_manager) /\
  transition_to concluded_manager introduction None (ticking 9000)
  = (false, concluded_manager).
Proof.
  split.
  - apply (proj1 (invalid_transition_rejected fresh_manager practical_tasks None
                                              (ticking 2000))).
    cbn. discriminate.
  - apply (proj2 (invalid_transition_rejected concluded_manager introduction None
                                              (ticking 9000))).
    reflexivity.
Defined.

Example walk_through_all_phases :
  toStates (session concluded_manager) =
  [conceptual_questions; practical_tasks; feedback_generation; conclusion] /\
  map transition_timestamp (state_history (session concluded_manager)) =
  [2000; 3000; 4000; 5000] /\
  end_time (session concluded_manager) = Some 5001 /\
  total_duration (session concluded_manager) = Some 4002.
Proof. repeat split. Qed.

(** A phase with no task is never complete, so [autoProgress] stays. *)
Example zero_total_never_completes :
  let this :=
    performAll (createExcelInterviewStateManager 7 (Some 2) (Some 0) 0)
      [TransitionTo conceptual_questions None (ticking 40000);
       TransitionTo practical_tasks None (ticking 50000)] in
  isCurrentStateComplete this 60000 = false /\
  autoProgress this (ticking 60000) = (false, this).
Proof. split; reflexivity. Qed.

Example autoProgress_waits_for_introduction :
  fst (autoProgress fresh_manager (ticking 20000)) = false /\
  fst (autoProgress fresh_manager (ticking 31000)) = true /\
  map trigger
      (state_history (session (snd (autoProgress fresh_manager (ticking 31000))))) =
  ["auto_progress"%string] /\
  map transition_timestamp
      (state_history (session (snd (autoProgress fresh_manager (ticking 31000))))) =
  [31001].
Proof. repeat split. Qed.

(** *** The history of a reachable session *)

Lemma updateStateData_current_state s new_state d now :
  current_state (updateStateData s new_state d now) = current_state s.
Proof. unfold updateStateData. destruct new_state, d; reflexivity. Qed.

Lemma updateStateData_state_history s new_state d now :
  state_history (updateStateData s new_state d now) = state_history s.
Proof. unfold updateStateData. destruct new_state, d; reflexivity. Qed.

Lemma executeStateCallbacks_none (this : manager) state s :
  (forall st, stateTransitionCallbacks this st = []) ->
  executeStateCallbacks this state s = s.
Proof. intros H. unfold executeStateCallbacks. now rewrite H. Qed.

Lemma last_cons {A : Type} (l : list A) :
  forall x d, last (x :: l) d = last l x.
Proof.
  induction l as [| y l IH]; intros x d; [reflexivity |].
  change (last (x :: y :: l) d) with (last (y :: l) d).
  now rewrite !IH.
Qed.

Lemma chained_snoc (history : list StateTransition) :
  forall previous entry,
    chained previous history ->
    from_state entry = lastState previous history ->
    chained previous (history ++ [entry]).
Proof.
  induction history as [| e history IH]; intros previous entry Hc Hf.
  - cbn in *. auto.
  - cbn [chained app] in *. destruct Hc as [He Hc]. split; [exact He |].
    apply IH; [exact Hc |].
    rewrite Hf. unfold lastState. cbn [map]. apply last_cons.
Qed.

Lemma lastState_snoc initial history entry :
  lastState initial (history ++ [entry]) = to_state entry.
Proof. unfold lastState. rewrite map_app. cbn [map]. apply last_last. Qed.

(** A successful transition of a well-formed manager. *)
Lemma transition_to_wellFormed (this : manager) new_state d now :
  wellFormed this -> wellFormed (snd (transition_to this new_state d now)).
Proof.
  intros (Hcb & Hcur & Hto & Hch). unfold transition_to.
  destruct (can_transition this new_state) eqn:Hc; [| repeat split; assumption].
  apply can_transition_successor in Hc.
  cbn [negb snd]. rewrite !executeStateCallbacks_none by assumption.
  unfold wellFormed, toStates. cbn [session stateTransitionCallbacks].
  rewrite updateStateData_current_state, updateStateData_state_history.
  cbn [current_state state_history].
  split; [exact Hcb |]. split; [now rewrite lastState_snoc |]. split.
  - rewrite map_app. unfold toStates in Hto. rewrite Hto. cbn [map to_state].
    destruct (current_state (session this)); cbn in Hc; inversion Hc; reflexivity.
  - apply chained_snoc; [exact Hch |]. cbn [from_state]. exact Hcur.
Qed.

Lemma perform_wellFormed (this : manager) (c : call) :
  wellFormed this -> wellFormed (snd (perform this c)).
Proof.
  intros H. destruct c as [new_state d now | now]; cbn [perform].
  - now apply transition_to_wellFormed.
  - unfold autoProgress.
    destruct (isCurrentStateComplete this (now 0%nat)); [| exact H]. cbn [negb].
    destruct (getNextState this); [| exact H].
    now apply transition_to_wellFormed.
Qed.

Lemma performAll_wellFormed (calls : list call) :
  forall this, wellFormed this -> wellFormed (performAll this calls).
Proof.
  induction calls as [| c calls IH]; intros this H; [exact H |].
  unfold performAll in *. cbn [fold_left]. apply IH.
  now apply perform_wellFormed.
Qed.

Lemma created_wellFormed responseId totalQuestions totalTasks now :
  wellFormed (createExcelInterviewStateManager responseId totalQuestions totalTasks now).
Proof. repeat split. Qed.

(** C2, as stated, fails: the first entry of the history records the
    move out of [introduction], so its [to_state] is
    [conceptual_questions] and the sequence of [to_state] values is not
    a prefix of the five phases. *)
Lemma toStates_not_prefix_of_phases :
  ~ (forall calls,
        isPrefixOf
          (toStates (session (performAll fresh_manager calls))) phases).
Proof.
  intros H.
  specialize (H [TransitionTo conceptual_questions None (ticking 2000)]).
  destruct H as [rest H]. cbn in H. discriminate H.
Qed.

(** C2, amended.  For every session reachable from a freshly created one
    by any sequence of [transition_to] and [autoProgress] calls, the
    initial state [introduction] followed by the [to_state] values of
    [state_history] is a prefix of [introduction, conceptual_questions,
    practical_tasks, feedback_generation, conclusion] (so the [to_state]
    values themselves are a prefix of the last four), and each entry's
    [from_state] equals the previous entry's [to_state], or the initial
    state for the first entry. *)
Theorem history_follows_phases
        (responseId : Z) (totalQuestions totalTasks : option Z) (now : Z)
        (calls : list call) :
  let s := session (performAll
             (createExcelInterviewStateManager responseId totalQuestions
                totalTasks now) calls) in
  isPrefixOf (introduction :: toStates s) phases /\
  isPrefixOf (toStates s) (tl phases) /\
  chained introduction (state_history s).
Proof.
  intros s.
  destruct (performAll_wellFormed calls _
              (created_wellFormed responseId totalQuestions totalTasks now))
    as (_ & _ & Hto & Hch).
  fold s in Hto, Hch.
  assert (Hp : isPrefixOf (toStates s) (tl phases)).
  { rewrite Hto.
    exists (skipn (stateIndex (current_state s)) (tl phases)).
    apply firstn_skipn. }
  split; [| split; assumption].
  destruct Hp as [rest Hp]. exists rest. cbn [app]. now rewrite Hp.
Qed.

End StateManagerFacts.

(* --------------------------------------------------------------------- *)
(** ** Grid differ: accuracy                                              *)
(* --------------------------------------------------------------------- *)

Section Folds.

Context {S A B : Type}.

Lemma fold_left_pointwise (f g : S -> A -> S) (l : list A) :
  (forall st x, f st x = g st x) ->
  forall init, fold_left f l init = fold_left g l init.
Proof.
  intros H. induction l as [| x l IH]; intros init; cbn; [reflexivity |].
  now rewrite H, IH.
Qed.

Lemma fold_left_through_map (f : S -> B -> S) (h : A -> B) (l : list A) :
  forall init,
    fold_left f (map h l) init = fold_left (fun st x => f st (h x)) l init.
Proof. induction l as [| x l IH]; intros init; cbn; [reflexivity | apply IH]. Qed.

Lemma fold_left_through_flat_map (f : S -> B -> S) (g : A -> list B) (l : list A) :
  forall init,
    fold_left f (flat_map g l) init =
    fold_left (fun st x => fold_left f (g x) st) l init.
Proof.
  induction l as [| x l IH]; intros init; cbn; [reflexivity |].
  now rewrite fold_left_app, IH.
Qed.

End Folds.

Section AccuracyFacts.

Import SpreadsheetAnalyzer Spec Samples.

Variables actual expected : SpreadsheetData.

Lemma gradeCell_grade i r c actualSheet expectedSheet expectedRow st :
  nth_error (sheets actual) i = Some actualSheet ->
  nth_error (sheets expected) i = Some expectedSheet ->
  nth_error (data expectedSheet) r = Some expectedRow ->
  gradeCell actualSheet expectedRow r c st = grade actual expected st (i, r, c).
Proof.
  intros Ha He Hr. unfold gradeCell, grade, hasSheet, isCorrect, valueAt, cellAt.
  cbn [fst]. rewrite Ha, He, Hr. destruct st as [total correct]. cbn [fst snd].
  destruct (nth_error expectedRow c) as [[expectedCell |] |]; cbn; try reflexivity.
  destruct (v expectedCell) as [expected_v |]; cbn; [| reflexivity].
  destruct (nth_error (data actualSheet) r) as [actualRow |]; cbn; [| reflexivity].
  destruct (nth_error actualRow c) as [[actualCell |] |]; cbn; try reflexivity.
  destruct (v actualCell) as [actual_v |]; cbn; [| reflexivity].
  destruct (strictEquals actual_v expected_v); reflexivity.
Qed.

Lemma gradeSheet_grade i actualSheet expectedSheet st :
  nth_error (sheets actual) i = Some actualSheet ->
  nth_error (sheets expected) i = Some expectedSheet ->
  gradeSheet actualSheet expectedSheet st =
  fold_left (grade actual expected) (sheetPositions i expectedSheet) st.
Proof.
  intros Ha He. unfold gradeSheet, sheetPositions, for_range.
  rewrite fold_left_through_flat_map.
  generalize (seq 0 (length (data expectedSheet))) as rows. intros rows.
  revert st. induction rows as [| r rows IH]; intros st; cbn [fold_left];
    [reflexivity |].
  rewrite <- IH. f_equal.
  destruct (nth_error (data expectedSheet) r) as [expectedRow |] eqn:Hr;
    [| reflexivity].
  rewrite fold_left_through_map. apply fold_left_pointwise.
  intros st' c. now apply (gradeCell_grade i r c actualSheet expectedSheet).
Qed.

Lemma grade_without_sheet i expectedSheet :
  nth_error (sheets actual) i = None ->
  forall st, fold_left (grade actual expected) (sheetPositions i expectedSheet) st = st.
Proof.
  intros Ha. unfold sheetPositions.
  generalize (seq 0 (length (data expectedSheet))) as rows.
  induction rows as [| r rows IH]; intros st; cbn [flat_map fold_left];
    [reflexivity |].
  rewrite fold_left_app, IH.
  destruct (nth_error (data expectedSheet) r) as [row |]; [| reflexivity].
  generalize (seq 0 (length row)) as cols.
  induction cols as [| c cols IHc]; cbn [map fold_left]; [reflexivity |].
  unfold grade at 2, hasSheet. cbn [fst]. rewrite Ha. cbn [andb]. exact IHc.
Qed.

Lemma countCells_grade :
  countCells actual expected = fold_left (grade actual expected) (positions expected) (O, O).
Proof.
  unfold countCells, positions, for_range.
  rewrite fold_left_through_flat_map.
  generalize (O, O) as st.
  generalize (seq 0 (length (sheets expected))) as indices.
  induction indices as [| i indices IH]; intros st; cbn [fold_left];
    [reflexivity |].
  rewrite <- IH. f_equal.
  destruct (nth_error (sheets expected) i) as [expectedSheet |] eqn:He;
    [| reflexivity].
  destruct (nth_error (sheets actual) i) as [actualSheet |] eqn:Ha.
  - now apply gradeSheet_grade.
  - symmetry. now apply grade_without_sheet.
Qed.

(** Folding [grade] counts the graded and the correct positions. *)
Lemma fold_grade_counts (ps : list position) :
  forall st,
    fold_left (grade actual expected) ps st =
    (fst st + length (filter (hasSheet actual)
                        (filter (fun p => isDefined (valueAt expected p)) ps)),
     snd st + length (filter (isCorrect actual expected)
                        (filter (hasSheet actual)
                           (filter (fun p => isDefined (valueAt expected p)) ps))))%nat.
Proof.
  induction ps as [| p ps IH]; intros [total correct]; cbn [fold_left filter].
  - cbn. f_equal; lia.
  - rewrite IH. unfold grade.
    destruct (isDefined (valueAt expected p)); cbn [filter];
      destruct (hasSheet actual p); cbn [andb filter fst snd];
      try (f_equal; lia).
    destruct (isCorrect actual expected p); cbn [length fst snd]; f_equal; lia.
Qed.

Lemma countCells_counts :
  countCells actual expected =
  (length (gradedCellsIn actual expected),
   length (filter (isCorrect actual expected) (gradedCellsIn actual expected))).
Proof. rewrite countCells_grade, fold_grade_counts. reflexivity. Qed.

End AccuracyFacts.

Section AccuracyTheorem.

Import SpreadsheetAnalyzer Spec Samples.

Lemma ratio_bounds (correct graded : nat) :
  (correct <= graded)%nat -> (0 < graded)%nat ->
  (0 <= inject_Z (Z.of_nat correct) / inject_Z (Z.of_nat graded) <= 1)%Q.
Proof.
  intros Hle Hpos.
  assert (Hg : (0 < inject_Z (Z.of_nat graded))%Q).
  { change 0%Q with (inject_Z 0). rewrite <- Zlt_Qlt. lia. }
  assert (Hc : (0 <= inject_Z (Z.of_nat correct))%Q).
  { change 0%Q with (inject_Z 0). rewrite <- Zle_Qle. lia. }
  assert (Hcg : (inject_Z (Z.of_nat correct) <= inject_Z (Z.of_nat graded))%Q).
  { rewrite <- Zle_Qle. lia. }
  split.
  - apply Qle_shift_div_l; [exact Hg |]. now rewrite Qmult_0_l.
  - apply Qle_shift_div_r; [exact Hg |]. now rewrite Qmult_1_l.
Qed.

(** The two roundings of [(correct / graded) * 100] keep the result
    between 0 and 100 and within [2^-45] of the exact percentage. *)
Lemma percentage_rounding (correct graded : nat) :
  (correct <= graded)%nat -> (0 < graded)%nat ->
  let exact := (inject_Z (Z.of_nat correct) / inject_Z (Z.of_nat graded))%Q in
  let rounded := Double.nearest (Double.nearest exact * 100) in
  (0 <= rounded <= 100)%Q /\
  (Qabs (rounded - 100 * exact) <= 1 # 2 ^ 45)%Q.
Proof.
  intros Hle Hpos exact rounded.
  destruct (ratio_bounds correct graded Hle Hpos) as (H0 & H1). fold exact in H0, H1.
  assert (Habs : (Qabs exact < Double.pow2 1)%Q).
  { rewrite Qabs_pos by exact H0. change (Double.pow2 1) with 2%Q. lra. }
  assert (Habs53 : (Qabs exact < Double.pow2 53)%Q).
  { apply Qlt_le_trans with (Double.pow2 1); [exact Habs | apply pow2_le; lia]. }
  destruct (nearest_between_integers exact 0 1 Habs53 H0 H1) as (Hq0 & Hq1).
  change (inject_Z 0) with 0%Q in Hq0. change (inject_Z 1) with 1%Q in Hq1.
  set (quotient := Double.nearest exact) in *.
  assert (Hp0 : (inject_Z 0 <= quotient * 100)%Q).
  { change (inject_Z 0) with 0%Q. lra. }
  assert (Hp1 : (quotient * 100 <= inject_Z 100)%Q).
  { change (inject_Z 100) with 100%Q. lra. }
  assert (Hpabs : (Qabs (quotient * 100) < Double.pow2 7)%Q).
  { rewrite Qabs_pos by exact Hp0. change (Double.pow2 7) with 128%Q.
    change (inject_Z 100) with 100%Q in Hp1. lra. }
  assert (Hpabs53 : (Qabs (quotient * 100) < Double.pow2 53)%Q).
  { apply Qlt_le_trans with (Double.pow2 7); [exact Hpabs | apply pow2_le; lia]. }
  destruct (nearest_between_integers _ 0 100 Hpabs53 Hp0 Hp1) as (Hr0 & Hr1).
  fold rounded in Hr0, Hr1.
  change (inject_Z 0) with 0%Q in Hr0. change (inject_Z 100) with 100%Q in Hr1.
  split; [split; assumption |].
  pose proof (nearest_error_below exact 1 Habs ltac:(lia)) as He1.
  pose proof (nearest_error_below _ 7 Hpabs ltac:(lia)) as He2.
  fold quotient in He1. fold rounded in He2.
  assert (Hc1 : (Double.pow2 (1 - 54) == 1 # 2 ^ 53)%Q) by reflexivity.
  assert (Hc2 : (Double.pow2 (7 - 54) == 1 # 2 ^ 47)%Q) by reflexivity.
  rewrite Hc1 in He1. rewrite Hc2 in He2.
  apply Qabs_Qle_condition in He1. apply Qabs_Qle_condition in He2.
  apply Qabs_Qle_condition.
  change (1 # 2 ^ 53)%Q with (1 # 9007199254740992)%Q in He1.
  change (1 # 2 ^ 47)%Q with (1 # 140737488355328)%Q in He2.
  change (1 # 2 ^ 45)%Q with (1 # 35184372088832)%Q.
  split; lra.
Qed.

(** The accuracy lies between 0 and 100. *)
Lemma calculateAccuracy_range (actual expected : SpreadsheetData) :
  (0 <= calculateAccuracy actual expected <= 100)%Q.
Proof.
  unfold calculateAccuracy. rewrite countCells_counts.
  set (graded := gradedCellsIn actual expected).
  set (correct := filter (isCorrect actual expected) graded).
  assert (Hle : (length correct <= length graded)%nat) by apply filter_length_le.
  destruct (length graded) as [| n] eqn:Hn.
  - cbn. split; discriminate.
  - cbn [Nat.ltb Nat.leb]. apply percentage_rounding; lia.
Qed.

(** C1, as stated, fails twice.  A cell of [expected] with a defined
    value is not graded when it lies in a sheet that [final] does not
    have: with two expected sheets of one cell each and a [final] that
    has the first sheet only, with the right value, the program grades
    one cell and returns 100, where one correct cell out of two graded
    cells is 50.  And the percentage is computed in doubles: with 57
    correct cells out of 100 graded cells the quotient 0.57 is rounded
    and its product with 100 is the double below 57,
    56.99999999999999 (8022036836253695 / 2^47). *)
Lemma accuracy_not_as_stated :
  ~ (forall final expected,
        calculateAccuracy final expected == accuracy_as_stated final expected)%Q /\
  ~ (forall final expected,
        calculateAccuracy final expected ==
        accuracy_of_shared_sheets final expected)%Q /\
  (accuracy_as_stated final_57_right expected_hundred == 57)%Q /\
  calculateAccuracy final_57_right expected_hundred =
  (8022036836253695 # 140737488355328)%Q.
Proof.
  assert (H57 : calculateAccuracy final_57_right expected_hundred =
                (8022036836253695 # 140737488355328)%Q) by (vm_compute; reflexivity).
  split; [| split; [| split]].
  - intros H. specialize (H final_one_sheet expected_two_sheets).
    vm_compute in H. discriminate H.
  - intros H. specialize (H final_57_right expected_hundred).
    rewrite H57 in H. vm_compute in H. discriminate H.
  - vm_compute. reflexivity.
  - exact H57.
Qed.

(** C1, amended.  For every final and expected snapshot, the accuracy is
    the percentage of correct cells among the graded cells as the
    program's doubles give it: the quotient of the number of graded
    cells whose value in [final] is exactly equal to the expected value
    by the number of graded cells is rounded to a double, and so is its
    product with 100.  A graded cell is a cell of [expected] with a
    defined value in a sheet that [final] also has.  The accuracy is 0
    when there is no graded cell, it differs from the exact percentage
    by at most [2^-45], and [0 <= accuracy <= 100] for all snapshot
    pairs. *)
Theorem calculateAccuracy_spec (final expected : SpreadsheetData) :
  calculateAccuracy final expected = accuracy_in_doubles final expected /\
  (gradedCellsIn final expected = [] -> calculateAccuracy final expected = 0%Q) /\
  (Qabs (calculateAccuracy final expected -
         accuracy_of_shared_sheets final expected) <= 1 # 2 ^ 45)%Q /\
  (0 <= calculateAccuracy final expected <= 100)%Q.
Proof.
  unfold calculateAccuracy, accuracy_in_doubles, accuracy_of_shared_sheets,
    percentage_in_doubles, percentage.
  rewrite countCells_counts.
  set (graded := gradedCellsIn final expected).
  set (correct := filter (isCorrect final expected) graded).
  assert (Hle : (length correct <= length graded)%nat) by apply filter_length_le.
  destruct (length graded) as [| n] eqn:Hn.
  - cbn. split; [reflexivity |]. split; [reflexivity |]. split; [| split]; discriminate.
  - cbn [Nat.ltb Nat.leb Nat.eqb].
    destruct (percentage_rounding (length correct) (S n) Hle ltac:(lia))
      as (Hrange & Herr).
    cbv zeta in Hrange, Herr.
    split; [reflexivity |].
    split; [intros Hnone; rewrite Hnone in Hn; discriminate Hn |].
    split; [| exact Hrange].
    assert (He : (100 * inject_Z (Z.of_nat (length correct)) / inject_Z (Z.of_nat (S n)) ==
                  100 * (inject_Z (Z.of_nat (length correct)) / inject_Z (Z.of_nat (S n))))%Q).
    { field. change 0%Q with (inject_Z 0). rewrite inject_Z_injective. lia. }
    rewrite He. exact Herr.
Qed.

End AccuracyTheorem.

(* --------------------------------------------------------------------- *)
(** ** Task evaluator: best-practices score                               *)
(* --------------------------------------------------------------------- *)

Section BestPracticesFacts.

Import ActionTracker TaskEvaluator Spec Samples.










End BestPracticesFacts.

(* --------------------------------------------------------------------- *)
(** ** Skill-level recommendation                                         *)
(* --------------------------------------------------------------------- *)

Section RecommendationFacts.

Import ExcelSkillLevelUtils ExcelSkillConfigService ExcelAnalyticsService.
Import Spec Samples.

Lemma not_excellent_and_poor (score : Q) :
  Qltb 85 score = true -> Qltb score 60 = true -> False.
Proof.
  rewrite !Qltb_true. intros H1 H2.
  pose proof (Qlt_trans _ _ _ H1 H2) as H. discriminate H.
Qed.

Lemma find_hasConfig configs level :
  hasConfig configs level = true <->
  exists c, find (fun c => level_eqb (skill_level c) level) configs = Some c.
Proof.
  unfold hasConfig. induction configs as [| c configs IH]; cbn.
  - split; [discriminate | intros [c H]; discriminate].
  - destruct (level_eqb (skill_level c) level); cbn.
    + split; [intros _; now exists c | reflexivity].
    + exact IH.
Qed.

Example readiness_uses_thresholds :
  map (fun level => readinessForNextLevel level 80) [basic; intermediate; advanced] =
  [true; true; false].
Proof. reflexivity. Qed.

(** C4, as stated, fails: at level [basic] an overall score of 80 meets
    the readiness threshold 75, yet the recommendation stays [basic]; the
    program does not consult the threshold table here. *)
Lemma recommendation_ignores_threshold :
  ~ (forall configs level score functionsUsed,
        getRecommendedLevel configs level score functionsUsed =
        recommended_as_stated level score).
Proof.
  intros H. specialize (H all_configs basic 80%Q ["VLOOKUP"%string]).
  vm_compute in H. discriminate H.
Qed.

(** C4, amended.  For every current skill level and overall score, the
    recommended level is the current level, the next one or the previous
    one: it never moves more than one level in a single assessment.  It
    advances exactly one level when the configuration table has a row for
    the current level, the score is above 85 and the candidate used
    advanced functions (at least one at [basic], at least three at
    [intermediate]); it steps down one level when the table has the row,
    the score is below 60 and the current level is not [basic]; otherwise
    it holds at the current level. *)
Theorem recommended_level_spec
        (configs : list ExcelSkillConfig) (level : ExcelSkillLevel)
        (score : Q) (functionsUsed : list string) :
  let r := getRecommendedLevel configs level score functionsUsed in
  let n := advancedCount functionsUsed in
  (r = level \/ Some r = getNextLevel level \/ Some r = getPreviousLevel level) /\
  (Some r = getNextLevel level <->
   hasConfig configs level = true /\ (85 < score)%Q /\
   (level = basic /\ (1 <= n)%nat \/ level = intermediate /\ (3 <= n)%nat)) /\
  (Some r = getPreviousLevel level <->
   hasConfig configs level = true /\ (score < 60)%Q /\ level <> basic).
Proof.
  intros r n. subst r. unfold getRecommendedLevel.
  fold (advancedCount functionsUsed). fold n.
  destruct (hasConfig configs level) eqn:Hcfg.
  - apply find_hasConfig in Hcfg as [c Hc]. rewrite Hc.
    destruct (Qltb 85 score) eqn:H85; destruct (Qltb score 60) eqn:H60;
      try (exfalso; exact (not_excellent_and_poor _ H85 H60));
      repeat match goal with
             | H : Qltb _ _ = true |- _ => apply Qltb_true in H
             | H : Qltb _ _ = false |- _ => apply Qltb_false in H
             end;
      destruct level; cbn [level_eqb andb];
      try destruct (Nat.ltb_spec 0 n); try destruct (Nat.ltb_spec 2 n);
      cbn; (split; [| split; split]);
      try (intuition (try congruence; try lia; try discriminate)).
  - assert (Hnone : find (fun c => level_eqb (skill_level c) level) configs = None).
    { destruct (find _ configs) eqn:Hf; [| reflexivity].
      assert (hasConfig configs level = true) by (apply find_hasConfig; eauto).
      congruence. }
    rewrite Hnone. split; [now left |].
    split; split; try (intros (Hfalse & _); discriminate);
      destruct level; cbn; discriminate.
Qed.

End RecommendationFacts.

(* --------------------------------------------------------------------- *)
(** ** Analytics aggregation                                              *)
(* --------------------------------------------------------------------- *)

Section AnalyticsFacts.

Import ExcelEvaluationService Spec Samples.

Variable sqrtQ : Q -> Q.

Example fallback_feedback :
  overall_feedback
    (fst (generateExcelAnalytics sqrtQ (mkWorld sample_inputs [all_configs] []))) =
  "You demonstrated intermediate level Excel skills with an overall score of 83%. Continue practicing to improve your proficiency."%string.
Proof. reflexivity. Qed.

(** The report is a function of the arguments and of the two answers the
    call receives. *)
Lemma report_depends_on_answers (w w' : World) :
  caller w = caller w' ->
  configAnswer w = configAnswer w' ->
  completionAnswer w = completionAnswer w' ->
  fst (generateExcelAnalytics sqrtQ w) = fst (generateExcelAnalytics sqrtQ w').
Proof.
  destruct w as [args configs replies], w' as [args' configs' replies'].
  unfold configAnswer, completionAnswer. cbn [caller config_answers completions].
  intros -> Hc Hr.
  unfold generateExcelAnalytics, assessSkillLevel, getRecommendedLevel,
    generateOverallFeedback, bind, ret, inputs, getAllConfigs,
    chat_completions_create.
  cbn [caller config_answers completions].
  destruct configs as [| cfg configs], configs' as [| cfg' configs'];
    destruct replies as [| reply replies], replies' as [| reply' replies'];
    subst; reflexivity.
Qed.

(** A call leaves the objects of the caller as they were. *)
Lemma generateExcelAnalytics_reads_only (w : World) :
  caller (snd (generateExcelAnalytics sqrtQ w)) = caller w.
Proof.
  destruct w as [args configs replies].
  unfold generateExcelAnalytics, assessSkillLevel, getRecommendedLevel,
    generateOverallFeedback, bind, ret, inputs, getAllConfigs,
    chat_completions_create.
  cbn [caller config_answers completions].
  destruct configs as [| cfg configs]; destruct replies as [| reply replies];
    reflexivity.
Qed.

Lemma twice_unfold (w : World) :
  twice sqrtQ w =
  let w1 := snd (generateExcelAnalytics sqrtQ w) in
  ((fst (generateExcelAnalytics sqrtQ w), fst (generateExcelAnalytics sqrtQ w1)),
   snd (generateExcelAnalytics sqrtQ w1)).
Proof.
  unfold twice, bind, ret.
  destruct (generateExcelAnalytics sqrtQ w) as [first w1]. cbn [fst snd].
  destruct (generateExcelAnalytics sqrtQ w1) as [second w2]. reflexivity.
Qed.

End AnalyticsFacts.

Section AnalyticsTheorem.

Import ExcelEvaluationService Spec Samples.

(** C5, as stated, fails: the report contains the text that the external
    text evaluator returns, and the evaluator may answer the same request
    differently.  Two calls with the same arguments then return reports
    with different [overall_feedback], whatever the square root is. *)
Lemma reports_differ_with_evaluator :
  ~ (exists sqrtQ, forall w,
        fst (fst (twice sqrtQ w)) = snd (fst (twice sqrtQ w))).
Proof.
  intros [sqrtQ H]. specialize (H varying_world).
  apply (f_equal overall_feedback) in H.
  discriminate H.
Qed.

(** C5, amended.  Two calls of the analytics aggregation with identical
    inputs (same skill level, conceptual progress, practical progress,
    task results and total duration) that receive identical answers from
    the two external services (the skill-configuration table and the text
    evaluator) produce identical reports; and no call changes the
    progress or task-result values it reads. *)
Theorem analytics_repeatable (sqrtQ : Q -> Q) (w : World) :
  let first := generateExcelAnalytics sqrtQ w in
  let second := generateExcelAnalytics sqrtQ (snd first) in
  twice sqrtQ w = ((fst first, fst second), snd second) /\
  caller (snd first) = caller w /\
  caller (snd second) = caller w /\
  (configAnswer (snd first) = configAnswer w ->
   completionAnswer (snd first) = completionAnswer w ->
   fst second = fst first).
Proof.
  intros first second. subst first second.
  split; [apply twice_unfold |].
  split; [apply generateExcelAnalytics_reads_only |].
  split.
  - now rewrite !generateExcelAnalytics_reads_only.
  - intros Hc Hr. apply report_depends_on_answers; try assumption.
    apply generateExcelAnalytics_reads_only.
Qed.

Lemma analytics_repeatable_witness :
  fst (generateExcelAnalytics approx_sqrt
         (snd (generateExcelAnalytics approx_sqrt steady_world))) =
  fst (generateExcelAnalytics approx_sqrt steady_world).
Proof.
  apply (proj2 (proj2 (proj2 (analytics_repeatable approx_sqrt steady_world))));
    reflexivity.
Defined.

End AnalyticsTheorem.

(* --------------------------------------------------------------------- *)
(** ** Grid differ: changed cells                                         *)
(* --------------------------------------------------------------------- *)

Section ChangedCellsFacts.

Import SpreadsheetAnalyzer Spec Samples.

Lemma compareCell_refs initialSheet finalSheet r c st :
  refs (fst (compareCell initialSheet finalSheet r c st)) =
  refs (fst st) ++
  (if differs (data initialSheet) (data finalSheet) (r, c)
   then [getCellReference r c] else []).
Proof.
  unfold compareCell, differs, refs. destruct st as [changes formulas].
  cbn [fst snd].
  destruct (serialized_differ _ _).
  - destruct (slot_f _) as [[| ch tl] |]; cbn [fst];
      now rewrite map_app.
  - cbn [fst]. now rewrite app_nil_r.
Qed.

(** The changes that comparing two sheets records are the differing
    positions of the rectangle the two loops walk. *)
Lemma compareSheet_refs initialSheet finalSheet st :
  refs (fst (compareSheet initialSheet finalSheet st)) =
  refs (fst st) ++
  map (fun rc => getCellReference (fst rc) (snd rc))
      (filter (differs (data initialSheet) (data finalSheet))
              (walked (data initialSheet) (data finalSheet))).
Proof.
  unfold compareSheet, walked, rectangle, for_range.
  generalize (Nat.max (firstRowLength (data initialSheet))
                      (firstRowLength (data finalSheet))) as cols.
  generalize (seq 0 (Nat.max (length (data initialSheet))
                             (length (data finalSheet)))) as rows.
  intros rows cols. revert st.
  induction rows as [| r rows IH]; intros st; cbn [fold_left flat_map].
  - cbn. now rewrite app_nil_r.
  - rewrite IH. rewrite filter_app, map_app, app_assoc. f_equal.
    generalize (seq 0 cols) as columns. intros columns. revert st.
    induction columns as [| c columns IHc]; intros st; cbn [fold_left map filter].
    + now rewrite app_nil_r.
    + rewrite IHc, compareCell_refs, <- app_assoc. f_equal.
      cbn [fst snd]. destruct (differs _ _ (r, c)); reflexivity.
Qed.

Lemma widest_firstRow (g : Grid) :
  Forall (fun row => length row <= firstRowLength g)%nat g ->
  widest g = firstRowLength g.
Proof.
  destruct g as [| row0 rest]; [reflexivity |].
  unfold widest, firstRowLength. cbn [nth_error map fold_right].
  intros H. inversion H as [| ? ? _ Hrest]; subst. clear H.
  induction rest as [| row rest IH]; cbn [map fold_right]; [lia |].
  inversion Hrest; subst. specialize (IH ltac:(assumption)). lia.
Qed.

(** On grids in which no row is longer than the first one the program
    records exactly the cells C3 asks for. *)
Lemma compareSheet_rectangular initialSheet finalSheet :
  Forall (fun row => length row <= firstRowLength (data initialSheet))%nat
         (data initialSheet) ->
  Forall (fun row => length row <= firstRowLength (data finalSheet))%nat
         (data finalSheet) ->
  refs (fst (compareSheet initialSheet finalSheet ([], []))) =
  changed_as_stated (data initialSheet) (data finalSheet).
Proof.
  intros Hi Hf. rewrite compareSheet_refs. cbn [fst refs map app].
  unfold changed_as_stated, boundingRectangle, walked.
  now rewrite (widest_firstRow _ Hi), (widest_firstRow _ Hf).
Qed.

Example compare_with_itself :
  changedCells (compareSpreadsheets jagged_final jagged_final (Some jagged_final)) = [] /\
  (accuracy (compareSpreadsheets jagged_final jagged_final (Some jagged_final)) == 100)%Q.
Proof. split; reflexivity. Qed.

Example changed_first_column :
  refs (changedCells (compareSpreadsheets final_one_sheet
                        (mkSpreadsheet [one_sheet [[value_cell 5]]]) None)) =
  ["A1"%string].
Proof. reflexivity. Qed.

Example efficiency_bonus :
  calculateEfficiency (repeat (mkChange "A1" None None None) 15) ["=SUM(A1:A9)"%string] = 90 /\
  calculateEfficiency (repeat (mkChange "A1" None None None) 15)
    ["=INDEX(A1:A10,MATCH(1,B1:B10,0))"%string] = 100.
Proof. split; reflexivity. Qed.

(** C3 at a jagged grid.  The two snapshots differ in cell B2, which lies
    in the bounding rectangle (2 rows by 2 columns); the program takes
    the number of columns from the first rows (1), never examines B2 and
    reports no changed cell. *)
Theorem jagged_change_missed :
  changedCells (compareSpreadsheets jagged_initial jagged_final None) = [] /\
  changed_as_stated [[value_cell 1]; [value_cell 1; value_cell 2]]
                    [[value_cell 1]; [value_cell 1; value_cell 3]] =
  ["B2"%string].
Proof. split; reflexivity. Qed.

End ChangedCellsFacts.

(* ===================================================================== *)
(** * Part II, continued: further properties of the code                  *)
(* ===================================================================== *)

(* --------------------------------------------------------------------- *)
(** ** Cell references                                                    *)
(* --------------------------------------------------------------------- *)

Section CellReferenceFacts.

Import FormulaParser CellUtils CellReferences.

Example parseCellReference_samples :
  map parseCellReference ["A1"; "AB12"; "a1"; "A"; "12"; "A1:B2"; "A0"]%string =
  [Some (mkPosition (Number.Num 0) (Number.Num 0));
   Some (mkPosition (Number.Num 11) (Number.Num 27)); None; None; None; None;
   Some (mkPosition (Number.Num (-1)) (Number.Num 0))].
Proof. vm_compute. reflexivity. Qed.

Example isValidRange_samples :
  map isValidRange ["A1:B2"; "A1"; "A1:B"; "A1:B2:C3"; "AA10:ZZ99"]%string =
  [true; false; false; false; true].
Proof. reflexivity. Qed.

(** *** Texts *)

Lemma string_app_assoc (a b c : string) : ((a ++ b) ++ c = a ++ (b ++ c))%string.
Proof. induction a as [| x a IH]; cbn; [reflexivity | now rewrite IH]. Qed.

Lemma string_app_empty (a : string) : (a ++ "" = a)%string.
Proof. induction a as [| x a IH]; cbn; [reflexivity | now rewrite IH]. Qed.

Lemma allChars_app (p : ascii -> bool) (a b : string) :
  allChars p (a ++ b) = allChars p a && allChars p b.
Proof.
  induction a as [| x a IH]; cbn; [reflexivity |].
  rewrite IH. now rewrite andb_assoc.
Qed.

Lemma takeWhile_app (p : ascii -> bool) (a b : string) :
  allChars p a = true -> stopsAt p b -> takeWhile p (a ++ b)%string = a.
Proof.
  induction a as [| x a IH]; cbn; intros Ha Hb.
  - destruct b as [| c b]; cbn in *; [reflexivity | now rewrite Hb].
  - apply andb_prop in Ha as [Hx Ha]. rewrite Hx. now rewrite IH.
Qed.

Lemma dropWhile_app (p : ascii -> bool) (a b : string) :
  allChars p a = true -> stopsAt p b -> dropWhile p (a ++ b)%string = b.
Proof.
  induction a as [| x a IH]; cbn; intros Ha Hb.
  - destruct b as [| c b]; cbn in *; [reflexivity | now rewrite Hb].
  - apply andb_prop in Ha as [Hx Ha]. rewrite Hx. now apply IH.
Qed.

(** *** Column labels *)

Lemma isUpper_columnDigit (col : Z) : isUpper (columnDigit col) = true.
Proof.
  unfold isUpper, columnDigit, nat_of_ascii.
  pose proof (Z.mod_pos_bound col 26 ltac:(lia)) as Hm.
  rewrite N_ascii_embedding by lia.
  apply andb_true_intro. split; apply Nat.leb_le; lia.
Qed.

Lemma letterValue_upper (c : ascii) :
  isUpper c = true -> 1 <= letterValue c <= 26.
Proof.
  unfold isUpper, nat_of_ascii, letterValue. intros Hc.
  apply andb_prop in Hc as [Hlo Hhi].
  apply Nat.leb_le in Hlo. apply Nat.leb_le in Hhi. lia.
Qed.

Lemma columnDigit_letterValue (c : ascii) (v : Z) :
  isUpper c = true -> 0 <= v ->
  columnDigit (v * 26 + letterValue c - 1) = c /\
  (v * 26 + letterValue c - 1) / 26 = v.
Proof.
  unfold isUpper, nat_of_ascii, columnDigit, letterValue. intros Hc Hv.
  apply andb_prop in Hc as [Hlo Hhi].
  apply Nat.leb_le in Hlo. apply Nat.leb_le in Hhi.
  set (n := N_of_ascii c) in *.
  assert (Hq : (v * 26 + (Z.of_N n - 64) - 1) / 26 = v).
  { symmetry. apply (Z.div_unique _ 26 v (Z.of_N n - 65)); lia. }
  assert (Hr : (v * 26 + (Z.of_N n - 64) - 1) mod 26 = Z.of_N n - 65).
  { symmetry. apply (Z.mod_unique _ 26 v (Z.of_N n - 65)); lia. }
  split; [| exact Hq].
  rewrite Hr. replace (65 + (Z.of_N n - 65)) with (Z.of_N n) by lia.
  rewrite N2Z.id. apply ascii_N_embedding.
Qed.

(** One turn of the encoder below [2^53]. *)
Lemma columnToLetter_loop_turn (col : Z) (result : string) :
  0 <= col < 2 ^ 53 ->
  columnToLetter_loop col result =
  columnToLetter_loop (col / 26 - 1) (String (columnDigit col) result) /\
  -1 <= col / 26 - 1 < col.
Proof.
  intros H. rewrite columnToLetter_loop_nonneg, nextColumn_exact by lia.
  split; [reflexivity |].
  assert (Hdiv : 0 <= col / 26 <= col).
  { split; [apply Z.div_pos; lia | apply Z.div_le_upper_bound; lia]. }
  lia.
Qed.

(** The loop writes its letters in front of what it was given. *)
Lemma columnToLetter_loop_app (n : nat) :
  forall col result,
    col < 2 ^ 53 -> Z.to_nat (col + 1) = n ->
    columnToLetter_loop col result = (columnToLetter_loop col "" ++ result)%string.
Proof.
  induction n as [n IH] using lt_wf_ind. intros col result Hcol Hn.
  destruct (Z_lt_dec col 0) as [Hneg | Hpos].
  - now rewrite !columnToLetter_loop_neg by assumption.
  - destruct (columnToLetter_loop_turn col result ltac:(lia)) as (-> & Hnext).
    destruct (columnToLetter_loop_turn col "" ltac:(lia)) as (-> & _).
    rewrite (IH (Z.to_nat (col / 26 - 1 + 1)) ltac:(lia) (col / 26 - 1)
                (String _ result) ltac:(lia) eq_refl).
    rewrite (IH (Z.to_nat (col / 26 - 1 + 1)) ltac:(lia) (col / 26 - 1)
                (String _ "") ltac:(lia) eq_refl).
    now rewrite string_app_assoc.
Qed.

Lemma columnToLetter_upper (n : nat) :
  forall col,
    col < 2 ^ 53 -> Z.to_nat (col + 1) = n ->
    allChars isUpper (columnToLetter col) = true.
Proof.
  unfold columnToLetter.
  induction n as [n IH] using lt_wf_ind. intros col Hcol Hn.
  destruct (Z_lt_dec col 0) as [Hneg | Hpos].
  - now rewrite columnToLetter_loop_neg by assumption.
  - destruct (columnToLetter_loop_turn col "" ltac:(lia)) as (-> & Hnext).
    rewrite (columnToLetter_loop_app _ (col / 26 - 1) _ ltac:(lia) eq_refl), allChars_app.
    rewrite (IH (Z.to_nat (col / 26 - 1 + 1))) by lia.
    cbn. now rewrite isUpper_columnDigit.
Qed.

Lemma columnToLetter_nonempty (col : Z) :
  0 <= col < 2 ^ 53 -> columnToLetter col <> EmptyString.
Proof.
  intros H. unfold columnToLetter.
  destruct (columnToLetter_loop_turn col "" H) as (-> & Hnext).
  rewrite (columnToLetter_loop_app _ (col / 26 - 1) _ ltac:(lia) eq_refl).
  destruct (columnToLetter_loop (col / 26 - 1) ""); discriminate.
Qed.

(** Reading [letters] after [v] without rounding, and writing the label
    of what has been read: the loop reproduces the letters in front of
    [result].  The bound says that the number read stays below
    [(26^12 - 26) / 25], the number of the eleven-letter label of
    [Z]s, which is below [2^53]. *)
Lemma columnToLetter_letterToColumn_loop (letters : string) :
  forall v,
    allChars isUpper letters = true -> 0 <= v ->
    (25 * v + 26) * 26 ^ Z.of_nat (String.length letters) <= 26 ^ 12 ->
    exists read : Z,
      letterToColumn_loop (Number.Num (inject_Z v)) letters =
      Number.Num (inject_Z read) /\
      v <= read /\ 25 * read + 26 <= 26 ^ 12 /\
      forall result,
        columnToLetter_loop (read - 1) result =
        columnToLetter_loop (v - 1) (letters ++ result).
Proof.
  induction letters as [| c letters IH]; intros v Hup Hv Hbound.
  - exists v. cbn [String.length Z.of_nat] in Hbound.
    change (26 ^ 0) with 1 in Hbound.
    split; [reflexivity |]. split; [lia |]. split; [lia | reflexivity].
  - cbn [allChars] in Hup. apply andb_prop in Hup as [Hc Hup].
    pose proof (letterValue_upper c Hc) as Hval.
    cbn [String.length] in Hbound. rewrite Nat2Z.inj_succ, Z.pow_succ_r in Hbound by lia.
    set (rest := 26 ^ Z.of_nat (String.length letters)) in *.
    assert (Hrest : 1 <= rest) by (unfold rest; apply (Z.pow_le_mono_r 26 0); lia).
    set (next := v * 26 + letterValue c).
    assert (Hnext : (25 * next + 26) * rest <= 26 ^ 12).
    { apply Z.le_trans with ((25 * v + 26) * (26 * rest)); [| exact Hbound].
      unfold next. nia. }
    assert (Hsmall : 25 * next + 26 <= 26 ^ 12) by nia.
    assert (H53 : next < 2 ^ 53).
    { change (26 ^ 12) with 95428956661682176 in Hsmall.
      change (2 ^ 53) with 9007199254740992. lia. }
    destruct (IH next Hup ltac:(unfold next; lia) Hnext)
      as (read & Hread & Hle & Hbig & Hwrite).
    exists read. cbn [letterToColumn_loop].
    rewrite letterToColumn_step by (fold next; lia). fold next.
    split; [exact Hread |]. split; [unfold next in *; lia |]. split; [exact Hbig |].
    intros result. rewrite Hwrite.
    destruct (columnToLetter_loop_turn (next - 1) (letters ++ result)
                ltac:(unfold next in *; lia)) as (-> & _).
    destruct (columnDigit_letterValue c v Hc Hv) as [Hd Hq].
    fold next in Hd, Hq. now rewrite Hd, Hq.
Qed.

(** The decoder followed by the encoder gives back every text of at most
    eleven upper-case letters, the empty one included: the decoder
    reads it without rounding as an integer from -1 to below [2^53], and
    the label of that integer is the text. *)
Theorem columnToLetter_letterToColumn (letters : string) :
  allChars isUpper letters = true -> (String.length letters <= 11)%nat ->
  exists col : Z,
    -1 <= col < 2 ^ 53 /\
    letterToColumn letters = Number.Num (inject_Z col) /\
    columnToLetter col = letters.
Proof.
  intros Hup Hlen. unfold columnToLetter, letterToColumn.
  assert (Hbound : (25 * 0 + 26) * 26 ^ Z.of_nat (String.length letters) <= 26 ^ 12).
  { change (26 ^ 12) with (26 * 26 ^ 11).
    apply Z.mul_le_mono_nonneg_l; [lia |]. apply Z.pow_le_mono_r; lia. }
  destruct (columnToLetter_letterToColumn_loop letters 0 Hup ltac:(lia) Hbound)
    as (read & Hread & Hle & Hbig & Hwrite).
  change (inject_Z 0) with 0%Q in Hread.
  exists (read - 1). rewrite Hread.
  change (26 ^ 12) with 95428956661682176 in Hbig.
  change (2 ^ 53) with 9007199254740992.
  split; [lia |]. split.
  - unfold Double.sub. cbn [Number.sub Number.neg Number.add Double.rounded].
    apply round_integer.
    + unfold Z.sub. rewrite inject_Z_plus. reflexivity.
    + change (2 ^ 53) with 9007199254740992. lia.
  - rewrite Hwrite, columnToLetter_loop_neg by lia. apply string_app_empty.
Qed.

Lemma columnToLetter_letterToColumn_witness :
  allChars isUpper "XFD" = true /\ (String.length "XFD" <= 11)%nat /\
  exists col : Z,
    -1 <= col < 2 ^ 53 /\
    letterToColumn "XFD" = Number.Num (inject_Z col) /\
    columnToLetter col = "XFD"%string.
Proof.
  split; [reflexivity |]. split; [cbn; lia |].
  apply (columnToLetter_letterToColumn "XFD"); [reflexivity | cbn; lia].
Defined.

(** A text of twelve letters can be read with rounding: twelve [Z]s are
    read as a double above [2^53] whose label is another text. *)
Example columnToLetter_letterToColumn_twelve :
  letterToColumn "ZZZZZZZZZZZZ" = Number.Num (inject_Z 99246114928149472) /\
  columnToLetter 99246114928149472 = "AAAAAAAAAAAAK"%string.
Proof.
  split; [vm_compute; reflexivity |]. unfold columnToLetter.
  repeat
    match goal with
    | |- context [columnToLetter_loop ?c ?r] =>
        rewrite (columnToLetter_loop_nonneg c r) by lia;
        replace (nextColumn c) with (c / 26 - 1) by (vm_compute; reflexivity);
        let next := eval vm_compute in (c / 26 - 1) in
        change (c / 26 - 1) with next;
        let digit := eval vm_compute in (columnDigit c) in
        change (columnDigit c) with digit
    end.
  now rewrite columnToLetter_loop_neg by lia.
Qed.

(** *** Row numbers *)

Lemma allChars_digits (d : Decimal.uint) :
  allChars isDigit (NilEmpty.string_of_uint d) = true.
Proof. induction d; cbn; auto. Qed.

Lemma parseInt_loop_digits (d : Decimal.uint) :
  forall acc : nat,
    parseInt_loop (Z.of_nat acc) (NilEmpty.string_of_uint d) =
    Z.of_nat (Nat.of_uint_acc d acc).
Proof.
  induction d; intros acc; cbn [NilEmpty.string_of_uint parseInt_loop Nat.of_uint_acc];
    [reflexivity | ..];
    rewrite <- IHd; f_equal; rewrite Nat.tail_mul_spec;
    unfold digitValue; cbn; lia.
Qed.

(** The decimal digits of a number up to [2^53] are read back without
    rounding. *)
Lemma parseInt_nat_to_string (n : nat) :
  Z.of_nat n <= 2 ^ 53 ->
  parseInt (nat_to_string n) = Number.Num (inject_Z (Z.of_nat n)).
Proof.
  intros Hn. unfold parseInt, nat_to_string.
  change 0 with (Z.of_nat 0).
  rewrite (parseInt_loop_digits (Nat.to_uint n) 0).
  change (Nat.of_uint_acc (Nat.to_uint n) 0) with (Nat.of_uint (Nat.to_uint n)).
  rewrite Unsigned.of_to. apply round_integer; [reflexivity | lia].
Qed.

Lemma nat_to_string_digits (n : nat) :
  allChars isDigit (nat_to_string n) = true /\
  (0 < n -> exists c tl, nat_to_string n = String c tl /\ isUpper c = false)%nat.
Proof.
  split; [apply allChars_digits |]. intros Hn.
  pose proof (allChars_digits (Nat.to_uint n)) as Hd.
  unfold nat_to_string.
  destruct (NilEmpty.string_of_uint (Nat.to_uint n)) as [| c tl] eqn:Hs.
  - exfalso. pose proof (Unsigned.of_to n) as Hof.
    destruct (Nat.to_uint n); cbn in Hs; try discriminate Hs.
    cbn in Hof. lia.
  - exists c, tl. split; [reflexivity |].
    cbn in Hd. apply andb_prop in Hd as [Hc _].
    unfold isDigit, isUpper in *. apply andb_prop in Hc as [_ Hhi].
    apply Nat.leb_le in Hhi. apply andb_false_iff. left.
    apply Nat.leb_gt. lia.
Qed.

(** *** References written by the grid differ *)

(** The reference of a cell splits back into its letters and digits. *)
Lemma matchCellReference_getCellReference (row col : nat) :
  Z.of_nat col < 2 ^ 53 ->
  matchCellReference (SpreadsheetAnalyzer.getCellReference row col) =
  Some (columnToLetter (Z.of_nat col), nat_to_string (row + 1)).
Proof.
  intros Hcol. unfold matchCellReference, SpreadsheetAnalyzer.getCellReference.
  change (columnToLetter_loop (Z.of_nat col) "") with (columnToLetter (Z.of_nat col)).
  destruct (nat_to_string_digits (row + 1)) as [Hdigits Hfirst].
  destruct (Hfirst ltac:(lia)) as (c & tl & Hs & Hc).
  assert (Hstop : stopsAt isUpper (nat_to_string (row + 1))) by now rewrite Hs.
  pose proof (columnToLetter_upper _ (Z.of_nat col) Hcol eq_refl) as Hup.
  rewrite (takeWhile_app _ _ _ Hup Hstop), (dropWhile_app _ _ _ Hup Hstop).
  destruct (columnToLetter (Z.of_nat col)) eqn:Hl.
  - exfalso. apply (columnToLetter_nonempty (Z.of_nat col)); [lia | assumption].
  - rewrite Hs in *. now rewrite Hdigits.
Qed.

(** Parsing the reference that the grid differ writes for the cell at
    row index [row] and column index [col], both below [2^53], gives back
    the two indices. *)
Theorem parseCellReference_getCellReference (row col : nat) :
  Z.of_nat row < 2 ^ 53 -> Z.of_nat col < 2 ^ 53 ->
  parseCellReference (SpreadsheetAnalyzer.getCellReference row col) =
  Some (mkPosition (Number.Num (inject_Z (Z.of_nat row)))
                   (Number.Num (inject_Z (Z.of_nat col)))).
Proof.
  intros Hrow Hcol. unfold parseCellReference.
  rewrite matchCellReference_getCellReference by exact Hcol.
  rewrite parseInt_nat_to_string by lia. f_equal. f_equal.
  - unfold Double.sub. cbn [Number.sub Number.neg Number.add Double.rounded].
    apply round_integer; [| lia].
    rewrite Nat2Z.inj_add, inject_Z_plus. change (inject_Z (Z.of_nat 1)) with 1%Q. ring.
  - unfold letterToColumn, columnToLetter.
    rewrite (letterToColumn_columnToLetter_loop
               (Z.to_nat (Z.of_nat col + 1)) (Z.of_nat col) "" ltac:(lia) eq_refl).
    cbn [letterToColumn_loop].
    unfold Double.sub. cbn [Number.sub Number.neg Number.add Double.rounded].
    apply round_integer; [| lia].
    rewrite inject_Z_plus. change (inject_Z 1) with 1%Q. ring.
Qed.

Lemma parseCellReference_getCellReference_witness :
  Z.of_nat 11 < 2 ^ 53 /\ Z.of_nat 27 < 2 ^ 53 /\
  parseCellReference (SpreadsheetAnalyzer.getCellReference 11 27) =
  Some (mkPosition (Number.Num (inject_Z (Z.of_nat 11)))
                   (Number.Num (inject_Z (Z.of_nat 27)))).
Proof.
  split; [reflexivity |]. split; [reflexivity |].
  apply (parseCellReference_getCellReference 11 27); reflexivity.
Defined.

(** Two references joined by a colon form a valid range. *)
Theorem isValidRange_of_references (row col row' col' : nat) :
  Z.of_nat col < 2 ^ 53 -> Z.of_nat col' < 2 ^ 53 ->
  isValidRange (SpreadsheetAnalyzer.getCellReference row col ++ ":" ++
                SpreadsheetAnalyzer.getCellReference row' col') = true.
Proof.
  intros Hcol Hcol'. unfold isValidRange.
  pose proof (matchCellReference_getCellReference row' col' Hcol') as Hsecond.
  set (second := SpreadsheetAnalyzer.getCellReference row' col') in *.
  unfold SpreadsheetAnalyzer.getCellReference.
  change (columnToLetter_loop (Z.of_nat col) "") with (columnToLetter (Z.of_nat col)).
  destruct (nat_to_string_digits (row + 1)) as [Hdigits Hfirst].
  destruct (Hfirst ltac:(lia)) as (c & tl & Hs & Hc).
  pose proof (columnToLetter_upper _ (Z.of_nat col) Hcol eq_refl) as Hup.
  rewrite string_app_assoc.
  assert (Hstop : stopsAt isUpper (nat_to_string (row + 1) ++ ":" ++ second)%string)
    by now rewrite Hs.
  rewrite (takeWhile_app _ _ _ Hup Hstop), (dropWhile_app _ _ _ Hup Hstop).
  assert (Hcolon : stopsAt isDigit (":" ++ second)%string) by reflexivity.
  rewrite (takeWhile_app _ _ _ Hdigits Hcolon), (dropWhile_app _ _ _ Hdigits Hcolon).
  destruct (columnToLetter (Z.of_nat col)) eqn:Hl.
  - exfalso. apply (columnToLetter_nonempty (Z.of_nat col)); [lia | assumption].
  - rewrite Hs. cbn [append]. now rewrite Hsecond.
Qed.

(** Different columns below [2^53] never share a label, and a label
    consists of upper-case letters only. *)
Theorem columnToLetter_injective (a b : Z) :
  0 <= a < 2 ^ 53 -> 0 <= b < 2 ^ 53 ->
  allChars isUpper (columnToLetter a) = true /\
  columnToLetter a <> EmptyString /\
  (columnToLetter a = columnToLetter b -> a = b).
Proof.
  intros Ha Hb.
  split; [now apply (columnToLetter_upper _ a ltac:(lia) eq_refl) |].
  split; [now apply columnToLetter_nonempty |].
  intros Heq. apply (f_equal (letterToColumn_loop (Number.Num 0))) in Heq.
  unfold columnToLetter in Heq.
  rewrite (letterToColumn_columnToLetter_loop
             (Z.to_nat (a + 1)) a "" ltac:(lia) eq_refl) in Heq.
  rewrite (letterToColumn_columnToLetter_loop
             (Z.to_nat (b + 1)) b "" ltac:(lia) eq_refl) in Heq.
  cbn [letterToColumn_loop] in Heq. injection Heq as Heq. lia.
Qed.

Lemma columnToLetter_injective_witness :
  allChars isUpper (columnToLetter 27) = true /\
  columnToLetter 27 <> EmptyString /\
  (columnToLetter 27 = columnToLetter 27 -> 27 = 27).
Proof. apply (columnToLetter_injective 27 27); lia. Defined.

End CellReferenceFacts.

(* --------------------------------------------------------------------- *)
(** ** Formula parser: what is extracted                                  *)
(* --------------------------------------------------------------------- *)

Section ExtractionFacts.

Import FormulaParser CellReferences.

Lemma allChars_takeWhile (p : ascii -> bool) (s : string) :
  allChars p (takeWhile p s) = true.
Proof.
  induction s as [| c s IH]; cbn; [reflexivity |].
  destruct (p c) eqn:Hc; cbn; [now rewrite Hc | reflexivity].
Qed.

Lemma stopsAt_dropWhile (p : ascii -> bool) (s : string) :
  stopsAt p (dropWhile p s).
Proof.
  induction s as [| c s IH]; cbn; [exact I |].
  destruct (p c) eqn:Hc; cbn; [exact IH | exact Hc].
Qed.

Lemma takeWhile_dropWhile (p : ascii -> bool) (s : string) :
  (takeWhile p s ++ dropWhile p s)%string = s.
Proof.
  induction s as [| c s IH]; cbn; [reflexivity |].
  destruct (p c); cbn; [now rewrite IH | reflexivity].
Qed.

(** Whatever every successful match has, every extracted item has. *)
Lemma execAll_Forall (matchAt : string -> option (string * nat)) (P : string -> Prop) :
  (forall s captured len, matchAt s = Some (captured, len) -> P captured) ->
  forall text skip, Forall P (execAll matchAt skip text).
Proof.
  intros Hm text. induction text as [| c text IH]; intros skip; cbn [execAll];
    [constructor |].
  destruct skip as [| k]; [| apply IH].
  destruct (matchAt (String c text)) as [[captured len] |] eqn:Hmatch; [| apply IH].
  constructor; [exact (Hm _ _ _ Hmatch) | apply IH].
Qed.

(** Every function name the parser extracts is an upper-case letter
    followed by upper-case letters, digits and underscores; a text that
    does not start with ['='] yields none. *)
Theorem parseFormula_function_names (formula : string) :
  Forall (fun name =>
            exists c rest,
              name = String c rest /\ isUpper c = true /\
              allChars isIdentChar rest = true)
         (functions (parseFormula formula)) /\
  (startsWith formula "=" = false -> functions (parseFormula formula) = []).
Proof.
  unfold parseFormula. split; [| now intros ->].
  destruct (negb (startsWith formula "=")); cbn [functions]; [constructor |].
  apply execAll_Forall. intros s captured len Hm.
  unfold matchFunctionAt in Hm. destruct s as [| c tl]; [discriminate |].
  destruct (isUpper c) eqn:Hc; [| discriminate].
  destruct (dropWhile isSpace (dropWhile isIdentChar tl)) as [| p rest];
    [discriminate |].
  destruct p as [[] [] [] [] [] [] [] []]; try discriminate Hm.
  inversion Hm; subst.
  exists c, (takeWhile isIdentChar tl).
  repeat split; [exact Hc | apply allChars_takeWhile].
Qed.

Lemma digit_not_upper (c : ascii) : isDigit c = true -> isUpper c = false.
Proof.
  unfold isDigit, isUpper. intros H. apply andb_prop in H as [_ Hhi].
  apply Nat.leb_le in Hhi. apply andb_false_iff. left. apply Nat.leb_gt. lia.
Qed.

Lemma cellShape_stops (letters digits : string) :
  cellShape letters digits -> stopsAt isUpper digits.
Proof.
  intros (_ & Hd & _ & Hne). destruct digits as [| d digits]; [exact I |].
  cbn in *. apply andb_prop in Hd as [Hd _]. now apply digit_not_upper.
Qed.

Lemma matchCellAt_shape (text matched rest : string) :
  matchCellAt text = Some (matched, rest) ->
  exists letters digits,
    matched = (letters ++ digits)%string /\ cellShape letters digits.
Proof.
  unfold matchCellAt. intros H.
  destruct (takeWhile isUpper text) as [| l letters] eqn:Hl; [discriminate |].
  destruct (takeWhile isDigit (dropWhile isUpper text)) as [| d digits] eqn:Hd;
    [discriminate |].
  inversion H; subst. exists (String l letters), (String d digits).
  split; [reflexivity |]. unfold cellShape.
  rewrite <- Hl, <- Hd, !allChars_takeWhile. rewrite Hl, Hd.
  repeat split; discriminate.
Qed.

Lemma matchCellReference_cell (letters digits : string) :
  cellShape letters digits ->
  matchCellReference (letters ++ digits) = Some (letters, digits).
Proof.
  intros Hshape. pose proof (cellShape_stops _ _ Hshape) as Hstop.
  destruct Hshape as (Hl & Hd & Hnl & Hnd). unfold matchCellReference.
  rewrite (takeWhile_app _ _ _ Hl Hstop), (dropWhile_app _ _ _ Hl Hstop).
  destruct letters; [contradiction |]. destruct digits; [contradiction |].
  now rewrite Hd.
Qed.

Lemma isValidRange_cells (letters digits letters' digits' : string) :
  cellShape letters digits -> cellShape letters' digits' ->
  isValidRange ((letters ++ digits) ++ ":" ++ (letters' ++ digits')) = true.
Proof.
  intros Hshape Hshape'. pose proof (cellShape_stops _ _ Hshape) as Hstop.
  pose proof (matchCellReference_cell _ _ Hshape') as Hsecond.
  destruct Hshape as (Hl & Hd & Hnl & Hnd). unfold isValidRange.
  set (second := (letters' ++ digits')%string) in *.
  rewrite string_app_assoc.
  assert (Hstop1 : stopsAt isUpper (digits ++ ":" ++ second)%string).
  { destruct digits; [contradiction | exact Hstop]. }
  rewrite (takeWhile_app _ _ _ Hl Hstop1), (dropWhile_app _ _ _ Hl Hstop1).
  assert (Hcolon : stopsAt isDigit (":" ++ second)%string) by reflexivity.
  rewrite (takeWhile_app _ _ _ Hd Hcolon), (dropWhile_app _ _ _ Hd Hcolon).
  destruct letters; [contradiction |]. destruct digits; [contradiction |].
  cbn [append]. now rewrite Hsecond.
Qed.

(** Every reference the parser extracts is accepted downstream: it is a
    single cell that [parseCellReference] parses, or a range that
    [isValidRange] accepts. *)
Theorem parseFormula_references_accepted (formula : string) :
  Forall (fun reference =>
            parseCellReference reference <> None \/ isValidRange reference = true)
         (references (parseFormula formula)).
Proof.
  unfold parseFormula.
  destruct (negb (startsWith formula "=")); cbn [references]; [constructor |].
  apply execAll_Forall. intros text captured len Hm.
  unfold matchReferenceAt in Hm.
  destruct (matchCellAt text) as [[first rest] |] eqn:Hfirst; [| discriminate].
  destruct (matchCellAt_shape _ _ _ Hfirst) as (letters & digits & -> & Hshape).
  assert (Hcell : parseCellReference (letters ++ digits) <> None).
  { unfold parseCellReference.
    now rewrite (matchCellReference_cell _ _ Hshape). }
  destruct rest as [| p rest]; [inversion Hm; subst; now left |].
  destruct (Ascii.eqb_spec p ":") as [-> | Hp].
  - destruct (matchCellAt rest) as [[second rest'] |] eqn:Hsecond.
    + destruct (matchCellAt_shape _ _ _ Hsecond) as (letters' & digits' & -> & Hshape').
      inversion Hm; subst. right. now apply isValidRange_cells.
    + inversion Hm; subst. now left.
  - assert (Hm' : Some (letters ++ digits, String.length (letters ++ digits))%string
                  = Some (captured, len)).
    { rewrite <- Hm. destruct p as [[] [] [] [] [] [] [] []];
        try reflexivity. exfalso. now apply Hp. }
    inversion Hm'; subst. now left.
Qed.

(** *** Complexity *)

Lemma getFunctionComplexity_range (name : string) :
  1 <= getFunctionComplexity name <= 5.
Proof.
  unfold getFunctionComplexity, complexityMap. cbn [find fst].
  repeat match goal with
         | |- context [String.eqb ?a ?b] => destruct (String.eqb a b)
         end; lia.
Qed.

Lemma complexity_sum_range (names : list string) :
  forall acc,
    acc + Z.of_nat (length names) <=
    fold_left (fun acc f => acc + getFunctionComplexity f) names acc <=
    acc + 5 * Z.of_nat (length names).
Proof.
  induction names as [| name names IH]; intros acc; cbn [fold_left length]; [lia |].
  pose proof (getFunctionComplexity_range name).
  specialize (IH (acc + getFunctionComplexity name)). lia.
Qed.

(** The complexity of a formula lies between the number of function calls
    it contains and five times that number; it is 0 exactly when no
    function is called. *)
Theorem parseFormula_complexity_range (formula : string) :
  let parsed := parseFormula formula in
  Z.of_nat (length (functions parsed)) <= complexity parsed
    <= 5 * Z.of_nat (length (functions parsed)) /\
  (complexity parsed = 0 <-> functions parsed = []).
Proof.
  cbv zeta. unfold parseFormula.
  destruct (negb (startsWith formula "=")); cbn [functions complexity].
  - split; [cbn; lia | tauto].
  - pose proof (complexity_sum_range (execAll matchFunctionAt 0 formula) 0) as H.
    split; [lia |].
    destruct (execAll matchFunctionAt 0 formula) as [| name names] eqn:He.
    + cbn. tauto.
    + cbn [length] in H. split; [lia | discriminate].
Qed.

End ExtractionFacts.

(* --------------------------------------------------------------------- *)
(** ** Grid differ: no-op, formulas and efficiency                        *)
(* --------------------------------------------------------------------- *)

Section DifferFacts.

Import SpreadsheetAnalyzer Spec Samples DifferNotions.

Lemma json_eqb_refl : forall a, json_eqb a a = true.
Proof.
  fix IH 1. intros [| b | n | str | fields]; cbn.
  - reflexivity.
  - now destruct b.
  - now rewrite Z.eqb_refl, Pos.eqb_refl.
  - apply String.eqb_refl.
  - induction fields as [| [k x] fields IHf]; [reflexivity |].
    now rewrite String.eqb_refl, IH, IHf.
Qed.

Lemma serialized_differ_same (x : slot) : serialized_differ x x = false.
Proof.
  unfold serialized_differ. destruct (JSON_stringify x); [| reflexivity].
  now rewrite json_eqb_refl.
Qed.

Lemma for_range_unchanged {S : Type} (n : nat) (body : nat -> S -> S) (st : S) :
  (forall i st', body i st' = st') -> for_range n body st = st.
Proof.
  intros H. unfold for_range. generalize (seq 0 n) as indices.
  induction indices as [| i indices IH]; cbn; [reflexivity |].
  now rewrite H.
Qed.

Lemma compareSheets_same (snapshot : SpreadsheetData) :
  compareSheets snapshot snapshot = ([], []).
Proof.
  unfold compareSheets. apply for_range_unchanged. intros i st.
  destruct (nth_error (sheets snapshot) i) as [sheet |]; [| reflexivity].
  unfold compareSheet. apply for_range_unchanged. intros r st'.
  apply for_range_unchanged. intros c st''.
  unfold compareCell. destruct st'' as [changes formulas].
  now rewrite serialized_differ_same.
Qed.

(** Comparing a snapshot with itself reports no changed cell and no added
    formula, whatever the expected snapshot; the efficiency is then 100
    with an expected snapshot and 0 without one. *)
Theorem compareSpreadsheets_same (snapshot : SpreadsheetData)
        (expected : option SpreadsheetData) :
  let result := compareSpreadsheets snapshot snapshot expected in
  changedCells result = [] /\ addedFormulas result = [] /\
  match expected with
  | Some _ => efficiency result = 100
  | None => efficiency result = 0 /\ (accuracy result == 0)%Q
  end.
Proof.
  cbv zeta. unfold compareSpreadsheets. rewrite compareSheets_same.
  destruct expected; cbn; repeat split; reflexivity.
Qed.

(** *** Added formulas *)

Lemma formulasOf_app (a b : list CellChange) :
  formulasOf (a ++ b) = formulasOf a ++ formulasOf b.
Proof. unfold formulasOf. apply flat_map_app. Qed.

Lemma for_range_invariant {S : Type} (P : S -> Prop) (n : nat)
      (body : nat -> S -> S) (st : S) :
  (forall i st', P st' -> P (body i st')) -> P st -> P (for_range n body st).
Proof.
  intros H. unfold for_range. generalize (seq 0 n) as indices. intros indices.
  revert st. induction indices as [| i indices IH]; intros st Hst; cbn;
    [exact Hst |].
  apply IH. now apply H.
Qed.

Lemma compareCell_formulas initialSheet finalSheet r c st :
  snd st = formulasOf (fst st) ->
  snd (compareCell initialSheet finalSheet r c st) =
  formulasOf (fst (compareCell initialSheet finalSheet r c st)).
Proof.
  unfold compareCell. destruct st as [changes formulas]. cbn [fst snd].
  intros ->. destruct (serialized_differ _ _); [| reflexivity].
  destruct (slot_f _) as [[| ch tl] |] eqn:Hf; cbn [fst snd];
    rewrite formulasOf_app; cbn; now rewrite ?app_nil_r.
Qed.

(** The added formulas are exactly the non-empty formulas of the changed
    cells, in the same order; so there are never more added formulas than
    changed cells. *)
Theorem addedFormulas_of_changedCells (initial final : SpreadsheetData)
        (expected : option SpreadsheetData) :
  let result := compareSpreadsheets initial final expected in
  addedFormulas result = formulasOf (changedCells result) /\
  (length (addedFormulas result) <= length (changedCells result))%nat.
Proof.
  cbv zeta.
  assert (H : snd (compareSheets initial final) =
              formulasOf (fst (compareSheets initial final))).
  { unfold compareSheets. apply for_range_invariant; [| reflexivity].
    intros i st Hst.
    destruct (nth_error (sheets initial) i) as [initialSheet |]; [| exact Hst].
    destruct (nth_error (sheets final) i) as [finalSheet |]; [| exact Hst].
    unfold compareSheet. apply for_range_invariant; [| exact Hst].
    intros r st' Hst'. apply for_range_invariant; [| exact Hst'].
    intros c st'' Hst''. now apply compareCell_formulas. }
  unfold compareSpreadsheets.
  destruct (compareSheets initial final) as [changes formulas]. cbn [fst snd] in H.
  assert (Hlen : (length (formulasOf changes) <= length changes)%nat).
  { clear. unfold formulasOf.
    induction changes as [| change changes IH]; cbn [flat_map length]; [lia |].
    rewrite length_app.
    destruct (formula change) as [[| ch tl] |]; cbn [length]; lia. }
  destruct expected; cbn [addedFormulas changedCells]; subst formulas; split;
    (reflexivity || exact Hlen).
Qed.

(** *** Efficiency *)

(** The efficiency score lies in [0,100]; it is 100 for up to ten changed
    cells, whether or not an efficient function was used (the bonus of 10
    is cut off by the clamp); and more changed cells never raise it. *)
Theorem calculateEfficiency_range (changed changed' : list CellChange)
        (formulas : list string) :
  0 <= calculateEfficiency changed formulas <= 100 /\
  ((length changed <= 10)%nat -> calculateEfficiency changed formulas = 100) /\
  ((length changed <= length changed')%nat ->
   calculateEfficiency changed' formulas <= calculateEfficiency changed formulas).
Proof.
  unfold calculateEfficiency.
  set (bonus := existsb _ formulas).
  split; [lia |]. split; intros H.
  - destruct (Z.ltb_spec 10 (Z.of_nat (length changed))); [lia |]. destruct bonus; lia.
  - destruct (Z.ltb_spec 10 (Z.of_nat (length changed))),
             (Z.ltb_spec 10 (Z.of_nat (length changed')));
      destruct bonus; lia.
Qed.

(** *** Grids without a row longer than the first *)

Lemma compareSheet_rectangular_witness :
  refs (fst (compareSheet (one_sheet [[value_cell 1; value_cell 2]; [value_cell 3]])
                          (one_sheet [[value_cell 1; value_cell 5]; [value_cell 4]])
                          ([], []))) =
  changed_as_stated [[value_cell 1; value_cell 2]; [value_cell 3]]
                    [[value_cell 1; value_cell 5]; [value_cell 4]].
Proof.
  apply (compareSheet_rectangular
           (one_sheet [[value_cell 1; value_cell 2]; [value_cell 3]])
           (one_sheet [[value_cell 1; value_cell 5]; [value_cell 4]]));
    repeat constructor.
Defined.

End DifferFacts.

(* --------------------------------------------------------------------- *)
(** ** Action tracker: derived queries                                    *)
(* --------------------------------------------------------------------- *)

Section TrackerQueryFacts.

Import ActionTracker Samples.

Lemma includes_In (arr : list string) (x : string) :
  includes arr x = true <-> In x arr.
Proof.
  unfold includes. rewrite existsb_exists. split.
  - intros (y & Hy & Heq). apply String.eqb_eq in Heq. now subst.
  - intros H. exists x. split; [exact H | apply String.eqb_refl].
Qed.

Lemma indexOf_app (pre rest : list string) (x : string) :
  indexOf (pre ++ rest) x =
  if includes pre x then indexOf pre x else (length pre + indexOf rest x)%nat.
Proof.
  induction pre as [| y pre IH]; [reflexivity |].
  cbn [app indexOf includes existsb length].
  rewrite (String.eqb_sym x y).
  destruct (String.eqb y x); [reflexivity |]. cbn [orb].
  fold (includes pre x). rewrite IH. now destruct (includes pre x).
Qed.

Lemma indexOf_bound (pre : list string) (x : string) :
  includes pre x = true -> (indexOf pre x < length pre)%nat.
Proof.
  induction pre as [| y pre IH]; cbn [includes existsb indexOf length];
    [discriminate |].
  rewrite (String.eqb_sym x y). destruct (String.eqb y x); [lia |].
  cbn [orb]. intros H. specialize (IH H). lia.
Qed.

(** Keeping the entries whose first index is their own index keeps one
    copy of every entry that was not seen before. *)
Lemma first_occurrences (l : list string) :
  forall pre,
    let kept :=
      filter_indexed (fun x i => Nat.eqb (indexOf (pre ++ l) x) i) (length pre) l in
    NoDup kept /\ forall y, In y kept <-> In y l /\ ~ In y pre.
Proof.
  induction l as [| x l IH]; intros pre; cbv zeta.
  - cbn. split; [constructor | tauto].
  - cbn [filter_indexed].
    specialize (IH (pre ++ [x])). cbv zeta in IH.
    rewrite <- app_assoc, length_app in IH. cbn [app length] in IH.
    rewrite Nat.add_1_r in IH. destruct IH as [Hnodup Hin].
    rewrite indexOf_app. cbn [indexOf]. rewrite String.eqb_refl, Nat.add_0_r.
    destruct (includes pre x) eqn:Hx.
    + pose proof (indexOf_bound _ _ Hx) as Hb.
      destruct (Nat.eqb_spec (indexOf pre x) (length pre)); [lia |].
      apply includes_In in Hx.
      split; [exact Hnodup |]. intros y. rewrite Hin, in_app_iff. cbn [In].
      split.
      * intros [Hy Hn]. split; [now right | tauto].
      * intros [[-> | Hy] Hn]; [contradiction |]. split; [exact Hy |].
        intros [Hp | [-> | []]]; contradiction.
    + rewrite Nat.eqb_refl.
      assert (Hnx : ~ In x pre).
      { intros H. apply includes_In in H. congruence. }
      split.
      * constructor; [| exact Hnodup]. rewrite Hin, in_app_iff. cbn [In]. tauto.
      * intros y. cbn [In]. rewrite Hin, in_app_iff. cbn [In].
        destruct (string_dec x y) as [-> | Hne]; [tauto |].
        split.
        -- intros [Heq | [Hy Hn]]; [contradiction | tauto].
        -- intros [[Heq | Hy] Hn]; [contradiction |]. right. tauto.
Qed.

Lemma isFormulaAction_spec (action : UserAction) :
  isFormulaAction action = true <->
  type action = formula_input /\
  exists formula, action_formula action = Some formula /\ formula <> EmptyString.
Proof.
  unfold isFormulaAction. rewrite andb_true_iff. split.
  - intros [Ht Hf]. split; [now destruct (type action) |].
    destruct (action_formula action) as [[| c tl] |]; try discriminate.
    exists (String c tl). split; [reflexivity | discriminate].
  - intros [Ht (formula & Hf & Hne)]. rewrite Ht, Hf. split; [reflexivity |].
    destruct formula; [contradiction | reflexivity].
Qed.

(** The formulas used are listed without repetition, and they are exactly
    the non-empty formulas of the [formula_input] actions. *)
Theorem getFormulasUsed_spec (this : tracker) :
  NoDup (getFormulasUsed this) /\
  forall formula,
    In formula (getFormulasUsed this) <->
    formula <> EmptyString /\
    exists action,
      In action this /\ type action = formula_input /\
      action_formula action = Some formula.
Proof.
  unfold getFormulasUsed.
  destruct (first_occurrences (map formulaOf (filter isFormulaAction this)) [])
    as [Hnodup Hin].
  cbn [app length] in Hnodup, Hin. split; [exact Hnodup |].
  intros formula. rewrite Hin, in_map_iff. split.
  - intros [(action & Hf & Ha) _]. apply filter_In in Ha as [Ha Hfa].
    apply isFormulaAction_spec in Hfa as [Ht (formula' & Hsome & Hne)].
    unfold formulaOf in Hf. rewrite Hsome in Hf. subst formula'.
    split; [exact Hne |]. now exists action.
  - intros [Hne (action & Ha & Ht & Hf)]. split; [| tauto].
    exists action. split; [unfold formulaOf; now rewrite Hf |].
    apply filter_In. split; [exact Ha |].
    apply isFormulaAction_spec. split; [exact Ht |]. now exists formula.
Qed.

Lemma Array_from_Set_spec (arr : list string) :
  forall seen,
    NoDup seen ->
    NoDup (fold_left Set_add arr seen) /\
    forall y, In y (fold_left Set_add arr seen) <-> In y seen \/ In y arr.
Proof.
  induction arr as [| x arr IH]; intros seen Hseen; cbn [fold_left].
  - split; [exact Hseen | cbn; tauto].
  - unfold Set_add at 2 4. destruct (includes seen x) eqn:Hx.
    + destruct (IH seen Hseen) as [Hn Hin]. split; [exact Hn |].
      intros y. rewrite Hin. cbn [In]. apply includes_In in Hx.
      split; [tauto |]. intros [H | [-> | H]]; tauto.
    + assert (Hnx : ~ In x seen).
      { intros H. apply includes_In in H. congruence. }
      assert (Hseen' : NoDup (seen ++ [x])).
      { apply NoDup_app; [exact Hseen | repeat constructor; intros [] |].
        intros y Hy [-> | []]. contradiction. }
      destruct (IH (seen ++ [x]) Hseen') as [Hn Hin]. split; [exact Hn |].
      intros y. rewrite Hin, in_app_iff. cbn [In]. tauto.
Qed.

Lemma fold_left_concat {A : Type} (g : A -> list string) (l : list A) :
  forall acc, fold_left (fun out x => out ++ g x) l acc = acc ++ flat_map g l.
Proof.
  induction l as [| x l IH]; intros acc; cbn; [now rewrite app_nil_r |].
  now rewrite IH, app_assoc.
Qed.

(** The functions used are listed without repetition, and they are exactly
    the function names the parser finds in the formulas used. *)
Theorem getFunctionsUsed_spec (this : tracker) :
  NoDup (getFunctionsUsed this) /\
  forall name,
    In name (getFunctionsUsed this) <->
    exists formula,
      In formula (getFormulasUsed this) /\
      In name (FormulaParser.functions (FormulaParser.parseFormula formula)).
Proof.
  unfold getFunctionsUsed, Array_from_Set. rewrite fold_left_concat. cbn [app].
  destruct (Array_from_Set_spec
              (flat_map (fun formula =>
                           FormulaParser.functions (FormulaParser.parseFormula formula))
                        (getFormulasUsed this)) [] (NoDup_nil _)) as [Hn Hin].
  split; [exact Hn |]. intros name. rewrite Hin, in_flat_map. cbn [In]. tauto.
Qed.

(** *** Counting and timing *)

Lemma filter_two_lengths {A : Type} (p q : A -> bool) (l : list A) :
  (forall x, p x = true -> q x = false) ->
  (length (filter p l) + length (filter q l) <= length l)%nat.
Proof.
  intros H. induction l as [| x l IH]; cbn; [lia |].
  destruct (p x) eqn:Hp.
  - rewrite (H x Hp). cbn. lia.
  - destruct (q x); cbn; lia.
Qed.

(** The formula actions and the edit actions are counted apart: together
    they never exceed the total, and appending an action raises the total
    by one. *)
Theorem getEfficiencyMetrics_counts (this : tracker) (action : UserAction) :
  let metrics := getEfficiencyMetrics this in
  (formulaActions metrics + editActions metrics <= totalActions metrics)%nat /\
  totalActions metrics = length (getActions this) /\
  totalActions (getEfficiencyMetrics (addAction this action)) = S (totalActions metrics).
Proof.
  cbv zeta. unfold getEfficiencyMetrics, getActionsByType, getActions, addAction.
  cbn [formulaActions editActions totalActions]. split; [| split].
  - apply filter_two_lengths. intros x. now destruct (type x).
  - reflexivity.
  - rewrite length_app. cbn. lia.
Qed.

(** The time spent runs from the first action to the last one: after an
    append it is the distance from the first recorded action to the new
    one, and 0 when the new action is the first. *)
Theorem getTimeSpent_addAction (this : tracker) (action : UserAction) :
  getTimeSpent (addAction this action) =
  match this with
  | [] => 0
  | firstAction :: _ => timestamp action - timestamp firstAction
  end.
Proof.
  unfold addAction. destruct this as [| firstAction rest]; cbn [app getTimeSpent].
  - cbn. lia.
  - change (firstAction :: rest ++ [action]) with ((firstAction :: rest) ++ [action]).
    now rewrite last_last.
Qed.

End TrackerQueryFacts.

(* --------------------------------------------------------------------- *)
(** ** Task evaluator: the task result                                    *)
(* --------------------------------------------------------------------- *)

Section TaskResultFacts.

Import SpreadsheetAnalyzer ActionTracker TaskEvaluator TaskEvaluation Spec Samples.

Example evaluateTask_sample :
  let result :=
    evaluateTask "t1" final_one_sheet final_one_sheet expected_two_sheets
                 unhurried_sums (rubric ["VLOOKUP"%string] []) in
  task_feedback result =
    "Excellent accuracy in your solution! Consider using these functions: VLOOKUP Your approach was efficient and well-structured."%string /\
  (accuracy_score result == 100)%Q /\ (best_practices_score result == 80)%Q /\
  (completion_time result == 2000)%Q.
Proof. repeat split. Qed.

Lemma trackerOf_actions (userActions : list UserAction) :
  trackerOf userActions = userActions.
Proof.
  unfold trackerOf, empty.
  assert (H : forall acc, fold_left addAction userActions acc = acc ++ userActions).
  { induction userActions as [| a l IH]; intros acc; cbn;
      [now rewrite app_nil_r |].
    unfold addAction at 2. now rewrite IH, <- app_assoc. }
  apply H.
Qed.

(** The three scores of a task result lie in [0,100], the actions are kept
    as given, and the completion time is the time from the first to the
    last action (0 for fewer than two actions). *)
Theorem evaluateTask_result (taskId : string) (initialState finalState : SpreadsheetData)
        (expectedSolution : SpreadsheetData) (userActions : list UserAction)
        (criteria : TaskEvaluationCriteria) :
  let result :=
    evaluateTask taskId initialState finalState expectedSolution userActions criteria in
  (0 <= accuracy_score result <= 100)%Q /\
  (0 <= efficiency_score result <= 100)%Q /\
  (0 <= best_practices_score result <= 100)%Q /\
  user_actions result = userActions /\
  functions_used result = getFunctionsUsed userActions /\
  completion_time result = inject_Z (getTimeSpent userActions).
Proof.
  cbv zeta. unfold evaluateTask.
  cbn [accuracy_score efficiency_score best_practices_score user_actions
       functions_used completion_time].
  rewrite trackerOf_actions. unfold compareSpreadsheets.
  destruct (compareSheets initialState finalState) as [changes formulas].
  cbn [accuracy efficiency].
  split; [apply calculateAccuracy_range |].
  change 100%Q with (inject_Z 100). change 0%Q with (inject_Z 0).
  rewrite <- !Zle_Qle.
  split; [unfold calculateEfficiency; lia |].
  split; [unfold calculateBestPracticesScore; lia |].
  repeat split.
Qed.

Lemma startsWith_empty (text : string) : startsWith text "" = true.
Proof. now destruct text. Qed.

Lemma missingFunctions_spec (this : tracker) (criteria : TaskEvaluationCriteria) :
  missingFunctions this criteria <> [] <->
  exists name,
    In name (orEmpty (required_formulas criteria)) /\ ~ In name (getFunctionsUsed this).
Proof.
  unfold missingFunctions. split.
  - destruct (filter _ _) as [| name names] eqn:Hf; [congruence |]. intros _.
    assert (Hin : In name (name :: names)) by now left.
    rewrite <- Hf in Hin. apply filter_In in Hin as [Hreq Hnot].
    exists name. split; [exact Hreq |]. intros Hused.
    apply includes_In in Hused. rewrite Hused in Hnot. discriminate.
  - intros (name & Hreq & Hnot) Hempty.
    assert (Hin : In name (filter (fun func => negb (includes (getFunctionsUsed this) func))
                                  (orEmpty (required_formulas criteria)))).
    { apply filter_In. split; [exact Hreq |].
      destruct (includes (getFunctionsUsed this) name) eqn:Hi; [| reflexivity].
      apply includes_In in Hi. contradiction. }
    rewrite Hempty in Hin. destruct Hin.
Qed.

(** The feedback contains the sentence that names functions to consider
    exactly when some required function of the rubric was not used. *)
Theorem generateTaskFeedback_missing (analysis : Comparison) (this : tracker)
        (criteria : TaskEvaluationCriteria) :
  str_includes (generateTaskFeedback analysis this criteria)
               "Consider using these functions: " = true <->
  exists name,
    In name (orEmpty (required_formulas criteria)) /\ ~ In name (getFunctionsUsed this).
Proof.
  rewrite <- missingFunctions_spec. unfold generateTaskFeedback.
  destruct (missingFunctions this criteria) as [| name names].
  - cbn [length Nat.ltb Nat.leb].
    destruct (Qle_bool 90 (accuracy analysis)), (Qle_bool 70 (accuracy analysis)),
      (80 <=? efficiency analysis); (split; [discriminate | congruence]).
  - cbn [length Nat.ltb Nat.leb].
    destruct (Qle_bool 90 (accuracy analysis)), (Qle_bool 70 (accuracy analysis)),
      (80 <=? efficiency analysis);
      (split; [discriminate | intros _; cbn; now rewrite startsWith_empty]).
Qed.

End TaskResultFacts.

(* --------------------------------------------------------------------- *)
(** ** State manager: transitions, completion and progress                *)
(* --------------------------------------------------------------------- *)

Section StateMachineMoreFacts.

Import StateManager StateQueries Spec Samples.

(** The second transition table, the one of [getValidTransitions] and the
    order of [getNextState] agree: a transition validates exactly when the
    manager can make it, and the next state of the flow is always one. *)
Theorem validateTransition_agrees (this : manager) (to : ExcelInterviewState) :
  StateValidationUtils.validateTransition (current_state (session this)) to =
    can_transition this to /\
  (getNextState this = Some to <-> can_transition this to = true).
Proof.
  unfold StateValidationUtils.validateTransition, can_transition, getNextState.
  destruct (current_state (session this)), to; cbn; repeat split; congruence.
Qed.

(** Once a session is in [conclusion] no call changes it any more. *)
Theorem conclusion_is_final (this : manager) (calls : list call) :
  current_state (session this) = conclusion -> performAll this calls = this.
Proof.
  intros Hc. unfold performAll.
  induction calls as [| c calls IH]; cbn [fold_left]; [reflexivity |].
  assert (Hsame : snd (perform this c) = this).
  { destruct c as [new_state d now | now]; cbn [perform].
    - unfold transition_to, can_transition. rewrite Hc. reflexivity.
    - unfold autoProgress, isCurrentStateComplete, getNextState. rewrite Hc.
      reflexivity. }
  now rewrite Hsame.
Qed.

Lemma conclusion_is_final_witness :
  performAll concluded_manager
    [AutoProgress (ticking 6000); TransitionTo introduction None (ticking 7000)]
  = concluded_manager.
Proof. apply (conclusion_is_final concluded_manager). reflexivity. Defined.

(** A valid transition of a manager without callbacks succeeds, moves to
    the target, appends one history entry that records the move with the
    first reading of the clock as its timestamp, keeps the start time,
    and stamps the end of the session exactly when the target is
    [conclusion]: [end_time] is then the second reading of the clock and
    [total_duration] the third reading minus the start time. *)
Theorem transition_to_success (this : manager) (new_state : ExcelInterviewState)
        (d : option TransitionData) (now : Clock) :
  (forall st, stateTransitionCallbacks this st = []) ->
  successor (current_state (session this)) = Some new_state ->
  let after := session (snd (transition_to this new_state d now)) in
  fst (transition_to this new_state d now) = true /\
  current_state after = new_state /\
  state_history after =
    state_history (session this) ++
    [mkTransition (current_state (session this)) new_state (now 0%nat)
                  (triggerOf d) d] /\
  start_time after = start_time (session this) /\
  (end_time after, total_duration after) =
    match new_state with
    | conclusion =>
        (Some (now 1%nat), Some (now 2%nat - start_time (session this)))
    | _ => (end_time (session this), total_duration (session this))
    end.
Proof.
  intros Hcb Hs. cbv zeta. unfold transition_to.
  apply can_transition_successor in Hs. rewrite Hs. cbn [negb fst snd session].
  rewrite !executeStateCallbacks_none by assumption.
  rewrite updateStateData_current_state, updateStateData_state_history.
  cbn [current_state state_history].
  repeat split; unfold updateStateData; destruct new_state, d; reflexivity.
Qed.

Lemma transition_to_success_witness :
  fst (transition_to fresh_manager conceptual_questions None (ticking 2000)) = true /\
  current_state
    (session (snd (transition_to fresh_manager conceptual_questions None
                                 (ticking 2000))))
  = conceptual_questions.
Proof.
  destruct (transition_to_success fresh_manager conceptual_questions None
                                  (ticking 2000))
    as (Hok & Hstate & _); [reflexivity | reflexivity |].
  split; assumption.
Defined.

(** Entering a question or task phase sets its counter to 0, unless the
    data passed with the transition sets that counter; the totals are only
    changed by such data. *)
Theorem transition_resets_counters (this : manager) (new_state : ExcelInterviewState)
        (now : Clock) :
  (forall st, stateTransitionCallbacks this st = []) ->
  successor (current_state (session this)) = Some new_state ->
  let before := state_data (session this) in
  let after := state_data (session (snd (transition_to this new_state None now))) in
  questions_completed after =
    (if state_eqb new_state conceptual_questions then 0 else questions_completed before) /\
  tasks_completed after =
    (if state_eqb new_state practical_tasks then 0 else tasks_completed before) /\
  total_questions after = total_questions before /\
  total_tasks after = total_tasks before.
Proof.
  intros Hcb Hs. cbv zeta. unfold transition_to.
  apply can_transition_successor in Hs. rewrite Hs. cbn [negb fst snd session].
  rewrite !executeStateCallbacks_none by assumption.
  unfold updateStateData. destruct new_state; repeat split.
Qed.

Lemma transition_resets_counters_witness :
  questions_completed
    (state_data (session (snd (transition_to fresh_manager conceptual_questions None
                                             (ticking 2000)))))
  = 0.
Proof.
  destruct (transition_resets_counters fresh_manager conceptual_questions
                                       (ticking 2000))
    as (Hq & _); [reflexivity | reflexivity |].
  exact Hq.
Defined.

(** [autoProgress] moves exactly when the current phase is complete and is
    not [conclusion]; it then makes the transition to the successor with
    the trigger auto_progress (on the clock as the completion check left
    it), and otherwise changes nothing. *)
Theorem autoProgress_spec (this : manager) (now : Clock) :
  fst (autoProgress this now) =
    isCurrentStateComplete this (now 0%nat) &&
    negb (state_eqb (current_state (session this)) conclusion) /\
  (fst (autoProgress this now) = false -> snd (autoProgress this now) = this) /\
  (fst (autoProgress this now) = true ->
   exists next,
     successor (current_state (session this)) = Some next /\
     autoProgress this now =
       transition_to this next (Some auto_progress_data)
                     (later (completionReads this) now)).
Proof.
  unfold autoProgress, getNextState.
  destruct (isCurrentStateComplete this (now 0%nat)); cbn [negb andb].
  - destruct (current_state (session this)) eqn:Hc; cbn.
    all: try (unfold transition_to, can_transition; rewrite Hc; cbn;
              split; [reflexivity |]; split; [discriminate |];
              intros _; eexists; split; reflexivity).
    split; [reflexivity |]. split; [reflexivity | discriminate].
  - split; [reflexivity |]. split; [reflexivity | discriminate].
Qed.

(** A question or task phase whose total is zero (or negative) is never
    complete: [autoProgress] cannot leave it, whatever the clock. *)
Theorem empty_phase_never_completes (this : manager) (now : Clock) :
  current_state (session this) = conceptual_questions \/
  current_state (session this) = practical_tasks ->
  snd (phaseCounters this) <= 0 ->
  isCurrentStateComplete this (now 0%nat) = false /\
  autoProgress this now = (false, this).
Proof.
  intros Hc Ht.
  assert (H : isCurrentStateComplete this (now 0%nat) = false).
  { unfold isCurrentStateComplete, isConceptualQuestionsComplete,
      isPracticalTasksComplete, phaseCounters in *.
    destruct Hc as [Hc | Hc]; rewrite Hc in *; cbn [snd] in Ht;
      apply andb_false_iff; right; apply Z.ltb_ge; exact Ht. }
  split; [exact H |]. unfold autoProgress. now rewrite H.
Qed.

Lemma empty_phase_never_completes_witness :
  autoProgress
    (snd (transition_to (createExcelInterviewStateManager 7 (Some 0) None 1000)
                        conceptual_questions None (ticking 2000)))
    (ticking 9000000)
  = (false,
     snd (transition_to (createExcelInterviewStateManager 7 (Some 0) None 1000)
                        conceptual_questions None (ticking 2000))).
Proof.
  apply (empty_phase_never_completes
           (snd (transition_to (createExcelInterviewStateManager 7 (Some 0) None 1000)
                               conceptual_questions None (ticking 2000)))
           (ticking 9000000)).
  - left. reflexivity.
  - cbn. lia.
Defined.

Lemma wellFormed_history_length (this : manager) :
  wellFormed this ->
  length (state_history (session this)) = stateIndex (current_state (session this)).
Proof.
  intros (_ & _ & Hto & _). unfold toStates in Hto.
  apply (f_equal (@length _)) in Hto. rewrite length_map, length_firstn in Hto.
  rewrite Hto. destruct (current_state (session this)); reflexivity.
Qed.

(** A session made by the factory and moved by any calls has recorded as
    many transitions as its current state has predecessors in the flow,
    so never more than four. *)
Theorem history_length_is_state_index (responseId : Z) (totalQuestions totalTasks : option Z)
        (start : Z) (calls : list call) :
  let this :=
    performAll (createExcelInterviewStateManager responseId totalQuestions totalTasks start)
               calls in
  length (state_history (session this)) = stateIndex (current_state (session this)) /\
  (length (state_history (session this)) <= 4)%nat.
Proof.
  cbv zeta.
  pose proof (performAll_wellFormed calls _
                (created_wellFormed responseId totalQuestions totalTasks start)) as Hw.
  apply wellFormed_history_length in Hw. split; [exact Hw |]. rewrite Hw.
  destruct (current_state _); cbn; lia.
Qed.

(** What the factory and the moving calls keep true of the end stamps. *)
Lemma perform_end_stamp (start : Z) (this : manager) (c : call) :
  let stamped (m : manager) :=
    (forall st, stateTransitionCallbacks m st = []) /\
    start_time (session m) = start /\
    match current_state (session m) with
    | conclusion =>
        exists ended measured,
          In ended (flat_map readings [c]) /\ In measured (flat_map readings [c]) /\
          end_time (session m) = Some ended /\
          total_duration (session m) = Some (measured - start)
    | _ => end_time (session m) = None /\ total_duration (session m) = None
    end in
  (forall st, stateTransitionCallbacks this st = []) ->
  start_time (session this) = start ->
  current_state (session this) <> conclusion ->
  end_time (session this) = None /\ total_duration (session this) = None ->
  stamped (snd (perform this c)).
Proof.
  cbv zeta. intros Hcb Hstart Hnot Hnone.
  assert (Ht : forall new_state d now,
             In (now 1%nat) (flat_map readings [c]) ->
             In (now 2%nat) (flat_map readings [c]) ->
             (forall st, stateTransitionCallbacks (snd (transition_to this new_state d now)) st = []) /\
             start_time (session (snd (transition_to this new_state d now))) = start /\
             match current_state (session (snd (transition_to this new_state d now))) with
             | conclusion =>
                 exists ended measured,
                   In ended (flat_map readings [c]) /\
                   In measured (flat_map readings [c]) /\
                   end_time (session (snd (transition_to this new_state d now)))
                   = Some ended /\
                   total_duration (session (snd (transition_to this new_state d now)))
                   = Some (measured - start)
             | _ => end_time (session (snd (transition_to this new_state d now))) = None /\
                    total_duration (session (snd (transition_to this new_state d now))) = None
             end).
  { intros new_state d now Hin1 Hin2. unfold transition_to.
    destruct (can_transition this new_state) eqn:Hcan.
    - apply can_transition_successor in Hcan.
      cbn [negb snd session stateTransitionCallbacks].
      rewrite !executeStateCallbacks_none by assumption.
      rewrite updateStateData_current_state. cbn [current_state].
      split; [assumption |].
      destruct (current_state (session this)), new_state; try discriminate Hcan;
        unfold updateStateData; destruct d; cbn; rewrite ?Hstart;
        (split; [reflexivity |]); try exact Hnone;
        exists (now 1%nat), (now 2%nat); repeat split; assumption.
    - cbn [negb snd]. split; [assumption |]. split; [assumption |].
      destruct (current_state (session this)); try exact Hnone. congruence. }
  destruct c as [new_state d now | now]; cbn [perform].
  - apply Ht; cbn; tauto.
  - unfold autoProgress.
    assert (Hstay : (forall st, stateTransitionCallbacks this st = []) /\
                    start_time (session this) = start /\
                    match current_state (session this) with
                    | conclusion =>
                        exists ended measured,
                          In ended (flat_map readings [AutoProgress now]) /\
                          In measured (flat_map readings [AutoProgress now]) /\
                          end_time (session this) = Some ended /\
                          total_duration (session this) = Some (measured - start)
                    | _ => end_time (session this) = None /\
                           total_duration (session this) = None
                    end).
    { split; [assumption |]. split; [assumption |].
      destruct (current_state (session this)); try exact Hnone. congruence. }
    destruct (isCurrentStateComplete this (now 0%nat)); cbn [negb snd];
      [| exact Hstay].
    destruct (getNextState this) as [next |] eqn:Hnext; [| exact Hstay].
    unfold completionReads.
    destruct (current_state (session this)) eqn:Hcur.
    + (* from introduction the target is not conclusion *)
      unfold getNextState in Hnext. rewrite Hcur in Hnext. cbn in Hnext.
      injection Hnext as <-.
      unfold transition_to, can_transition. rewrite Hcur. cbn.
      rewrite !executeStateCallbacks_none by assumption. cbn.
      split; [assumption |]. split; [assumption | exact Hnone].
    + apply Ht; cbn; tauto.
    + apply Ht; cbn; tauto.
    + apply Ht; cbn; tauto.
    + congruence.
Qed.

(** A session made by the factory and moved by any calls keeps its start
    time and carries an end time and a total duration exactly when it is
    in [conclusion]; the end time is then a reading of the clock made by
    one of the calls and the total duration is such a reading minus the
    start time (two readings, which need not be equal).  [exportSession],
    which stamps by the current state alone, defines the two fields for
    the same sessions, from its own two readings of the clock. *)
Theorem end_stamp_iff_concluded (responseId : Z) (totalQuestions totalTasks : option Z)
        (start : Z) (now : Clock) (calls : list call) :
  let this :=
    performAll (createExcelInterviewStateManager responseId totalQuestions totalTasks start)
               calls in
  start_time (session this) = start /\
  match current_state (session this) with
  | conclusion =>
      (exists ended measured,
         In ended (flat_map readings calls) /\ In measured (flat_map readings calls) /\
         end_time (session this) = Some ended /\
         total_duration (session this) = Some (measured - start)) /\
      end_time (exportSession this now) = Some (now 0%nat) /\
      total_duration (exportSession this now) = Some (now 1%nat - start)
  | _ =>
      end_time (session this) = None /\ total_duration (session this) = None /\
      end_time (exportSession this now) = None /\
      total_duration (exportSession this now) = None
  end.
Proof.
  cbv zeta.
  set (stamped := fun (seen : list call) (m : manager) =>
    (forall st, stateTransitionCallbacks m st = []) /\
    start_time (session m) = start /\
    match current_state (session m) with
    | conclusion =>
        exists ended measured,
          In ended (flat_map readings seen) /\ In measured (flat_map readings seen) /\
          end_time (session m) = Some ended /\
          total_duration (session m) = Some (measured - start)
    | _ => end_time (session m) = None /\ total_duration (session m) = None
    end).
  assert (Hall : forall calls seen this,
             stamped seen this -> stamped (seen ++ calls) (performAll this calls)).
  { clear calls. induction calls as [| c calls IH]; intros seen this H.
    - rewrite app_nil_r. exact H.
    - unfold performAll in *. cbn [fold_left].
      replace (seen ++ c :: calls) with ((seen ++ [c]) ++ calls)
        by (now rewrite <- app_assoc).
      apply IH. destruct H as (Hcb & Hstart & Hstamp).
      destruct (state_eqb (current_state (session this)) conclusion) eqn:Hconc.
      + assert (Hc : current_state (session this) = conclusion)
          by (destruct (current_state (session this)); cbn in Hconc; congruence).
        assert (Hsame : snd (perform this c) = this).
        { destruct c as [new_state d clock | clock]; cbn [perform].
          - unfold transition_to, can_transition. rewrite Hc. reflexivity.
          - unfold autoProgress, isCurrentStateComplete, getNextState. rewrite Hc.
            reflexivity. }
        rewrite Hsame. split; [assumption |]. split; [assumption |].
        rewrite Hc in *. destruct Hstamp as (ended & measured & H1 & H2 & H3 & H4).
        exists ended, measured. rewrite flat_map_app, !in_app_iff. tauto.
      + assert (Hc : current_state (session this) <> conclusion)
          by (intros Hc; rewrite Hc in Hconc; discriminate Hconc).
        assert (Hnone : end_time (session this) = None /\
                        total_duration (session this) = None)
          by (destruct (current_state (session this)); try exact Hstamp; congruence).
        pose proof (perform_end_stamp start this c Hcb Hstart Hc Hnone)
          as (Hcb' & Hstart' & Hstamp').
        split; [assumption |]. split; [assumption |].
        destruct (current_state (session (snd (perform this c)))); try exact Hstamp'.
        destruct Hstamp' as (ended & measured & H1 & H2 & H3 & H4).
        exists ended, measured. rewrite flat_map_app, !in_app_iff. tauto. }
  assert (H0 : stamped [] (createExcelInterviewStateManager responseId totalQuestions
                                                            totalTasks start)).
  { repeat split. }
  specialize (Hall calls [] _ H0). cbn [app] in Hall.
  destruct Hall as (_ & Hstart & Hstamp).
  split; [exact Hstart |]. unfold exportSession. cbn [end_time total_duration].
  rewrite Hstart.
  destruct (current_state (session (performAll _ calls))); cbn [state_eqb];
    try (destruct Hstamp; repeat split; assumption).
  split; [exact Hstamp | split; reflexivity].
Qed.

Lemma nonDecreasing_drop (l1 : list Z) :
  forall previous x l2,
    nonDecreasing previous (l1 ++ x :: l2) -> nonDecreasing previous (l1 ++ l2).
Proof.
  induction l1 as [| y l1 IH]; intros previous x l2; cbn.
  - intros [Hx Hl]. destruct l2 as [| z l2]; cbn in *; [exact I |].
    destruct Hl as [Hz Hl]. split; [lia | exact Hl].
  - intros [Hy Hl]. split; [exact Hy | now apply IH in Hl].
Qed.

Lemma nonDecreasing_weaken (l : list Z) (x y : Z) :
  x <= y -> nonDecreasing y l -> nonDecreasing x l.
Proof. destruct l as [| z l]; cbn; [trivial |]. intros Hxy [Hz Hl]. split; [lia | exact Hl]. Qed.

Lemma nonDecreasing_middle (l1 l2 : list Z) (a b c d : Z) :
  forall previous,
    nonDecreasing previous (l1 ++ a :: b :: c :: d :: l2) ->
    nonDecreasing previous (l1 ++ a :: l2) /\
    nonDecreasing previous (l1 ++ b :: l2) /\
    nonDecreasing previous (l1 ++ l2).
Proof.
  induction l1 as [| y l1 IH]; intros previous; cbn.
  - intros (Ha & Hb & Hc & Hd & Hl). repeat split; try lia.
    + apply (nonDecreasing_weaken l2 a d); [lia | exact Hl].
    + apply (nonDecreasing_weaken l2 b d); [lia | exact Hl].
    + apply (nonDecreasing_weaken l2 previous d); [lia | exact Hl].
  - intros [Hy Hl]. destruct (IH y Hl) as (H1 & H2 & H3). repeat split; assumption.
Qed.

(** Keeping one of the first two readings of a call keeps the order. *)
Lemma nonDecreasing_keep_one (l1 l2 : list Z) (previous : Z) (c : call) (kept : Z) :
  In kept (firstn 2 (readings c)) ->
  nonDecreasing previous (l1 ++ readings c ++ l2) ->
  nonDecreasing previous ((l1 ++ [kept]) ++ l2).
Proof.
  intros Hin Hs. rewrite <- app_assoc. cbn [app].
  destruct c as [new_state d now | now]; cbn [readings firstn In app] in *;
    apply nonDecreasing_middle in Hs; destruct Hs as (H1 & H2 & _);
    destruct Hin as [<- | [<- | []]]; assumption.
Qed.

Lemma nonDecreasing_drop_all (l1 l2 : list Z) (previous : Z) (c : call) :
  nonDecreasing previous (l1 ++ readings c ++ l2) ->
  nonDecreasing previous (l1 ++ l2).
Proof.
  intros Hs.
  destruct c as [new_state d now | now]; cbn [readings app] in Hs;
    now apply nonDecreasing_middle in Hs.
Qed.

(** A call leaves the timestamps as they are or appends one of its first
    two readings of the clock. *)
Lemma perform_timestamps (this : manager) (c : call) :
  (forall st, stateTransitionCallbacks this st = []) ->
  (forall st, stateTransitionCallbacks (snd (perform this c)) st = []) /\
  (timestamps (snd (perform this c)) = timestamps this \/
   exists kept,
     In kept (firstn 2 (readings c)) /\
     timestamps (snd (perform this c)) = timestamps this ++ [kept]).
Proof.
  intros Hcb.
  assert (Ht : forall new_state d now,
             (forall st, stateTransitionCallbacks (snd (transition_to this new_state d now)) st = []) /\
             (timestamps (snd (transition_to this new_state d now)) = timestamps this \/
              timestamps (snd (transition_to this new_state d now))
              = timestamps this ++ [now 0%nat])).
  { intros new_state d now. unfold transition_to, timestamps.
    destruct (can_transition this new_state); cbn [negb snd]; [| split; [exact Hcb | now left]].
    cbn [session stateTransitionCallbacks].
    rewrite !executeStateCallbacks_none by assumption.
    rewrite updateStateData_state_history. cbn [state_history].
    split; [exact Hcb | right]. now rewrite map_app. }
  destruct c as [new_state d now | now]; cbn [perform].
  - destruct (Ht new_state d now) as (Hcb' & [Hsame | Hmore]).
    + split; [exact Hcb' | now left].
    + split; [exact Hcb' | right]. exists (now 0%nat). split; [now left | exact Hmore].
  - unfold autoProgress.
    destruct (isCurrentStateComplete this (now 0%nat)); cbn [negb snd];
      [| split; [exact Hcb | now left]].
    destruct (getNextState this) as [next |]; [| split; [exact Hcb | now left]].
    destruct (Ht next (Some auto_progress_data) (later (completionReads this) now))
      as (Hcb' & [Hsame | Hmore]).
    + split; [exact Hcb' | now left].
    + split; [exact Hcb' | right].
      exists (later (completionReads this) now 0%nat). split; [| exact Hmore].
      unfold later, completionReads.
      destruct (current_state (session this)); cbn; tauto.
Qed.

Lemma performAll_timestamps (calls : list call) :
  forall (previous : Z) (this : manager),
    (forall st, stateTransitionCallbacks this st = []) ->
    nonDecreasing previous (timestamps this ++ flat_map readings calls) ->
    nonDecreasing previous (timestamps (performAll this calls)).
Proof.
  induction calls as [| c calls IH]; intros previous this Hcb Hs.
  - cbn in Hs. now rewrite app_nil_r in Hs.
  - unfold performAll in *. cbn [fold_left]. cbn [flat_map] in Hs.
    destruct (perform_timestamps this c Hcb) as (Hcb' & [Hsame | (kept & Hin & Hmore)]).
    + apply IH; [exact Hcb' |]. rewrite Hsame.
      now apply nonDecreasing_drop_all in Hs.
    + apply IH; [exact Hcb' |]. rewrite Hmore.
      now apply (nonDecreasing_keep_one _ _ _ c).
Qed.

(** When the clock never goes back between the creation of a session and
    the readings of the calls made on it, the timestamps of the recorded
    transitions are in non-decreasing order and none is before the start
    of the session. *)
Theorem history_timestamps_ordered (responseId : Z) (totalQuestions totalTasks : option Z)
        (start : Z) (calls : list call) :
  nonDecreasing start (flat_map readings calls) ->
  nonDecreasing start
    (timestamps (performAll (createExcelInterviewStateManager responseId totalQuestions
                                                              totalTasks start) calls)).
Proof.
  intros Hs. apply performAll_timestamps; [reflexivity | exact Hs].
Qed.

Lemma history_timestamps_ordered_witness :
  nonDecreasing 1000
    (timestamps (performAll (createExcelInterviewStateManager 7 None None 1000)
                            [TransitionTo conceptual_questions None (ticking 2000);
                             AutoProgress (ticking 2500);
                             TransitionTo practical_tasks None (ticking 3000)])).
Proof.
  apply (history_timestamps_ordered 7 None None 1000
           [TransitionTo conceptual_questions None (ticking 2000);
            AutoProgress (ticking 2500);
            TransitionTo practical_tasks None (ticking 3000)]).
  cbn. lia.
Defined.

Lemma atMost100_le (x : Q) : (atMost100 x <= 100)%Q.
Proof.
  unfold atMost100. destruct (Qle_bool 100 x) eqn:Hx; [apply Qle_refl |].
  apply Qlt_le_weak, Qnot_le_lt. intros Hle.
  apply Qle_bool_iff in Hle. congruence.
Qed.

Lemma atMost100_ge (low x : Q) :
  (low <= 100)%Q -> (low <= x)%Q -> (low <= atMost100 x)%Q.
Proof. intros H1 H2. unfold atMost100. now destruct (Qle_bool 100 x). Qed.

Lemma share_nonneg (completed total : Z) (weight : Q) :
  0 <= completed -> 0 <= total -> (0 <= weight)%Q ->
  (0 <= inject_Z completed / inject_Z (orOne total) * weight)%Q.
Proof.
  intros Hc Ht Hw. apply Qmult_le_0_compat; [| exact Hw].
  apply Qle_shift_div_l.
  - unfold orOne. destruct (total =? 0) eqn:H0; [reflexivity |].
    apply Z.eqb_neq in H0. unfold Qlt, inject_Z. cbn. lia.
  - rewrite Qmult_0_l. unfold Qle, inject_Z. cbn. lia.
Qed.

(** The progress percentage never exceeds 100 and is 100 in
    [conclusion]; when the counters of the current phase are not negative
    it is at least the summed weight of the phases before the current
    one. *)
Theorem getProgressPercentage_bounds (this : manager) (now : Z) :
  (getProgressPercentage this now <= 100)%Q /\
  (current_state (session this) = conclusion ->
   (getProgressPercentage this now == 100)%Q) /\
  (0 <= fst (phaseCounters this) -> 0 <= snd (phaseCounters this) ->
   (completedWeight (current_state (session this)) <= getProgressPercentage this now)%Q).
Proof.
  split; [apply atMost100_le |]. split.
  - intros Hc. unfold getProgressPercentage, isCurrentStateComplete.
    rewrite Hc. reflexivity.
  - unfold getProgressPercentage, phaseCounters. intros Hc Ht.
    apply atMost100_ge.
    + destruct (current_state (session this)); vm_compute; discriminate.
    + rewrite <- (Qplus_0_r (completedWeight _)) at 1.
      apply Qplus_le_r.
      destruct (current_state (session this)); cbn [fst snd] in Hc, Ht;
        try (destruct (isCurrentStateComplete this now); cbn; discriminate).
      * apply share_nonneg; [assumption | assumption | discriminate].
      * apply share_nonneg; [assumption | assumption | discriminate].
Qed.

End StateMachineMoreFacts.

(* --------------------------------------------------------------------- *)
(** ** Skill levels                                                       *)
(* --------------------------------------------------------------------- *)

Section SkillLevelFacts.

Import ExcelSkillLevelUtils SkillLevelOrder SkillRequirements.

(** The level utilities agree with each other: [getNextLevel] and
    [getPreviousLevel] are inverse to each other, the next level compares
    exactly one above, the comparison is the difference of the complexity
    scores, is antisymmetric and is zero only on equal levels, and
    [isHigherLevel] holds exactly when the comparison is positive, that
    is when the first level has the greater complexity score. *)
Theorem level_order (a b : ExcelSkillLevel) :
  (getNextLevel a = Some b <-> getPreviousLevel b = Some a) /\
  (getNextLevel a = Some b <-> compareSkillLevels b a = 1) /\
  compareSkillLevels a b = getComplexityScore a - getComplexityScore b /\
  compareSkillLevels a b = - compareSkillLevels b a /\
  (compareSkillLevels a b = 0 <-> a = b) /\
  (isHigherLevel a b = true <-> 0 < compareSkillLevels a b) /\
  (isHigherLevel a b = true <-> getComplexityScore b < getComplexityScore a) /\
  isHigherLevel a b = negb (isHigherLevel b a) && negb (level_eqb a b).
Proof.
  destruct a, b; cbn; repeat split; intros; try congruence; try lia.
Qed.

Lemma existsb_includes_mono (names used : list string) :
  existsb (fun func => includes used func) names = true ->
  forall used', (forall x, In x used -> In x used') ->
  existsb (fun func => includes used' func) names = true.
Proof.
  intros H used' Hsub. apply existsb_exists in H. destruct H as (x & Hx & Hin).
  apply existsb_exists. exists x. split; [exact Hx |].
  apply includes_In. apply Hsub. now apply includes_In.
Qed.

Lemma Qle_bool_trans_true (k a b : Q) :
  Qle_bool k a = true -> (a <= b)%Q -> Qle_bool k b = true.
Proof.
  intros H Hab. apply Qle_bool_iff. apply Qle_bool_iff in H.
  now apply Qle_trans with a.
Qed.

(** The level read from the metrics never goes down when the accuracy or
    the complexity goes up or when more functions are used. *)
Theorem determineSkillLevel_monotone (used used' : list string)
        (accuracy accuracy' complexity complexity' : Q) :
  (forall x, In x used -> In x used') ->
  (accuracy <= accuracy')%Q -> (complexity <= complexity')%Q ->
  compareSkillLevels (determineSkillLevel used accuracy complexity)
                     (determineSkillLevel used' accuracy' complexity') <= 0.
Proof.
  intros Hsub Ha Hc. unfold determineSkillLevel.
  destruct (existsb _ (getRecommendedFunctions advanced) && Qle_bool 80 accuracy &&
            Qle_bool 3 complexity) eqn:Hadv.
  - apply andb_true_iff in Hadv. destruct Hadv as (Hadv & H3).
    apply andb_true_iff in Hadv. destruct Hadv as (Hf & H80).
    rewrite (existsb_includes_mono _ _ Hf used' Hsub).
    rewrite (Qle_bool_trans_true _ _ _ H80 Ha), (Qle_bool_trans_true _ _ _ H3 Hc).
    cbn. lia.
  - destruct (existsb _ (getRecommendedFunctions intermediate) && Qle_bool 70 accuracy &&
              Qle_bool 2 complexity) eqn:Hint.
    + apply andb_true_iff in Hint. destruct Hint as (Hint & H2).
      apply andb_true_iff in Hint. destruct Hint as (Hf & H70).
      rewrite (existsb_includes_mono _ _ Hf used' Hsub).
      rewrite (Qle_bool_trans_true _ _ _ H70 Ha), (Qle_bool_trans_true _ _ _ H2 Hc).
      cbn [andb].
      destruct (existsb _ (getRecommendedFunctions advanced) && Qle_bool 80 accuracy' &&
                Qle_bool 3 complexity'); cbn; lia.
    + destruct (existsb _ (getRecommendedFunctions advanced) && Qle_bool 80 accuracy' &&
                Qle_bool 3 complexity');
        [cbn; lia |].
      destruct (existsb _ (getRecommendedFunctions intermediate) && Qle_bool 70 accuracy' &&
                Qle_bool 2 complexity'); cbn; lia.
Qed.

Lemma determineSkillLevel_monotone_witness :
  compareSkillLevels (determineSkillLevel ["VLOOKUP"%string] 75 2)
                     (determineSkillLevel ["VLOOKUP"; "INDEX"]%string 90 3) <= 0.
Proof.
  apply (determineSkillLevel_monotone ["VLOOKUP"%string] ["VLOOKUP"; "INDEX"]%string
           75 90 2 3).
  - intros x Hx. cbn in *. tauto.
  - unfold Qle. cbn. lia.
  - unfold Qle. cbn. lia.
Defined.

(** The level read from the metrics is never above what the accuracy, the
    complexity and the functions used allow: its complexity score is at
    most the complexity given (basic apart), an accuracy under 70 gives
    basic, and a level above basic needs one of that level's recommended
    functions among those used. *)
Theorem determineSkillLevel_bounded (used : list string) (accuracy complexity : Q) :
  let level := determineSkillLevel used accuracy complexity in
  (level = basic \/ (inject_Z (getComplexityScore level) <= complexity)%Q) /\
  (Qltb accuracy 70 = true -> level = basic) /\
  (level = basic \/
   exists name, In name (getRecommendedFunctions level) /\ In name used).
Proof.
  cbv zeta. unfold determineSkillLevel.
  destruct (existsb _ (getRecommendedFunctions advanced) && Qle_bool 80 accuracy &&
            Qle_bool 3 complexity) eqn:Hadv.
  - apply andb_true_iff in Hadv. destruct Hadv as (Hadv & H3).
    apply andb_true_iff in Hadv. destruct Hadv as (Hf & H80).
    apply Qle_bool_iff in H3. apply Qle_bool_iff in H80.
    split; [right; exact H3 |]. split.
    + intros Hlt. apply Qltb_true in Hlt. exfalso.
      apply (Qlt_irrefl 70). apply Qle_lt_trans with accuracy; [| exact Hlt].
      apply Qle_trans with 80%Q; [discriminate | exact H80].
    + right. apply existsb_exists in Hf. destruct Hf as (x & Hx & Hin).
      exists x. split; [exact Hx | now apply includes_In].
  - destruct (existsb _ (getRecommendedFunctions intermediate) && Qle_bool 70 accuracy &&
              Qle_bool 2 complexity) eqn:Hint.
    + apply andb_true_iff in Hint. destruct Hint as (Hint & H2).
      apply andb_true_iff in Hint. destruct Hint as (Hf & H70).
      apply Qle_bool_iff in H2. apply Qle_bool_iff in H70.
      split; [right; exact H2 |]. split.
      * intros Hlt. apply Qltb_true in Hlt. exfalso.
        apply (Qlt_irrefl 70). now apply Qle_lt_trans with accuracy.
      * right. apply existsb_exists in Hf. destruct Hf as (x & Hx & Hin).
        exists x. split; [exact Hx | now apply includes_In].
    + split; [now left |]. split; [reflexivity | now left].
Qed.

(** The requirements of a level are met exactly when the level has a
    configuration, every function it requires is among the user's and the
    score reaches its formula-accuracy criterion; the functions reported
    missing are the required ones the user lacks, in the order of the
    configuration. *)
Theorem checkSkillLevelRequirements_spec (config : option ExcelSkillConfig)
        (userFunctions : list string) (performanceScore : Q) :
  let check := checkSkillLevelRequirements config userFunctions performanceScore in
  (meets check = true <->
   exists c, config = Some c /\
             (forall name, In name (function_requirements c) -> In name userFunctions) /\
             (ec_formula_accuracy (evaluation_criteria c) <= performanceScore)%Q) /\
  (forall name,
     In name (missingFunctions check) <->
     exists c, config = Some c /\ In name (function_requirements c) /\
               ~ In name userFunctions) /\
  (meets check = true -> missingFunctions check = []) /\
  actualScore check = performanceScore.
Proof.
  cbv zeta. destruct config as [c |]; cbn.
  - assert (Hmiss : forall name,
               In name (filter (fun func => negb (includes userFunctions func))
                               (function_requirements c)) <->
               In name (function_requirements c) /\ ~ In name userFunctions).
    { intros name. rewrite filter_In. rewrite negb_true_iff.
      split; intros (H1 & H2); (split; [exact H1 |]).
      - intros Hin. apply includes_In in Hin. congruence.
      - destruct (includes userFunctions name) eqn:Hi; [| reflexivity].
        apply includes_In in Hi. contradiction. }
    repeat split.
    + intros H. apply andb_true_iff in H. destruct H as (Hlen & Hscore).
      exists c. split; [reflexivity |]. split; [| now apply Qle_bool_iff].
      intros name Hreq. apply Nat.eqb_eq, length_zero_iff_nil in Hlen.
      destruct (includes userFunctions name) eqn:Hi; [now apply includes_In |].
      assert (Hin : In name (filter (fun func => negb (includes userFunctions func))
                                    (function_requirements c))).
      { apply Hmiss. split; [exact Hreq |]. intros Hu.
        apply includes_In in Hu. congruence. }
      rewrite Hlen in Hin. contradiction.
    + intros (c' & Hc & Hall & Hscore). injection Hc as <-.
      apply andb_true_iff. split; [| now apply Qle_bool_iff].
      apply Nat.eqb_eq, length_zero_iff_nil.
      destruct (filter _ (function_requirements c)) as [| name rest] eqn:Hf;
        [reflexivity |].
      destruct (proj1 (Hmiss name) (or_introl eq_refl)) as (Hreq & Hnot).
      now apply Hall in Hreq.
    + intros H. apply Hmiss in H. exists c. now split.
    + intros (c' & Hc & H). injection Hc as <-. now apply Hmiss.
    + intros H. apply andb_true_iff in H. destruct H as (Hlen & _).
      now apply Nat.eqb_eq, length_zero_iff_nil in Hlen.
  - repeat split; try discriminate.
    + intros (c & Hc & _). discriminate.
    + intros [].
    + intros (c & Hc & _). discriminate.
Qed.

End SkillLevelFacts.

(* --------------------------------------------------------------------- *)
(** ** Analytics service                                                  *)
(* --------------------------------------------------------------------- *)

Section AnalyticsServiceFacts.

Import Number ExcelAnalyticsService BenchmarkAnalysis SkillProgression.

Lemma percentileRank_steps (skillLevel : ExcelSkillLevel) (score : Q) :
  let k := belowScore score (scoreDistribution (getBenchmarkData skillLevel)) in
  calculatePercentileRank score (scoreDistribution (getBenchmarkData skillLevel)) =
    Num (inject_Z (20 * Z.of_nat k)) /\
  (k <= 5)%nat.
Proof.
  cbv zeta. unfold calculatePercentileRank, belowScore.
  destruct skillLevel; cbn [getBenchmarkData scoreDistribution filter];
    repeat match goal with
           | |- context [Qltb ?a score] => destruct (Qltb a score)
           end;
    split; solve [vm_compute; reflexivity | cbn; lia].
Qed.

(** The percentile rank is 20 times the number of benchmark scores that
    are strictly below the overall score, so one of 0, 20, ..., 100, and
    the competitive position follows that number: bottom for none, below
    average for one, average for two or three, above average for four,
    top for all five. *)
Theorem generateBenchmarkAnalysis_rank (skillLevel : ExcelSkillLevel)
        (overallScore conceptualScore practicalScore completionTime : Q) :
  let analysis :=
    generateBenchmarkAnalysis skillLevel overallScore conceptualScore practicalScore
                              completionTime in
  let k := belowScore overallScore (scoreDistribution (getBenchmarkData skillLevel)) in
  percentileRank analysis = Num (inject_Z (20 * Z.of_nat k)) /\
  (k <= 5)%nat /\
  competitivePosition analysis =
    match k with
    | 0%nat => bottom
    | 1%nat => below_average
    | 2%nat | 3%nat => average_position
    | 4%nat => above_average
    | _ => top
    end.
Proof.
  cbv zeta. unfold generateBenchmarkAnalysis.
  cbn [percentileRank competitivePosition].
  destruct (percentileRank_steps skillLevel overallScore) as (Hrank & Hk).
  rewrite Hrank. split; [reflexivity |]. split; [exact Hk |].
  destruct (belowScore overallScore _) as [| [| [| [| [| [| k]]]]]];
    try (vm_compute; reflexivity).
  lia.
Qed.

Lemma belowScore_mono (distribution : list Q) (score score' : Q) :
  (score <= score')%Q ->
  (belowScore score distribution <= belowScore score' distribution)%nat.
Proof.
  intros Hle. unfold belowScore.
  induction distribution as [| x rest IH]; [cbn; lia |].
  cbn [filter]. destruct (Qltb x score) eqn:H1.
  - apply Qltb_true in H1.
    assert (H2 : Qltb x score' = true).
    { destruct (Qltb x score') eqn:H2; [reflexivity |].
      apply Qltb_false in H2. exfalso. apply H2.
      now apply Qlt_le_trans with score. }
    rewrite H2. cbn [length]. apply le_n_S, IH.
  - destruct (Qltb x score'); cbn [length]; lia.
Qed.

(** A higher overall score never gives a lower percentile rank. *)
Theorem percentileRank_monotone (skillLevel : ExcelSkillLevel)
        (score score' conceptualScore practicalScore completionTime : Q) :
  (score <= score')%Q ->
  le (percentileRank (generateBenchmarkAnalysis skillLevel score conceptualScore
                                                practicalScore completionTime))
     (percentileRank (generateBenchmarkAnalysis skillLevel score' conceptualScore
                                                practicalScore completionTime)) = true.
Proof.
  intros Hle. unfold generateBenchmarkAnalysis. cbn [percentileRank].
  destruct (percentileRank_steps skillLevel score) as (-> & _).
  destruct (percentileRank_steps skillLevel score') as (-> & _).
  cbn [le]. apply Qle_bool_iff. rewrite <- Zle_Qle.
  pose proof (belowScore_mono (scoreDistribution (getBenchmarkData skillLevel))
                              score score' Hle).
  lia.
Qed.

Lemma percentileRank_monotone_witness :
  le (percentileRank (generateBenchmarkAnalysis intermediate 60 0 0 0))
     (percentileRank (generateBenchmarkAnalysis intermediate 85 0 0 0)) = true.
Proof.
  apply (percentileRank_monotone intermediate 60 85 0 0 0).
  unfold Qle. cbn. lia.
Defined.

(** Without any conceptual score the progression score is not a number
    and the candidate is never reported ready for the next level,
    whatever the practical scores. *)
Theorem progression_without_conceptual_scores (currentSkillLevel : ExcelSkillLevel)
        (practicalScores : PracticalScores) :
  progressionScore [] practicalScores = NaN /\
  readinessForNextLevel currentSkillLevel [] practicalScores = false.
Proof.
  unfold readinessForNextLevel, progressionScore. cbn [map].
  assert (H : average [] = NaN) by reflexivity.
  rewrite H. split; reflexivity.
Qed.

Lemma fold_left_Qplus_shift (xs : list Q) :
  forall acc, (fold_left Qplus xs acc == acc + fold_left Qplus xs 0)%Q.
Proof.
  induction xs as [| x xs IH]; intros acc; cbn [fold_left].
  - now rewrite Qplus_0_r.
  - rewrite (IH (acc + x)%Q), (IH (0 + x)%Q), Qplus_0_l, Qplus_assoc. reflexivity.
Qed.

Lemma sumQ_cons (x : Q) (xs : list Q) : (sumQ (x :: xs) == x + sumQ xs)%Q.
Proof.
  unfold sumQ. cbn [fold_left]. rewrite fold_left_Qplus_shift, Qplus_0_l. reflexivity.
Qed.

Lemma sumQ_lower (low : Q) (xs : list Q) :
  (forall x, In x xs -> (low <= x)%Q) ->
  (inject_Z (Z.of_nat (length xs)) * low <= sumQ xs)%Q.
Proof.
  induction xs as [| x xs IH]; intros H.
  - cbn. rewrite Qmult_0_l. apply Qle_refl.
  - rewrite sumQ_cons. cbn [length]. rewrite Nat2Z.inj_succ, <- Z.add_1_l, inject_Z_plus.
    rewrite Qmult_plus_distr_l, Qmult_1_l.
    apply Qplus_le_compat; [apply H; now left |].
    apply IH. intros y Hy. apply H. now right.
Qed.

Lemma sumQ_upper (high : Q) (xs : list Q) :
  xs <> [] ->
  (forall x, In x xs -> (x < high)%Q) ->
  (sumQ xs < inject_Z (Z.of_nat (length xs)) * high)%Q.
Proof.
  induction xs as [| x xs IH]; intros Hne H; [congruence |].
  rewrite sumQ_cons. cbn [length]. rewrite Nat2Z.inj_succ, <- Z.add_1_l, inject_Z_plus.
  rewrite Qmult_plus_distr_l, Qmult_1_l.
  destruct xs as [| y ys].
  - cbn. rewrite Qmult_0_l, !Qplus_0_r. apply H. now left.
  - apply Qplus_lt_le_compat; [apply H; now left |].
    apply Qlt_le_weak, IH; [discriminate |].
    intros z Hz. apply H. now right.
Qed.

Lemma average_nonempty (xs : list Q) :
  xs <> [] ->
  average xs = Num (sumQ xs / inject_Z (Z.of_nat (length xs))) /\
  (0 < inject_Z (Z.of_nat (length xs)))%Q.
Proof.
  intros Hne. destruct xs as [| x xs]; [congruence |].
  assert (Hpos : (0 < inject_Z (Z.of_nat (length (x :: xs))))%Q).
  { unfold Qlt, inject_Z. cbn [Qnum Qden length]. lia. }
  split; [| exact Hpos].
  unfold average, div, ofNat, isZero.
  destruct (Qeq_bool (inject_Z (Z.of_nat (length (x :: xs)))) 0) eqn:Hz; [| reflexivity].
  apply Qeq_bool_iff in Hz. rewrite Hz in Hpos. now apply Qlt_irrefl in Hpos.
Qed.

Lemma progressionScore_nonempty (conceptualScores : list (string * Q))
      (practicalScores : PracticalScores) :
  conceptualScores <> [] ->
  progressionScore conceptualScores practicalScores =
    Num ((sumQ (map snd conceptualScores) /
          inject_Z (Z.of_nat (length (map snd conceptualScores))) +
          (accuracy practicalScores + efficiency practicalScores +
           bestPractices practicalScores) / 3) / 2).
Proof.
  intros Hne. unfold progressionScore.
  destruct (average_nonempty (map snd conceptualScores)) as (-> & _).
  { destruct conceptualScores; [congruence | discriminate]. }
  reflexivity.
Qed.

Lemma mean_lower (t avg a e b : Q) :
  (t <= avg -> t <= a -> t <= e -> t <= b -> t <= (avg + (a + e + b) / 3) / 2)%Q.
Proof.
  intros Havg Ha He Hb. unfold Qdiv.
  assert (Hthird : (/ 3 == 1 # 3)%Q) by reflexivity.
  assert (Hhalf : (/ 2 == 1 # 2)%Q) by reflexivity.
  rewrite Hthird, Hhalf. lra.
Qed.

Lemma mean_upper (t avg a e b : Q) :
  (avg < t -> a < t -> e < t -> b < t -> (avg + (a + e + b) / 3) / 2 < t)%Q.
Proof.
  intros Havg Ha He Hb. unfold Qdiv.
  assert (Hthird : (/ 3 == 1 # 3)%Q) by reflexivity.
  assert (Hhalf : (/ 2 == 1 # 2)%Q) by reflexivity.
  rewrite Hthird, Hhalf. lra.
Qed.

(** With at least one conceptual score, a candidate whose conceptual and
    practical scores all reach the readiness threshold of the level is
    reported ready for the next level, and one whose scores are all under
    it is not. *)
Theorem readiness_follows_scores (currentSkillLevel : ExcelSkillLevel)
        (conceptualScores : list (string * Q)) (practicalScores : PracticalScores) :
  conceptualScores <> [] ->
  let threshold := getReadinessThreshold currentSkillLevel in
  ((forall entry, In entry conceptualScores -> (threshold <= snd entry)%Q) ->
   (threshold <= accuracy practicalScores)%Q ->
   (threshold <= efficiency practicalScores)%Q ->
   (threshold <= bestPractices practicalScores)%Q ->
   readinessForNextLevel currentSkillLevel conceptualScores practicalScores = true) /\
  ((forall entry, In entry conceptualScores -> (snd entry < threshold)%Q) ->
   (accuracy practicalScores < threshold)%Q ->
   (efficiency practicalScores < threshold)%Q ->
   (bestPractices practicalScores < threshold)%Q ->
   readinessForNextLevel currentSkillLevel conceptualScores practicalScores = false).
Proof.
  intros Hne. cbv zeta. unfold readinessForNextLevel.
  rewrite (progressionScore_nonempty _ _ Hne). cbn [ge le].
  destruct (average_nonempty (map snd conceptualScores)) as (_ & Hpos).
  { destruct conceptualScores; [congruence | discriminate]. }
  set (n := inject_Z (Z.of_nat (length (map snd conceptualScores)))) in *.
  set (t := getReadinessThreshold currentSkillLevel).
  split.
  - intros Hall Ha He Hb. apply Qle_bool_iff.
    assert (Havg : (t <= sumQ (map snd conceptualScores) / n)%Q).
    { apply Qle_shift_div_l; [exact Hpos |]. rewrite Qmult_comm.
      apply sumQ_lower. intros x Hx. apply in_map_iff in Hx.
      destruct Hx as (entry & <- & Hin). now apply Hall. }
    now apply mean_lower.
  - intros Hall Ha He Hb.
    destruct (Qle_bool t _) eqn:Hle; [| reflexivity].
    apply Qle_bool_iff in Hle. exfalso.
    assert (Havg : (sumQ (map snd conceptualScores) / n < t)%Q).
    { apply Qlt_shift_div_r; [exact Hpos |]. rewrite Qmult_comm.
      apply sumQ_upper.
      - destruct conceptualScores; [congruence | discriminate].
      - intros x Hx. apply in_map_iff in Hx.
        destruct Hx as (entry & <- & Hin). now apply Hall. }
    apply (Qlt_irrefl t). eapply Qle_lt_trans; [exact Hle |].
    now apply mean_upper.
Qed.

Lemma readiness_follows_scores_witness :
  readinessForNextLevel basic [("Formulas"%string, 80%Q); ("Charts"%string, 76%Q)]
                        (mkPracticalScores 75 90 78) = true.
Proof.
  apply (readiness_follows_scores basic
           [("Formulas"%string, 80%Q); ("Charts"%string, 76%Q)]
           (mkPracticalScores 75 90 78)).
  - discriminate.
  - intros entry [<- | [<- | []]]; cbn; unfold Qle; cbn; lia.
  - cbn. unfold Qle. cbn. lia.
  - cbn. unfold Qle. cbn. lia.
  - cbn. unfold Qle. cbn. lia.
Defined.

Lemma filter_exclusive_length {A : Type} (p q : A -> bool) (xs : list A) :
  (forall x, p x = true -> q x = true -> False) ->
  (length (filter p xs) + length (filter q xs) <= length xs)%nat.
Proof.
  intros Hex. induction xs as [| x xs IH]; [cbn; lia |].
  cbn [filter]. destruct (p x) eqn:Hp, (q x) eqn:Hq; cbn [length]; try lia.
  exfalso. now apply (Hex x).
Qed.

(** A score counts as a gap under its limit (60 for a conceptual
    category, 70 for a practical score) and as a strength from 80 on, so
    no score is reported as both: the gaps and the strengths together
    are at most one per score, plus one strength for function diversity
    from five functions on. *)
Theorem gaps_and_strengths_exclusive (skillLevel : ExcelSkillLevel)
        (conceptualScores : list (string * Q)) (practicalScores : PracticalScores)
        (functionsUsed : list string) :
  (length (identifySkillGaps skillLevel conceptualScores practicalScores) +
   length (identifyStrengths conceptualScores practicalScores functionsUsed)
   <= length conceptualScores + 3 +
      (if (5 <=? length functionsUsed)%nat then 1 else 0))%nat.
Proof.
  assert (Hex : forall x, Qltb x 70 = true -> Qle_bool 80 x = true -> False).
  { intros x H1 H2. apply Qltb_true in H1. apply Qle_bool_iff in H2. lra. }
  unfold identifySkillGaps, identifyStrengths.
  pose proof (filter_exclusive_length
                (fun entry : string * Q => Qltb (snd entry) 60)
                (fun entry : string * Q => Qle_bool 80 (snd entry)) conceptualScores) as Hc.
  assert (Hexc : forall x : string * Q,
             Qltb (snd x) 60 = true -> Qle_bool 80 (snd x) = true -> False).
  { intros x H1 H2. apply Qltb_true in H1. apply Qle_bool_iff in H2. lra. }
  specialize (Hc Hexc).
  pose proof (Hex (accuracy practicalScores)) as Ha.
  pose proof (Hex (efficiency practicalScores)) as He.
  pose proof (Hex (bestPractices practicalScores)) as Hb.
  destruct (Qltb (accuracy practicalScores) 70), (Qle_bool 80 (accuracy practicalScores));
    try (exfalso; now apply Ha);
    destruct (Qltb (efficiency practicalScores) 70),
             (Qle_bool 80 (efficiency practicalScores));
    try (exfalso; now apply He);
    destruct (Qltb (bestPractices practicalScores) 70),
             (Qle_bool 80 (bestPractices practicalScores));
    try (exfalso; now apply Hb);
    destruct (5 <=? length functionsUsed)%nat;
    rewrite ?length_app, ?length_map; cbn [length]; lia.
Qed.

End AnalyticsServiceFacts.

(* --------------------------------------------------------------------- *)
(** ** Evaluation service: helpers of the analytics report               *)
(* --------------------------------------------------------------------- *)

Section EvaluationHelperFacts.

Import Number ExcelEvaluationService.

Variable sqrtQ : Q -> Q.

Lemma fold_left_snoc_flat_map {A B : Type} (g : A -> list B) (l : list A) :
  forall acc, fold_left (fun out x => out ++ g x) l acc = acc ++ flat_map g l.
Proof.
  induction l as [| x l IH]; intros acc; cbn; [now rewrite app_nil_r |].
  now rewrite IH, app_assoc.
Qed.

Lemma generateImprovementPlan_flat_map (skillLevel : ExcelSkillLevel)
      (skillBreakdown : ExcelSkillBreakdown) (conceptualProgress : ConceptualProgress)
      (practicalProgress : PracticalProgress) :
  exists item : string -> SkillScore -> ImprovementPlan,
    (forall name breakdown,
       skill (item name breakdown) = replaceFirst "_" " " name /\
       plan_current_level (item name breakdown) = sk_score breakdown /\
       target_level (item name breakdown) = Num 80 /\
       priority (item name breakdown) =
         (if lt (sk_score breakdown) (Num 50) then high else medium)) /\
    generateImprovementPlan skillLevel skillBreakdown conceptualProgress practicalProgress =
      flat_map (fun entry =>
                  if lt (sk_score (snd entry)) (Num 70)
                  then [item (fst entry) (snd entry)] else [])
               (breakdownEntries skillBreakdown).
Proof.
  eexists (fun name breakdown => mkPlan _ _ _ _ _ _ _).
  split.
  - intros name breakdown. cbn [skill plan_current_level target_level priority].
    repeat split.
  - unfold generateImprovementPlan.
    rewrite <- (app_nil_l (flat_map _ _)), <- fold_left_snoc_flat_map.
    apply fold_left_pointwise. intros plan [name breakdown]. cbn [fst snd].
    destruct (lt (sk_score breakdown) (Num 70)); [reflexivity | now rewrite app_nil_r].
Qed.

(** Every entry of the improvement plan is a skill of the breakdown whose
    score is under 70, with target 80 and priority high exactly when the
    score is under 50 (never low); the plan has at most six entries, and a
    skill whose score is not a number is never planned. *)
Theorem improvement_plan_entries (skillLevel : ExcelSkillLevel)
        (skillBreakdown : ExcelSkillBreakdown) (conceptualProgress : ConceptualProgress)
        (practicalProgress : PracticalProgress) :
  let plan :=
    generateImprovementPlan skillLevel skillBreakdown conceptualProgress
                            practicalProgress in
  Forall (fun item =>
            lt (plan_current_level item) (Num 70) = true /\
            plan_current_level item <> NaN /\
            target_level item = Num 80 /\
            priority item =
              (if lt (plan_current_level item) (Num 50) then high else medium) /\
            exists entry,
              In entry (breakdownEntries skillBreakdown) /\
              skill item = replaceFirst "_" " " (fst entry) /\
              plan_current_level item = sk_score (snd entry))
         plan /\
  (length plan <= 6)%nat.
Proof.
  cbv zeta.
  destruct (generateImprovementPlan_flat_map skillLevel skillBreakdown conceptualProgress
              practicalProgress) as (item & Hitem & ->).
  split.
  - apply Forall_forall. intros x Hx. apply in_flat_map in Hx.
    destruct Hx as (entry & Hentry & Hx).
    destruct (lt (sk_score (snd entry)) (Num 70)) eqn:Hlt; [| contradiction].
    destruct Hx as [<- | []].
    destruct (Hitem (fst entry) (snd entry)) as (Hs & Hc & Ht & Hp).
    rewrite Hc, Ht, Hp. repeat split; try assumption.
    + intros Hnan. rewrite Hnan in Hlt. discriminate Hlt.
    + exists entry. repeat split; assumption.
  - unfold breakdownEntries. cbn [flat_map fst snd].
    repeat match goal with
           | |- context [if ?c then _ else _] => destruct c
           end; cbn; lia.
Qed.

(** The plan made from the breakdown of [analyzeSkillBreakdown] never
    holds the presentation skill, whose score is fixed at 75. *)
Theorem presentation_never_planned (skillLevel : ExcelSkillLevel)
        (spreadsheetResults : list SpreadsheetResult) (functionsUsed : list string)
        (conceptualProgress : ConceptualProgress) (practicalProgress : PracticalProgress) :
  ~ In "presentation"%string
       (map skill
            (generateImprovementPlan skillLevel
               (analyzeSkillBreakdown spreadsheetResults functionsUsed
                                      (category_scores conceptualProgress))
               conceptualProgress practicalProgress)).
Proof.
  destruct (generateImprovementPlan_flat_map skillLevel
              (analyzeSkillBreakdown spreadsheetResults functionsUsed
                                     (category_scores conceptualProgress))
              conceptualProgress practicalProgress) as (item & Hitem & ->).
  intros Hin. apply in_map_iff in Hin. destruct Hin as (x & Hskill & Hx).
  apply in_flat_map in Hx. destruct Hx as (entry & Hentry & Hx).
  destruct (lt (sk_score (snd entry)) (Num 70)) eqn:Hlt; [| contradiction].
  destruct Hx as [<- | []].
  destruct (Hitem (fst entry) (snd entry)) as (Hs & _). rewrite Hs in Hskill.
  unfold breakdownEntries in Hentry. cbn [In] in Hentry.
  repeat destruct Hentry as [<- | Hentry]; try contradiction;
    cbn in Hskill; try discriminate Hskill.
  cbn in Hlt. discriminate Hlt.
Qed.

Lemma complexityOf_range (func : string) :
  includes prototypeKeys func = false ->
  exists q, complexityOf func = Num q /\ (1 <= q)%Q /\ (q <= 4)%Q.
Proof.
  intros Hkey. unfold complexityOf, evaluationComplexityMap. cbn [lookup].
  repeat match goal with
         | |- context [String.eqb ?a func] => destruct (String.eqb a func)
         end;
    try rewrite Hkey; eexists; (split; [reflexivity |]); split; discriminate.
Qed.

Lemma maxAll_range (xs : list number) :
  Forall (fun x => exists q, x = Num q /\ (1 <= q)%Q /\ (q <= 4)%Q) xs ->
  forall acc,
    acc = NegInfinity \/ (exists q, acc = Num q /\ (1 <= q)%Q /\ (q <= 4)%Q) ->
    (xs = [] /\ fold_left max xs acc = acc) \/
    (exists q, fold_left max xs acc = Num q /\ (1 <= q)%Q /\ (q <= 4)%Q).
Proof.
  induction 1 as [| x xs (q & -> & Hq1 & Hq4) Hxs IH]; intros acc Hacc.
  - left. split; reflexivity.
  - right. cbn [fold_left].
    assert (Hstep : exists r, max acc (Num q) = Num r /\ (1 <= r)%Q /\ (r <= 4)%Q).
    { destruct Hacc as [-> | (a & -> & Ha1 & Ha4)].
      - exists q. repeat split; assumption.
      - cbn [max lt]. destruct (Qltb a q); eexists; repeat split; eassumption. }
    destruct (IH (max acc (Num q)) (or_intror Hstep)) as [(-> & Hsame) | Hnum].
    + cbn [fold_left]. exact Hstep.
    + exact Hnum.
Qed.

(** The complexity level achieved is minus infinity when no function was
    used; for a non-empty list of functions, none named like an inherited
    member of a plain object, it is a number from 1 to 4. *)
Theorem calculateComplexityLevel_range (functionsUsed : list string) :
  calculateComplexityLevel [] = NegInfinity /\
  (functionsUsed <> [] ->
   (forall func, In func functionsUsed -> includes prototypeKeys func = false) ->
   exists q, calculateComplexityLevel functionsUsed = Num q /\ (1 <= q)%Q /\ (q <= 4)%Q).
Proof.
  split; [reflexivity |]. intros Hne Hkeys. unfold calculateComplexityLevel, maxAll.
  destruct (maxAll_range (map complexityOf functionsUsed)) with (acc := NegInfinity)
    as [(Hnil & _) | Hnum].
  - apply Forall_forall. intros x Hx. apply in_map_iff in Hx.
    destruct Hx as (func & <- & Hin). apply complexityOf_range. now apply Hkeys.
  - now left.
  - destruct functionsUsed; [congruence | discriminate].
  - exact Hnum.
Qed.

(** The confidence interval is capped at 20: it is not a number or it is
    at most 20; without any task result and with a score strictly between
    0 and 100 it is the cap itself. *)
Theorem calculateConfidenceInterval_capped (score : Q) (sampleSize : nat) :
  (calculateConfidenceInterval sqrtQ score sampleSize = NaN \/
   le (calculateConfidenceInterval sqrtQ score sampleSize) (Num 20) = true) /\
  ((0 < score)%Q -> (score < 100)%Q ->
   calculateConfidenceInterval sqrtQ score 0 = Num 20).
Proof.
  split.
  - unfold calculateConfidenceInterval.
    destruct (mul _ (Num (196 # 100))) as [m | | |]; cbn [min lt le].
    + destruct (Qltb 20 m) eqn:Hm; right; cbn [le]; [reflexivity |].
      apply Qltb_false in Hm. apply Qle_bool_iff. now apply Qnot_lt_le.
    + now left.
    + right. reflexivity.
    + right. reflexivity.
  - intros H0 H100. unfold calculateConfidenceInterval, div, ofNat.
    cbn [Z.of_nat inject_Z].
    assert (Hpos : (0 < score * (100 - score))%Q) by nra.
    assert (Hz : isZero (score * (100 - score)) = false).
    { unfold isZero. destruct (Qeq_bool _ 0) eqn:Hq; [| reflexivity].
      apply Qeq_bool_iff in Hq. rewrite Hq in Hpos. now apply Qlt_irrefl in Hpos. }
    assert (Hn : isNeg (score * (100 - score)) = false).
    { unfold isNeg. apply Qltb_false. intros Hneg.
      apply (Qlt_irrefl 0). now apply Qlt_trans with (score * (100 - score))%Q. }
    change (isZero (0 # 1)) with true. cbv iota. rewrite Hz, Hn. reflexivity.
Qed.

(** The overall feedback of a report is never the empty text, whatever
    the text evaluator answers. *)
Theorem generateOverallFeedback_nonempty (skillLevel : ExcelSkillLevel)
        (overallScore : Q) (conceptualProgress : ConceptualProgress)
        (practicalProgress : PracticalProgress) (totalDuration : Q) (w : World) :
  fst (generateOverallFeedback skillLevel overallScore conceptualProgress
                               practicalProgress totalDuration w) <> ""%string.
Proof.
  unfold generateOverallFeedback, bind, ret, chat_completions_create.
  destruct (completions w) as [| [| [text |]] later]; cbn [fst]; try discriminate.
  destruct (trim text); discriminate.
Qed.

End EvaluationHelperFacts.
